(** * Controles Minimos: inventory, matching, trend and ledger engine

    A shallow embedding of the core of [cm.py] (and of the file loop of
    [lista.py]): the archive entry sanitizer, the period scanner, the
    delimited-text reader with its streaming mode, the identity matcher,
    the trend classifier and the per-period ledger merge driven by
    [worker_procesar].

    Conventions of the embedding.
    - Python [str] values are [string]s of ASCII characters; the methods
      used by the program ([replace], [lstrip], [split], [join], [lower],
      [isdigit]) are written out below on that type.
    - Numeric cells (row counts, sizes in KB, percentages) are exact
      rationals [Q]; a missing value is [None].  Binary rounding and NaN
      cells of the floating point representation are outside the model.
    - The file system, the archive library and the table parser are
      observed through their results: a directory listing is a list of
      entries, an archive is a list of members, a file is its text.  Each
      operation of an extraction succeeds or fails as the file system
      decides, and [os.path.join] is written out for both path
      conventions, [posixpath] and [ntpath].
    - The base directory before a run is a record of what the first step
      of the worker meets there, the answers to its dialogs included, and
      of what the load of the stored ledger returns.  The month tag of a
      row is a cell: text in the rows built by the worker, a number in the
      rows read back from the store.
    - Exceptions that no handler of the program catches are [None] results
      of the function that raises them.
    - The cancellation event is the index of the first poll that finds it
      set; the progress messages are left out. *)

From Stdlib Require Import ZArith QArith Qround Qabs List String Ascii Bool Lia.
From Stdlib Require Import Sorted Permutation Lqa.
Import ListNotations.

Open Scope string_scope.
Open Scope list_scope.

(** * Part I: the program *)

(** ** Python string methods used by the program *)

Module Texto.

Definition barra : ascii := "/"%char.
Definition contrabarra : ascii := "\"%char.
Definition salto : ascii := "010"%char.

(** [s.replace(viejo, nuevo)] for single characters. *)
Fixpoint replace (viejo nuevo : ascii) (s : string) : string :=
  match s with
  | EmptyString => EmptyString
  | String c r =>
      String (if Ascii.eqb c viejo then nuevo else c) (replace viejo nuevo r)
  end.

(** [s.startswith(c)] for a single character. *)
Definition startswith (c : ascii) (s : string) : bool :=
  match s with
  | EmptyString => false
  | String d _ => Ascii.eqb d c
  end.

(** [s.endswith(c)] for a single character. *)
Fixpoint endswith (c : ascii) (s : string) : bool :=
  match s with
  | EmptyString => false
  | String d EmptyString => Ascii.eqb d c
  | String _ r => endswith c r
  end.

(** [s.lstrip(c)]. *)
Fixpoint lstrip (c : ascii) (s : string) : string :=
  match s with
  | EmptyString => EmptyString
  | String d r => if Ascii.eqb d c then lstrip c r else s
  end.

(** [s.split(sep)]: never empty, [''.split('/') == ['']]. *)
Fixpoint split (sep : ascii) (s : string) : list string :=
  match s with
  | EmptyString => [EmptyString]
  | String c r =>
      if Ascii.eqb c sep then EmptyString :: split sep r
      else match split sep r with
           | [] => [String c EmptyString]
           | p :: ps => String c p :: ps
           end
  end.

(** [sep.join(parts)]. *)
Fixpoint join (sep : ascii) (parts : list string) : string :=
  match parts with
  | [] => EmptyString
  | [p] => p
  | p :: ps => p ++ String sep (join sep ps)
  end.

(** Occurrence of a character in a string. *)
Fixpoint contiene (c : ascii) (s : string) : bool :=
  match s with
  | EmptyString => false
  | String d r => Ascii.eqb d c || contiene c r
  end.

Definition es_digito (c : ascii) : bool :=
  let n := nat_of_ascii c in (48 <=? n)%nat && (n <=? 57)%nat.

Fixpoint todos_digitos (s : string) : bool :=
  match s with
  | EmptyString => true
  | String c r => es_digito c && todos_digitos r
  end.

(** [s.isdigit()]: at least one character and all of them digits. *)
Definition isdigit (s : string) : bool :=
  match s with
  | EmptyString => false
  | _ => todos_digitos s
  end.

Definition minuscula (c : ascii) : ascii :=
  let n := nat_of_ascii c in
  if (65 <=? n)%nat && (n <=? 90)%nat then ascii_of_nat (n + 32) else c.

(** [s.lower()]. *)
Fixpoint lower (s : string) : string :=
  match s with
  | EmptyString => EmptyString
  | String c r => String (minuscula c) (lower r)
  end.

(** [s[:n]] and [s[n:]] for [0 <= n]. *)
Fixpoint prefijo (n : nat) (s : string) : string :=
  match n, s with
  | S k, String c r => String c (prefijo k r)
  | _, _ => EmptyString
  end.

Fixpoint sufijo (n : nat) (s : string) : string :=
  match n, s with
  | S k, String _ r => sufijo k r
  | _, _ => s
  end.

End Texto.

(** ** Archive entries: [_sanitize_zipinfo_name] and the zip branch of
    [extraer_archivo] *)

Module Sanitizador.
Import Texto.

(** The test [p not in ('', '..')]. *)
Definition es_parte_segura (p : string) : bool :=
  negb (p =? "") && negb (p =? "..").

(** [_sanitize_zipinfo_name(name)]. *)
Definition _sanitize_zipinfo_name (name : string) : string :=
  let name := replace contrabarra barra name in
  let name := if startswith barra name then lstrip barra name else name in
  let parts := filter es_parte_segura (split barra name) in
  join barra parts.

(** [posixpath.join(a, b)], which is [os.path.join] where [/] is the only
    separator: a second argument that starts with the separator replaces
    the first one.  A drive prefix has no meaning of its own here. *)
Definition path_join (a b : string) : string :=
  if startswith barra b then b
  else if (a =? "") || endswith barra a then (a ++ b)%string
  else (a ++ String barra b)%string.

(** [posixpath.normpath] on the components of a path: empty and [.]
    components are dropped, [..] removes the component before it, and is
    kept only where nothing is left to remove in a relative path. *)
Fixpoint resolver (absoluta : bool) (pila comps : list string) : list string :=
  match comps with
  | [] => rev pila
  | c :: cs =>
      if (c =? "") || (c =? ".") then resolver absoluta pila cs
      else if c =? ".." then
        match pila with
        | [] => if absoluta then resolver absoluta [] cs
                else resolver absoluta [".."] cs
        | t :: resto =>
            if t =? ".." then resolver absoluta (".." :: pila) cs
            else resolver absoluta resto cs
        end
      else resolver absoluta (c :: pila) cs
  end.

Definition normpath_comps (p : string) : list string :=
  resolver (startswith barra p) [] (split barra p).

(** A member of a zip archive: its stored name and its bytes.
    [ZipInfo.is_dir()] holds for names that end with the separator. *)
Record ZipInfo := { filename : string; datos : string }.

Definition is_dir (m : ZipInfo) : bool := endswith barra (filename m).

(** [ntpath.join(a, b)], which is [os.path.join] on Windows, where the
    program keeps its temporary folders ([C:\Users\...\Desktop\cmf_temp]):
    both slashes separate, and a path may start with a drive. *)
Definition es_separador (c : ascii) : bool :=
  Ascii.eqb c contrabarra || Ascii.eqb c barra.

Definition empieza_con_separador (p : string) : bool :=
  match p with
  | String c _ => es_separador c
  | EmptyString => false
  end.

Fixpoint termina_con_separador (p : string) : bool :=
  match p with
  | EmptyString => false
  | String c EmptyString => es_separador c
  | String _ r => termina_con_separador r
  end.

Fixpoint termina_con_dos_puntos (p : string) : bool :=
  match p with
  | EmptyString => false
  | String c EmptyString => Ascii.eqb c ":"%char
  | String _ r => termina_con_dos_puntos r
  end.

(** [normp.find(sep, start)] on the path with both slashes taken as the
    separator. *)
Fixpoint buscar_separador (desde : nat) (p : string) : option nat :=
  match p with
  | EmptyString => None
  | String c r =>
      match desde with
      | O => if es_separador c then Some 0%nat
             else option_map S (buscar_separador 0 r)
      | S k => option_map S (buscar_separador k r)
      end
  end.

(** [ntpath.splitdrive(p)]: a share [\\server\share] (also behind
    [\\?\UNC\]) or a letter and a colon. *)
Definition splitdrive (p : string) : string * string :=
  match p with
  | String a (String b _) =>
      if es_separador a && es_separador b then
        let start :=
          if lower (replace barra contrabarra (prefijo 8 p))
             =? lower "\\?\UNC\"
          then 8%nat else 2%nat in
        match buscar_separador start p with
        | None => (p, "")
        | Some index =>
            match buscar_separador (S index) p with
            | None => (p, "")
            | Some index2 => (prefijo index2 p, sufijo index2 p)
            end
        end
      else if Ascii.eqb b ":"%char then (prefijo 2 p, sufijo 2 p)
      else ("", p)
  | _ => ("", p)
  end.

Definition ntpath_join (path p : string) : string :=
  let '(result_drive, result_path) := splitdrive path in
  let '(p_drive, p_path) := splitdrive p in
  let relativo (drive : string) :=
    let base :=
      if negb (result_path =? "") && negb (termina_con_separador result_path)
      then (result_path ++ String contrabarra "")%string
      else result_path in
    (drive, (base ++ p_path)%string) in
  let '(drive, ruta) :=
    if empieza_con_separador p_path then
      ((if negb (p_drive =? "") || (result_drive =? "") then p_drive
        else result_drive),
       p_path)
    else if negb (p_drive =? "") && negb (p_drive =? result_drive) then
      if negb (lower p_drive =? lower result_drive) then (p_drive, p_path)
      else relativo p_drive
    else relativo result_drive in
  if negb (ruta =? "") && negb (empieza_con_separador ruta)
     && negb (drive =? "") && negb (termina_con_dos_puntos drive)
  then (drive ++ String contrabarra ruta)%string
  else (drive ++ ruta)%string.

(** What the extraction does to the file system, in order. *)
Inductive operacion :=
| CrearCarpetaPadre (target : string)
| CrearCarpeta (target : string)
| EscribirArchivo (target : string) (contenido : string).

Definition ruta_de (op : operacion) : string :=
  match op with
  | CrearCarpetaPadre t | CrearCarpeta t | EscribirArchivo t _ => t
  end.

Section Extraccion.

(** [os.path.join] of the platform. *)
Variable os_path_join : string -> string -> string.

(** The file system: whether an operation succeeds after the operations
    done before it, and [os.path.exists] at the end of the extraction. *)
Variable exito : list operacion -> operacion -> bool.
Variable existe : string -> bool.

(** What a member asks of the file system. *)
Definition operaciones_de (dest_dir : string) (member : ZipInfo)
  : list operacion :=
  let target_path :=
    os_path_join dest_dir (_sanitize_zipinfo_name (filename member)) in
  [CrearCarpetaPadre target_path;
   if is_dir member then CrearCarpeta target_path
   else EscribirArchivo target_path (datos member)].

(** The loop over [z.infolist()] in [extraer_archivo], after the
    operations [hechas]: the operations attempted, in order, and the list
    [extraidos]; [None] in its place when an operation fails, which ends
    the extraction with [RuntimeError]. *)
Fixpoint bucle_zip (dest_dir : string) (hechas : list operacion)
    (miembros : list ZipInfo) : list operacion * option (list string) :=
  match miembros with
  | [] => ([], Some [])
  | member :: resto =>
      let safe_name := _sanitize_zipinfo_name (filename member) in
      if safe_name =? "" then bucle_zip dest_dir hechas resto
      else
        let target_path := os_path_join dest_dir safe_name in
        let op1 := CrearCarpetaPadre target_path in
        let op2 := if is_dir member then CrearCarpeta target_path
                   else EscribirArchivo target_path (datos member) in
        if negb (exito hechas op1) then ([op1], None)
        else if negb (exito (hechas ++ [op1]) op2) then ([op1; op2], None)
        else
          let '(ops, extraidos) :=
            bucle_zip dest_dir (hechas ++ [op1; op2]) resto in
          (op1 :: op2 :: ops,
           if is_dir member then extraidos
           else option_map (cons target_path) extraidos)
  end.

(** The zip branch of [extraer_archivo] with its last line, which keeps
    the paths that exist. *)
Definition extraer_zip (dest_dir : string) (miembros : list ZipInfo)
  : list operacion * option (list string) :=
  let '(ops, extraidos) := bucle_zip dest_dir [] miembros in
  (ops, option_map (filter existe) extraidos).

End Extraccion.

(** A file system on which every operation succeeds and every path
    exists. *)
Definition siempre (hechas : list operacion) (op : operacion) : bool := true.
Definition todo_existe (p : string) : bool := true.

Definition entrada_no_vacia (m : ZipInfo) : bool :=
  negb (_sanitize_zipinfo_name (filename m) =? "").

(** The list [parts] of the sanitizer. *)
Definition partes (name : string) : list string :=
  let name := replace contrabarra barra name in
  let name := if startswith barra name then lstrip barra name else name in
  filter es_parte_segura (split barra name).

End Sanitizador.

(** ** Period folders: [buscar_carpetas_mes] and [extraer_mes_anio] *)

Module Carpetas.
Import Texto.

(** One entry of [os.listdir(carpeta_base)] with what [os.path.isdir]
    answers for it. *)
Record entrada := { nombre : string; es_directorio : bool }.

Definition es_carpeta_mes (e : entrada) : bool :=
  es_directorio e && (String.length (nombre e) =? 6)%nat && isdigit (nombre e).

(** [list.sort()] on strings: ascending in the lexicographic order of the
    characters. *)
Fixpoint insertar (x : string) (l : list string) : list string :=
  match l with
  | [] => [x]
  | y :: r => if String.leb x y then x :: l else y :: insertar x r
  end.

Definition ordenar (l : list string) : list string :=
  fold_right insertar [] l.

Definition buscar_carpetas_mes (listado : list entrada) : list string :=
  ordenar (map nombre (filter es_carpeta_mes listado)).

(** [extraer_mes_anio]: the first two characters are the month and the
    last four the year. *)
Definition extraer_mes_anio (nombre_carpeta : string) : string :=
  if (String.length nombre_carpeta =? 6)%nat && isdigit nombre_carpeta
  then (prefijo 2 nombre_carpeta ++ String barra (sufijo 2 nombre_carpeta))%string
  else "Desconocido".

(** The calendar position of a period token: year first, then month. *)
Fixpoint valor_decimal (acc : Z) (s : string) : Z :=
  match s with
  | EmptyString => acc
  | String c r => valor_decimal (10 * acc + Z.of_nat (nat_of_ascii c - 48)) r
  end.

Definition mes_de (periodo : string) : Z := valor_decimal 0 (prefijo 2 periodo).
Definition anio_de (periodo : string) : Z := valor_decimal 0 (sufijo 2 periodo).

Definition anterior_o_igual (a b : string) : bool :=
  (anio_de a <? anio_de b)%Z
  || ((anio_de a =? anio_de b)%Z && (mes_de a <=? mes_de b)%Z).

Fixpoint cronologico (l : list string) : bool :=
  match l with
  | a :: ((b :: _) as r) => anterior_o_igual a b && cronologico r
  | _ => true
  end.

Definition carpeta (n : string) : entrada :=
  {| nombre := n; es_directorio := true |}.

Definition suelto (n : string) : entrada :=
  {| nombre := n; es_directorio := false |}.

Definition leb_prop (a b : string) : Prop := String.leb a b = true.

(** The value of a digit character. *)
Definition digito (c : ascii) : Z := Z.of_nat (nat_of_ascii c - 48).

End Carpetas.

(** ** Trend classification: [clasificar_tendencia] and the comparisons
    made by [worker_procesar] *)

Module Tendencia.

Open Scope Q_scope.

Inductive clasificacion :=
| CambioLeve | CambioModerado | CambioAlto | CambioCritico | SinComparacion.

(** The label written in the output column. *)
Definition etiqueta (c : clasificacion) : string :=
  match c with
  | CambioLeve => "Cambio Leve"
  | CambioModerado => "Cambio Moderado"
  | CambioAlto => "Cambio Alto"
  | CambioCritico => "Cambio Crítico"
  | SinComparacion => "Sin comparación"
  end.

Definition Qlt_bool (a b : Q) : bool := negb (Qle_bool b a).

(** Nearest integer, a tie going to the even neighbour. *)
Definition redondeo_par (q : Q) : Z :=
  let f := Qfloor q in
  match Qcompare (q - inject_Z f) (1 # 2) with
  | Lt => f
  | Gt => (f + 1)%Z
  | Eq => if Z.even f then f else (f + 1)%Z
  end.

(** [round(x, 2)]. *)
Definition round_2 (x : Q) : Q := inject_Z (redondeo_par (x * 100)) / 100.

(** [clasificar_tendencia(porcentaje, filas_actual, filas_base,
    umbral_filas_min)]. *)
Definition menor_que_umbral (f : option Q) (umbral_filas_min : Q) : bool :=
  match f with
  | Some v => Qlt_bool v umbral_filas_min
  | None => false
  end.

Definition clasificar_tendencia (porcentaje : Q)
    (filas_actual filas_base : option Q) (umbral_filas_min : Q)
  : clasificacion :=
  let fa := filas_actual in
  let fb := filas_base in
  if menor_que_umbral fa umbral_filas_min || menor_que_umbral fb umbral_filas_min
  then CambioLeve
  else
    let abs_pct := Qabs porcentaje in
    if Qle_bool abs_pct 10 then CambioLeve
    else if Qle_bool abs_pct 30 then CambioModerado
    else if Qle_bool abs_pct 50 then CambioAlto
    else CambioCritico.

(** The comparison with the previous month (rows and size alike):
    [actual] is the current value and [anterior] the value read from the
    matched row, [None] when no row was matched or the value is not a
    number. *)
Definition tendencia_vs_anterior (actual : Q) (anterior : option Q)
    (umbral_filas_min : Q) : option Q * clasificacion :=
  match anterior with
  | None => (None, SinComparacion)
  | Some ant_val =>
      if Qeq_bool ant_val 0 then (None, SinComparacion)
      else if Qlt_bool ant_val 10 && Qlt_bool actual 10
      then (None, CambioLeve)
      else
        let tendencia_pct := round_2 (((actual - ant_val) / ant_val) * 100) in
        (Some tendencia_pct,
         clasificar_tendencia tendencia_pct (Some actual) (Some ant_val)
           umbral_filas_min)
  end.

(** The comparison with the historical mean: no small-sample shortcut
    before the percentage is computed. *)
Definition tendencia_vs_historico (actual : Q) (promedio_hist : option Q)
    (umbral_filas_min : Q) : option Q * clasificacion :=
  match promedio_hist with
  | None => (None, SinComparacion)
  | Some promedio =>
      if Qeq_bool promedio 0 then (None, SinComparacion)
      else
        let tendencia_pct := round_2 (((actual - promedio) / promedio) * 100) in
        (Some tendencia_pct,
         clasificar_tendencia tendencia_pct (Some actual) (Some promedio)
           umbral_filas_min)
  end.

(** The bucket of a percentage by its absolute value alone. *)
Definition por_porcentaje (pct : Q) : clasificacion :=
  if Qle_bool (Qabs pct) 10 then CambioLeve
  else if Qle_bool (Qabs pct) 30 then CambioModerado
  else if Qle_bool (Qabs pct) 50 then CambioAlto
  else CambioCritico.

(** The buckets in the order of their severity. *)
Definition severidad (c : clasificacion) : nat :=
  match c with
  | SinComparacion => 0
  | CambioLeve => 1
  | CambioModerado => 2
  | CambioAlto => 3
  | CambioCritico => 4
  end.

End Tendencia.

(** ** Reading a file as a table: [leer_archivo_generico] and
    [contar_filas_validas] *)

Module Lectura.
Import Texto.

(** A call that may raise an exception which its caller catches. *)
Inductive resultado (A : Type) :=
| Ok (a : A)
| Error (msg : string).
Arguments Ok {A} a.
Arguments Error {A} msg.

(** A cell of a table: missing, text, or the integer of the one-cell frame
    built in the fast mode.  Cells that the parser would turn into numbers
    are kept as their text: only being missing or blank is observed. *)
Inductive celda :=
| Nulo
| Texto (s : string)
| Entero (n : Z).

Record DataFrame := { columns : list string; filas : list (list celda) }.

(** [df.empty]. *)
Definition empty (df : DataFrame) : bool :=
  (List.length (columns df) =? 0)%nat || (List.length (filas df) =? 0)%nat.

(** [pd.DataFrame({"__filas__": [filas]})]. *)
Definition marco_filas (n : Z) : DataFrame :=
  {| columns := ["__filas__"]; filas := [[Entero n]] |}.

(** A file: its path, its text, and what the branch of the reader for its
    format returns for it when the format is not delimited text. *)
Record archivo := {
  ruta : string;
  contenido : string;
  tabla_de_biblioteca : resultado DataFrame
}.

(** [os.path.getsize(ruta)]: the text is plain ASCII, one byte each. *)
Definition getsize (a : archivo) : Z := Z.of_nat (String.length (contenido a)).

(** [os.path.basename(p)] with [/] as the separator. *)
Definition basename (p : string) : string := last (split barra p) "".

(** [os.path.splitext(p)[1]] on a base name: the suffix from the last dot
    that has a character other than a dot before it. *)
Fixpoint ultima_ext (visto : bool) (s : string) : string :=
  match s with
  | EmptyString => EmptyString
  | String c r =>
      match ultima_ext (visto || negb (Ascii.eqb c "."%char)) r with
      | EmptyString => if Ascii.eqb c "."%char && visto then s else EmptyString
      | e => e
      end
  end.

Definition splitext_ext (p : string) : string := ultima_ext false (basename p).

(** [s.endswith(suf)]. *)
Definition endswith_str (suf s : string) : bool :=
  (String.length suf <=? String.length s)%nat
  && (substring (String.length s - String.length suf) (String.length suf) s =? suf).

(** Iterating over a text file yields one line per newline and one more for
    a last line without it: [sum(1 for _ in f)]. *)
Fixpoint contar_lineas_desde (en_linea : bool) (s : string) : Z :=
  match s with
  | EmptyString => if en_linea then 1 else 0
  | String c r =>
      if Ascii.eqb c salto then (1 + contar_lineas_desde false r)%Z
      else contar_lineas_desde true r
  end.

Definition contar_lineas (s : string) : Z := contar_lineas_desde false s.

(** The delimited-text parser of the library, [pd.read_csv], on plain
    text without quoting and with the newline as the only line end: lines
    that are empty or made of blanks are skipped, the first line left is
    the header, every other one is a row of fields, short rows are
    completed with missing cells, and a field that is one of the default
    missing-value markers is a missing cell.  The width of the table is
    the larger of the numbers of fields of the header and of the first
    row: the fields that the first row has beyond the header are the
    index of the frame and not columns of it.  A later row with more
    fields than the width is reported as a parse error. *)
Definition na_values : list string :=
  [""; "#N/A"; "#N/A N/A"; "#NA"; "-1.#IND"; "-1.#QNAN"; "-NaN"; "-nan";
   "1.#IND"; "1.#QNAN"; "<NA>"; "N/A"; "NA"; "NULL"; "NaN"; "None"; "n/a";
   "nan"; "null"].

Definition es_espacio (c : ascii) : bool :=
  Ascii.eqb c " "%char || Ascii.eqb c "009"%char.

Fixpoint es_linea_blanca (sep : ascii) (l : string) : bool :=
  match l with
  | EmptyString => true
  | String c r => es_espacio c && negb (Ascii.eqb c sep) && es_linea_blanca sep r
  end.

Definition lineas_utiles (sep : ascii) (texto : string) : list string :=
  filter (fun l => negb (es_linea_blanca sep l)) (split salto texto).

Definition celda_de (campo : string) : celda :=
  if existsb (String.eqb campo) na_values then Nulo else Texto campo.

Definition completar (n : nat) (fila : list celda) : list celda :=
  fila ++ repeat Nulo (n - List.length fila).

Definition ancho_de (ncols : nat) (sep : ascii) (datos : list string) : nat :=
  match datos with
  | [] => ncols
  | primera :: _ => Nat.max ncols (List.length (split sep primera))
  end.

Definition analizar (sep : ascii) (lineas : list string) : resultado DataFrame :=
  match lineas with
  | [] => Error "No columns to parse from file"
  | cabecera :: datos =>
      let cols := split sep cabecera in
      let ancho := ancho_de (List.length cols) sep datos in
      let leading_cols := (ancho - List.length cols)%nat in
      if existsb (fun l => (ancho <? List.length (split sep l))%nat) datos
      then Error "Error tokenizing data"
      else Ok {| columns := cols;
                 filas := map (fun l => skipn leading_cols
                                          (completar ancho
                                             (map celda_de (split sep l))))
                              datos |}
  end.

Definition read_csv (encoding : string) (sep : ascii) (texto : string)
  : resultado DataFrame :=
  analizar sep (lineas_utiles sep texto).

(** The loops over encodings and separators of the small-file branch: the
    first combination that parses and gives more than one column, or uses
    the comma, is returned. *)
Definition coma : ascii := ","%char.
Definition punto_y_coma : ascii := ";"%char.
Definition tabulador : ascii := "009"%char.

Fixpoint probar_separadores (ruta texto encoding : string) (seps : list ascii)
  : option DataFrame :=
  match seps with
  | [] => None
  | sep :: resto =>
      match read_csv encoding sep texto with
      | Ok df =>
          if (1 <? List.length (columns df))%nat || Ascii.eqb sep coma then Some df
          else probar_separadores ruta texto encoding resto
      | Error _ => probar_separadores ruta texto encoding resto
      end
  end.

Fixpoint probar_codificaciones (ruta texto : string) (encodings : list string)
  : resultado DataFrame :=
  match encodings with
  | [] => Error ("No se pudo leer CSV/TXT " ++ ruta)
  | encoding :: resto =>
      match probar_separadores ruta texto encoding
              [coma; punto_y_coma; tabulador] with
      | Some df => Ok df
      | None => probar_codificaciones ruta texto resto
      end
  end.

Definition umbral_streaming_bytes : Z := 10 * 1024 * 1024.

Definition es_delimitado (a : archivo) : bool :=
  let ext := lower (splitext_ext (ruta a)) in
  let name := lower (basename (ruta a)) in
  endswith_str ".csv" name || endswith_str ".csv.gz" name
  || endswith_str ".csv.bz2" name || endswith_str ".csv.xz" name
  || (ext =? ".txt").

Definition otros_formatos : list string :=
  [".xls"; ".xlsx"; ".xlsm"; ".ods"; ".json"; ".parquet"; ".html"; ".htm";
   ".log"; ".conf"].

(** [leer_archivo_generico(ruta)]. *)
Definition leer_archivo_generico (a : archivo) : resultado DataFrame :=
  let ext := lower (splitext_ext (ruta a)) in
  if es_delimitado a then
    if (umbral_streaming_bytes <? getsize a)%Z
    then
      let filas := (contar_lineas (contenido a) - 1)%Z in
      Ok (marco_filas filas)
    else probar_codificaciones (ruta a) (contenido a)
           ["utf-8-sig"; "utf-8"; "latin1"]
  else if existsb (String.eqb ext) otros_formatos then tabla_de_biblioteca a
  else Error ("Formato no soportado: " ++ ruta a).

(** [df.dropna(how='all')]. *)
Definition es_nulo (c : celda) : bool :=
  match c with Nulo => true | _ => false end.

Definition dropna_all (rows : list (list celda)) : list (list celda) :=
  filter (fun fila => negb (forallb es_nulo fila)) rows.

(** [int(v)] for the value of a cell; [None] when it raises.  A text cell
    stands for a cell of a column of whole numbers, written with digits and
    an optional minus sign. *)
Fixpoint digitos_a_Z (acc : Z) (s : string) : option Z :=
  match s with
  | EmptyString => Some acc
  | String c r =>
      if es_digito c
      then digitos_a_Z (10 * acc + Z.of_nat (nat_of_ascii c - 48)) r
      else None
  end.

Definition int_de_texto (s : string) : option Z :=
  match s with
  | EmptyString => None
  | String "-"%char (String c r) => option_map Z.opp (digitos_a_Z 0 (String c r))
  | _ => digitos_a_Z 0 s
  end.

Definition int_de_celda (c : celda) : option Z :=
  match c with
  | Nulo => None
  | Texto s => int_de_texto s
  | Entero n => Some n
  end.

(** [contar_filas_validas(df)]; [None] when the fast-mode case raises. *)
Definition contar_filas_validas (df : DataFrame) : option Z :=
  if existsb (String.eqb "__filas__") (columns df)
     && (List.length (columns df) =? 1)%nat
  then match filas df with
       | (c :: _) :: _ => int_de_celda c
       | _ => None
       end
  else Some (Z.of_nat (List.length (dropna_all (filas df)))).

(** The row count that the worker records for a file: zero when the read
    raised. *)
Definition filas_validas_de (lectura : resultado DataFrame) : option Z :=
  match lectura with
  | Ok df => contar_filas_validas df
  | Error _ => Some 0%Z
  end.



(** A text of [n] empty lines, and a header with rows written one per
    line. *)
Fixpoint lineas_vacias (n : nat) : string :=
  match n with
  | O => EmptyString
  | S k => String salto (lineas_vacias k)
  end.

Fixpoint texto_de_lineas (lineas : list string) : string :=
  match lineas with
  | [] => EmptyString
  | l :: resto => (l ++ String salto (texto_de_lineas resto))%string
  end.









End Lectura.

(** ** The historical ledger, the identity matcher and [worker_procesar] *)

Module Worker.
Import Texto Carpetas Tendencia Lectura.

(** *** Rows *)

(** A row of [datos_mes], and the five measured columns of a row of the
    ledger.  The cell [Carpeta Mes] is the folder name as text in the rows
    that the worker builds; in the rows of a ledger that was read back from
    the store it is what [pd.read_excel] returns, which is a number for a
    column of digit strings. *)
Record dato := {
  Correlativo : Z;
  Nombre_archivo : string;
  Tamano_KB : Q;
  Cantidad_filas : Z;
  Carpeta_Mes : celda
}.

(** A percentage column with its classification column. *)
Definition comparacion : Type := option Q * clasificacion.

Definition sin_comparacion : comparacion := (None, SinComparacion).

(** A row of the ledger [df_historico]: the five measured columns and the
    two historical comparisons. *)
Record fila_historico := {
  datos : dato;
  historica_filas : comparacion;
  historica_peso : comparacion
}.

(** A row of [datos_tendencia]: the measured columns, the matched row of
    the previous month when there is one, and the four comparisons. *)
Record fila_tendencia := {
  base : dato;
  fila_mes_anterior : option fila_historico;
  vs_anterior_filas : comparacion;
  vs_historico_filas : comparacion;
  vs_anterior_peso : comparacion;
  vs_historico_peso : comparacion
}.

(** An entry of [detalle_nulos]. *)
Record nulo := {
  Archivo : string;
  Ruta : string;
  Fila : Z;
  Columnas_Afectadas : string
}.

(** A file descriptor returned by the expansion of a month folder, with
    what the worker observes of it: its path relative to the month folder,
    the size it obtains for it, and the file itself. *)
Record item := {
  original : string;
  internal_path : string;
  ruta_relativa : string;
  size_kb : Q;
  fichero : archivo
}.

Definition path (it : item) : string := ruta (fichero it).

Definition mes_de_fila (f : fila_historico) : celda := Carpeta_Mes (datos f).
Definition nombre_de_fila (f : fila_historico) : string := Nombre_archivo (datos f).

(** [cell == mes] for a folder name [mes]: a number or a missing value is
    not equal to any text. *)
Definition igual_a_texto (c : celda) (mes : string) : bool :=
  match c with
  | Texto s => s =? mes
  | Entero _ | Nulo => false
  end.

(** [df_historico["Carpeta Mes"] == mes]. *)
Definition es_del_mes (mes : string) (f : fila_historico) : bool :=
  igual_a_texto (mes_de_fila f) mes.

(** [df_historico["Carpeta Mes"] != mes]. *)
Definition no_es_del_mes (mes : string) (f : fila_historico) : bool :=
  negb (igual_a_texto (mes_de_fila f) mes).

(** The row belongs to the period of the folder [mes], whether its tag is
    the folder name as text or the number that the name reads as. *)
Definition es_del_periodo (mes : string) (f : fila_historico) : bool :=
  match mes_de_fila f with
  | Texto s => s =? mes
  | Entero n =>
      match int_de_texto mes with
      | Some m => (n =? m)%Z
      | None => false
      end
  | Nulo => false
  end.

Fixpoint ultimo {A : Type} (l : list A) : option A :=
  match l with
  | [] => None
  | [x] => Some x
  | _ :: r => ultimo r
  end.

(** [Series.mean()]. *)
Definition mean (l : list Q) : option Q :=
  match l with
  | [] => None
  | _ => Some (fold_right Qplus 0%Q l / inject_Z (Z.of_nat (List.length l)))%Q
  end.

Section Similitud.

(** [SequenceMatcher(None, a, b).ratio()] of the standard library. *)
Variable ratio : string -> string -> Q.

Definition calcular_similitud (a b : string) : Q := ratio (lower a) (lower b).

(** *** The identity matcher *)

(** [sort_values("_sim", ascending=False)]: a row goes before the rows
    listed after it that score no more. *)
Fixpoint insertar_por_sim (sim : fila_historico -> Q) (x : fila_historico)
    (l : list fila_historico) : list fila_historico :=
  match l with
  | [] => [x]
  | y :: r =>
      if Qle_bool (sim y) (sim x) then x :: l
      else y :: insertar_por_sim sim x r
  end.

Definition sort_values_desc (sim : fila_historico -> Q)
    (l : list fila_historico) : list fila_historico :=
  fold_right (insertar_por_sim sim) [] l.

Definition umbral_similitud : Q := 8 # 10.

(** The resolution among the rows of the previous month. *)
Definition resolver_en (df_mes_anterior : list fila_historico)
    (nombre_actual : string) : option fila_historico :=
  match df_mes_anterior with
  | [] => None
  | _ =>
      let exact :=
        filter (fun f => nombre_de_fila f =? nombre_actual) df_mes_anterior in
      match exact with
      | _ :: _ => ultimo exact
      | [] =>
          let _sim f := calcular_similitud (nombre_de_fila f) nombre_actual in
          match sort_values_desc _sim df_mes_anterior with
          | primero :: _ =>
              if Qle_bool umbral_similitud (_sim primero) then Some primero
              else None
          | [] => None
          end
      end
  end.

Definition buscar_fila_mes_anterior (df_historico : list fila_historico)
    (mes_anterior nombre_actual : string) : option fila_historico :=
  match df_historico with
  | [] => None
  | _ => resolver_en (filter (es_del_mes mes_anterior) df_historico)
           nombre_actual
  end.

(** The rows pooled for the historical mean. *)
Definition es_similar (mes_carpeta nombre_actual : string)
    (f : fila_historico) : bool :=
  no_es_del_mes mes_carpeta f
  && ((nombre_de_fila f =? nombre_actual)
      || Qle_bool umbral_similitud
           (calcular_similitud (nombre_de_fila f) nombre_actual)).

Definition comparar_con_historico (df_historico : list fila_historico)
    (mes_carpeta nombre_actual : string) (campo : dato -> Q) (actual : Q)
    (umbral_filas_min : Q) : comparacion :=
  match df_historico with
  | [] => sin_comparacion
  | _ =>
      let df_similares :=
        filter (es_similar mes_carpeta nombre_actual) df_historico in
      match df_similares with
      | [] => sin_comparacion
      | _ =>
          let promedio_hist := mean (map (fun f => campo (datos f)) df_similares) in
          tendencia_vs_historico actual promedio_hist umbral_filas_min
      end
  end.

Definition filas_Q (d : dato) : Q := inject_Z (Cantidad_filas d).

(** The body of the loop over [df_mes.iterrows()]. *)
Definition fila_con_tendencia (df_historico : list fila_historico)
    (mes_anterior : option string) (mes_carpeta : string)
    (umbral_filas_min : Q) (row : dato) : fila_tendencia :=
  let nombre_actual := Nombre_archivo row in
  let size_actual := Tamano_KB row in
  let filas_actual := Cantidad_filas row in
  let medido :=
    {| Correlativo := Correlativo row; Nombre_archivo := nombre_actual;
       Tamano_KB := size_actual; Cantidad_filas := filas_actual;
       Carpeta_Mes := Texto mes_carpeta |} in
  match mes_anterior with
  | None =>
      {| base := medido; fila_mes_anterior := None;
         vs_anterior_filas := sin_comparacion;
         vs_historico_filas := sin_comparacion;
         vs_anterior_peso := sin_comparacion;
         vs_historico_peso := sin_comparacion |}
  | Some anterior =>
      let fila_mes_ant :=
        buscar_fila_mes_anterior df_historico anterior nombre_actual in
      {| base := medido; fila_mes_anterior := fila_mes_ant;
         vs_anterior_filas :=
           tendencia_vs_anterior (inject_Z filas_actual)
             (option_map (fun f => filas_Q (datos f)) fila_mes_ant)
             umbral_filas_min;
         vs_historico_filas :=
           comparar_con_historico df_historico mes_carpeta nombre_actual
             filas_Q (inject_Z filas_actual) umbral_filas_min;
         vs_anterior_peso :=
           tendencia_vs_anterior size_actual
             (option_map (fun f => Tamano_KB (datos f)) fila_mes_ant)
             umbral_filas_min;
         vs_historico_peso :=
           comparar_con_historico df_historico mes_carpeta nombre_actual
             Tamano_KB size_actual umbral_filas_min |}
  end.

End Similitud.

(** *** The ledger merge *)

(** The columns of a month row that the ledger keeps. *)
Definition a_historico (t : fila_tendencia) : fila_historico :=
  {| datos := base t;
     historica_filas := vs_historico_filas t;
     historica_peso := vs_historico_peso t |}.

(** The replacement of a month in the ledger: its rows are removed and the
    new ones appended. *)
Definition reemplazar_mes (df_historico : list fila_historico)
    (mes_carpeta : string) (df_mes : list fila_tendencia)
  : list fila_historico :=
  filter (no_es_del_mes mes_carpeta) df_historico ++ map a_historico df_mes.

(** The merge at the end of a month, under its guard [not df_mes.empty]. *)
Definition integrar_mes (df_historico : list fila_historico)
    (mes_carpeta : string) (df_mes : list fila_tendencia)
  : list fila_historico :=
  match df_mes with
  | [] => df_historico
  | _ => reemplazar_mes df_historico mes_carpeta df_mes
  end.

(** Every row of a month table carries the month. *)
Definition todas_del_mes (mes : string) (df_mes : list fila_tendencia) : Prop :=
  forall t, In t df_mes -> mes_de_fila (a_historico t) = Texto mes.

(** *** The loop over the files of a month *)

(** [cancel_event]: the index of the first poll that finds the event set,
    when it is ever set.  It stays set for the rest of the run. *)
Definition is_set (cancel_event : option nat) (consulta : nat) : bool :=
  match cancel_event with
  | Some t => (t <=? consulta)%nat
  | None => false
  end.

Fixpoint sin_duplicados (nombres_vistos : list string) (items : list item)
  : list item :=
  match items with
  | [] => []
  | it :: resto =>
      let nombre_a := basename (path it) in
      if existsb (String.eqb nombre_a) nombres_vistos
      then sin_duplicados nombres_vistos resto
      else it :: sin_duplicados (nombre_a :: nombres_vistos) resto
  end.

Definition nombre_mostrado (it : item) : string :=
  if internal_path it =? "" then replace contrabarra barra (ruta_relativa it)
  else replace contrabarra barra (internal_path it).

(** [str.strip() == ""]. *)
Fixpoint es_blanco (s : string) : bool :=
  match s with
  | EmptyString => true
  | String c r =>
      (es_espacio c || Ascii.eqb c salto || Ascii.eqb c "013"%char) && es_blanco r
  end.

Definition celda_sin_valor (c : celda) : bool :=
  match c with
  | Nulo => true
  | Texto s => es_blanco s
  | Entero _ => false
  end.

Fixpoint unir (sep : string) (parts : list string) : string :=
  match parts with
  | [] => EmptyString
  | [p] => p
  | p :: ps => (p ++ sep ++ unir sep ps)%string
  end.

Fixpoint columnas_afectadas (cols : list string) (fila : list celda)
  : list string :=
  match cols, fila with
  | col :: cs, c :: fs =>
      if celda_sin_valor c then col :: columnas_afectadas cs fs
      else columnas_afectadas cs fs
  | _, _ => []
  end.

Fixpoint enumerar_nulos (nombre_archivo ruta_item : string) (cols : list string)
    (i : Z) (filas_con_nulos : list (list celda)) : list nulo :=
  match filas_con_nulos with
  | [] => []
  | fila :: resto =>
      {| Archivo := nombre_archivo; Ruta := ruta_item; Fila := i;
         Columnas_Afectadas := unir ", " (columnas_afectadas cols fila) |}
        :: enumerar_nulos nombre_archivo ruta_item cols (i + 1) resto
  end.

(** The entries added to [detalle_nulos] for one file. *)
Definition detalle_de (nombre_archivo ruta_item : string)
    (lectura : resultado DataFrame) : list nulo :=
  match lectura with
  | Error _ => []
  | Ok df =>
      if empty df then []
      else enumerar_nulos nombre_archivo ruta_item (columns df) 2
             (filter (existsb celda_sin_valor) (filas df))
  end.

(** The loop [for idx_archivo, item in enumerate(archivos, start=1)]: the
    rows of [datos_mes], the entries of [detalle_nulos] and the number of
    polls made so far.  [None] when counting the rows of a table raises. *)
Fixpoint leer_archivos (cancel_event : option nat) (mes_carpeta : string)
    (archivos : list item) (consulta : nat) (correlativo : Z)
  : option (list dato * list nulo * nat) :=
  match archivos with
  | [] => Some ([], [], consulta)
  | it :: resto =>
      if is_set cancel_event consulta then Some ([], [], S consulta)
      else
        let nombre_archivo := nombre_mostrado it in
        let lectura := leer_archivo_generico (fichero it) in
        match filas_validas_de lectura with
        | None => None
        | Some filas_validas =>
            match leer_archivos cancel_event mes_carpeta resto (S consulta)
                    (correlativo + 1) with
            | None => None
            | Some (datos_mes, detalle_nulos, consultas) =>
                Some ({| Correlativo := correlativo;
                         Nombre_archivo := nombre_archivo;
                         Tamano_KB := size_kb it;
                         Cantidad_filas := filas_validas;
                         Carpeta_Mes := Texto mes_carpeta |} :: datos_mes,
                      detalle_de nombre_archivo (path it) lectura
                        ++ detalle_nulos,
                      consultas)
            end
        end
  end.

(** *** The stored ledger and the first step *)

(** What [preguntar_y_borrar_duplicados_tk] meets at a path that exists:
    the answer to its dialog, and whether [mover_a_backup_escritorio]
    moves the path away (it reports a failure and returns, so that a path
    that could not be moved stays where it was). *)
Record hallazgo := {
  respuesta : bool;
  movido : bool
}.

(** The base directory before the run, for the first step and the load:
    the stored ledger in its two formats and the summary folder of each
    month folder ([None]: the path does not exist), and what
    [pd.read_excel] returns for the stored ledger. *)
Record almacen := {
  historico_xlsx : option hallazgo;
  read_excel : resultado (list fila_historico);
  historico_csv : option hallazgo;
  resumen_generado : string -> option hallazgo
}.

Definition acepta (h : option hallazgo) : bool :=
  match h with
  | Some x => respuesta x
  | None => true
  end.

(** [preguntar_y_borrar_duplicados_tk(carpeta_base)]: [False] at the first
    dialog that is declined. *)
Definition preguntar_y_borrar_duplicados_tk (base : almacen)
    (carpetas_mes : list string) : bool :=
  acepta (historico_xlsx base)
  && acepta (historico_csv base)
  && forallb (fun mes => acepta (resumen_generado base mes)) carpetas_mes.

(** [os.path.exists(ruta_historico_xlsx)] after the first step. *)
Definition queda_historico (base : almacen) : bool :=
  match historico_xlsx base with
  | Some x => negb (respuesta x && movido x)
  | None => false
  end.

(** The load of the ledger: empty when there is no file or when the read
    raises. *)
Definition cargar_historico (base : almacen) : list fila_historico :=
  if queda_historico base
  then match read_excel base with
       | Ok h => h
       | Error _ => []
       end
  else [].

(** *** The loop over the months *)

(** What the expansion of a month folder ends with: the descriptors, or
    the operator's refusal to go on after the disk filled up. *)
Inductive expansion :=
| Expandido (items : list item)
| DetenidoPorEspacio.

(** The files written for a month: the summary and the detail of nulls. *)
Record salida_mes := {
  mes_salida : string;
  resumen : list fila_tendencia;
  nulos : list nulo
}.

Record estado := {
  df_historico : list fila_historico;
  salidas : list salida_mes;
  consultas : nat;
  mes_anterior : option string
}.

(** How the worker ends: the ledger is rewritten, or the function returns
    before that and the stored ledger stays as it was. *)
Inductive fin :=
| Guardado (historico : list fila_historico) (salidas : list salida_mes)
| SinGuardar (salidas : list salida_mes).

Inductive control :=
| Sigue (e : estado)
| Termina (f : fin).

Section Recorrido.

Variable ratio : string -> string -> Q.
Variable cancel_event : option nat.
Variable umbral_filas_min : Q.

(** One iteration of the loop over the months. *)
Definition procesar_mes (e : estado) (mes_carpeta : string) (exp : expansion)
  : option control :=
  if is_set cancel_event (consultas e)
  then Some (Termina (Guardado (df_historico e) (salidas e)))
  else
    match exp with
    | DetenidoPorEspacio => Some (Termina (SinGuardar (salidas e)))
    | Expandido items =>
        let archivos := sin_duplicados [] items in
        match archivos with
        | [] =>
            Some (Sigue {| df_historico := df_historico e;
                           salidas := salidas e;
                           consultas := S (consultas e);
                           mes_anterior := Some mes_carpeta |})
        | _ =>
            match leer_archivos cancel_event mes_carpeta archivos
                    (S (consultas e)) 1 with
            | None => None
            | Some (datos_mes, detalle_nulos, consultas') =>
                let df_mes :=
                  map (fila_con_tendencia ratio (df_historico e)
                         (mes_anterior e) mes_carpeta umbral_filas_min)
                      datos_mes in
                Some (Sigue
                  {| df_historico :=
                       integrar_mes (df_historico e) mes_carpeta df_mes;
                     salidas :=
                       salidas e ++ [{| mes_salida := mes_carpeta;
                                        resumen := df_mes;
                                        nulos := detalle_nulos |}];
                     consultas := consultas';
                     mes_anterior := Some mes_carpeta |})
            end
        end
    end.

(** The loop [for idx_mes, mes_carpeta in enumerate(carpetas_mes)]. *)
Fixpoint bucle_meses (e : estado) (meses : list (string * expansion))
  : option control :=
  match meses with
  | [] => Some (Sigue e)
  | (mes_carpeta, exp) :: resto =>
      match procesar_mes e mes_carpeta exp with
      | Some (Sigue e') => bucle_meses e' resto
      | otro => otro
      end
  end.

(** After the loop the ledger is written, also when the loop was left by
    a cancellation. *)
Definition guardar (c : control) : fin :=
  match c with
  | Sigue e => Guardado (df_historico e) (salidas e)
  | Termina f => f
  end.

Definition estado_inicial (historico_cargado : list fila_historico) : estado :=
  {| df_historico := historico_cargado; salidas := [];
     consultas := 0; mes_anterior := None |}.

(** [worker_procesar]: the dialogs of the first step; when none of them is
    declined, the month folders found in the base directory are processed
    in the order of the scanner, starting from the ledger that is loaded
    from the store.  A declined dialog and a base directory without month
    folders end the run with nothing written. *)
Definition worker_procesar (listado : list entrada)
    (expandir : string -> expansion) (base : almacen)
  : option fin :=
  if negb (preguntar_y_borrar_duplicados_tk base (buscar_carpetas_mes listado))
  then Some (SinGuardar [])
  else
    match buscar_carpetas_mes listado with
    | [] => Some (SinGuardar [])
    | carpetas_mes =>
        option_map guardar
          (bucle_meses (estado_inicial (cargar_historico base))
             (map (fun m => (m, expandir m)) carpetas_mes))
    end.

End Recorrido.

(** The rows of the ledger in the store after the run: the ledger written
    by the run, or, when the run wrote none, what the first step left
    there. *)
Definition historico_final (base : almacen) (f : fin) : list fila_historico :=
  match f with
  | Guardado h _ => h
  | SinGuardar _ => cargar_historico base
  end.

Definition salidas_de (f : fin) : list salida_mes :=
  match f with
  | Guardado _ s | SinGuardar s => s
  end.

(** No summary written for the month has a row. *)
Definition sin_filas (mes : string) (ss : list salida_mes) : Prop :=
  forall s, In s ss -> mes_salida s = mes -> resumen s = [].

(** *** Data for the examples *)

(** A similarity to run the examples with: 1 for equal strings and 0
    otherwise. *)
Definition ratio_igualdad (a b : string) : Q :=
  if a =? b then 1%Q else 0%Q.

Definition item_de (nombre texto : string) (kb : Q) : item :=
  {| original := nombre; internal_path := ""; ruta_relativa := nombre;
     size_kb := kb;
     fichero := {| ruta := nombre; contenido := texto;
                   tabla_de_biblioteca := Error "" |} |}.

Definition ventas_csv : item :=
  item_de "ventas.csv" (texto_de_lineas ["id,monto"; "1,20"; "2,30"]) (1 # 2).

Definition clientes_csv : item :=
  item_de "clientes.csv" (texto_de_lineas ["id,nombre"; "1,Ana"]) (1 # 4).

Definition notas_bin : item := item_de "notas.bin" "xyz" (1 # 8).

Definition fila_previa (mes nombre : string) (filas : Z) : fila_historico :=
  {| datos := {| Correlativo := 1; Nombre_archivo := nombre;
                 Tamano_KB := 1; Cantidad_filas := filas;
                 Carpeta_Mes := Texto mes |};
     historica_filas := sin_comparacion;
     historica_peso := sin_comparacion |}.

(** A row as [pd.read_excel] returns it from a stored ledger: the folder
    name [012024] comes back as the number 12024. *)
Definition fila_leida (mes : Z) (nombre : string) (filas : Z) : fila_historico :=
  {| datos := {| Correlativo := 1; Nombre_archivo := nombre;
                 Tamano_KB := 1; Cantidad_filas := filas;
                 Carpeta_Mes := Entero mes |};
     historica_filas := sin_comparacion;
     historica_peso := sin_comparacion |}.

(** A base directory without a stored ledger and without summaries. *)
Definition sin_historico : almacen :=
  {| historico_xlsx := None; read_excel := Error "";
     historico_csv := None; resumen_generado := fun _ => None |}.

(** A base directory with a stored ledger: the dialog is accepted and the
    ledger is moved to the backup ... *)
Definition historico_movido (h : list fila_historico) : almacen :=
  {| historico_xlsx := Some {| respuesta := true; movido := true |};
     read_excel := Ok h;
     historico_csv := Some {| respuesta := true; movido := true |};
     resumen_generado := fun _ => None |}.

(** ... the dialog is accepted and the move to the backup fails ... *)
Definition historico_no_movido (h : list fila_historico) : almacen :=
  {| historico_xlsx := Some {| respuesta := true; movido := false |};
     read_excel := Ok h;
     historico_csv := None;
     resumen_generado := fun _ => None |}.

(** ... and the dialog is declined. *)
Definition historico_rechazado (h : list fila_historico) : almacen :=
  {| historico_xlsx := Some {| respuesta := false; movido := false |};
     read_excel := Ok h;
     historico_csv := None;
     resumen_generado := fun _ => None |}.

Definition base_un_mes : list entrada := [carpeta "012024"].

Definition base_dos_meses : list entrada := [carpeta "012024"; carpeta "022024"].

Definition expandir_ventas_clientes (mes : string) : expansion :=
  Expandido [ventas_csv; clientes_csv].

Definition expandir_notas (mes : string) : expansion := Expandido [notas_bin].

Definition expandir_nada (mes : string) : expansion := Expandido [].

End Worker.

(** ** The file loop of the listing application: [procesar_carpeta_base] *)

Module Lista.
Import Texto Carpetas Tendencia Lectura Worker.

(** A row of [historico_data]. *)
Record registro := {
  Mes : string;
  Archivo_listado : string;
  Cantidad_filas_listado : celda;
  Tamano_KB_listado : option Q;
  Ruta_completa : string
}.

(** An entry of [nulos_detalle]. *)
Record error_lectura := {
  Mes_error : string;
  Archivo_error : string;
  Ruta_error : string;
  Error_texto : string
}.

(** The position of a column. *)
Fixpoint posicion (columna : string) (cols : list string) : option nat :=
  match cols with
  | [] => None
  | c :: r =>
      if c =? columna then Some 0%nat else option_map S (posicion columna r)
  end.

(** The body of the [try]: the row, or the text of the exception.
    [df['__filas__'][0]] is the cell of the first row in that column, and
    raises [KeyError(0)] for a table without rows. *)
Definition medir (mes : string) (it : item) : resultado registro :=
  match leer_archivo_generico (fichero it) with
  | Error msg => Error msg
  | Ok df =>
      let filas :=
        match posicion "__filas__" (columns df) with
        | Some i =>
            match filas df with
            | primera :: _ =>
                match nth_error primera i with
                | Some c => Ok c
                | None => Error "0"
                end
            | [] => Error "0"
            end
        | None => Ok (Entero (Z.of_nat (List.length (filas df))))
        end in
      match filas with
      | Error msg => Error msg
      | Ok n =>
          Ok {| Mes := extraer_mes_anio mes;
                Archivo_listado := basename (path it);
                Cantidad_filas_listado := n;
                Tamano_KB_listado :=
                  if Qeq_bool (size_kb it) 0 then None
                  else Some (round_2 (size_kb it));
                Ruta_completa := path it |}
      end
  end.

(** The loop over the files of a month; [None] when the cancellation is
    found and the function returns. *)
Fixpoint listar_archivos (cancel_event : option nat) (mes : string)
    (archivos : list item) (consulta : nat)
  : option (list registro * list error_lectura * nat) :=
  match archivos with
  | [] => Some ([], [], consulta)
  | it :: resto =>
      if is_set cancel_event consulta then None
      else
        match listar_archivos cancel_event mes resto (S consulta) with
        | None => None
        | Some (historico_data, nulos_detalle, consultas) =>
            match medir mes it with
            | Ok r => Some (r :: historico_data, nulos_detalle, consultas)
            | Error msg =>
                Some (historico_data,
                      {| Mes_error := extraer_mes_anio mes;
                         Archivo_error := basename (path it);
                         Ruta_error := path it;
                         Error_texto := msg |} :: nulos_detalle,
                      consultas)
            end
        end
  end.

(** The loop over the months and the two tables written at the end;
    [None] when the run was cancelled and nothing is written. *)
Fixpoint listar_meses (cancel_event : option nat)
    (meses : list (string * list item)) (consulta : nat)
  : option (list registro * list error_lectura) :=
  match meses with
  | [] => Some ([], [])
  | (mes, archivos) :: resto =>
      if is_set cancel_event consulta then None
      else
        match listar_archivos cancel_event mes archivos (S consulta) with
        | None => None
        | Some (historico_data, nulos_detalle, consultas) =>
            match listar_meses cancel_event resto consultas with
            | None => None
            | Some (h, n) => Some (historico_data ++ h, nulos_detalle ++ n)
            end
        end
  end.

Definition procesar_carpeta_base (cancel_event : option nat)
    (listado : list entrada) (expandir : string -> list item)
  : option (list registro * list error_lectura) :=
  listar_meses cancel_event
    (map (fun m => (m, expandir m)) (buscar_carpetas_mes listado)) 0.

End Lista.

(** ** The tar branch of [extraer_archivo] *)

Module Comprimidos.
Import Texto Sanitizador.

(** A member of a tar archive: its name, whether it is a regular file, and
    what [t.extractfile(member)] returns for it. *)
Record TarInfo := {
  name : string;
  isreg : bool;
  extractfile : option string
}.

Section Extraccion.

Variable os_path_join : string -> string -> string.
Variable exito : list operacion -> operacion -> bool.
Variable existe : string -> bool.

(** The loop over [t.getmembers()], after the operations [hechas]: the
    operations attempted and the list [extraidos], or [None] in its place
    when an operation fails.  The sanitized name is not tested for being
    empty. *)
Fixpoint bucle_tar (dest_dir : string) (hechas : list operacion)
    (miembros : list TarInfo) : list operacion * option (list string) :=
  match miembros with
  | [] => ([], Some [])
  | member :: resto =>
      if negb (isreg member) then bucle_tar dest_dir hechas resto
      else
        let safe_name := _sanitize_zipinfo_name (name member) in
        let target_path := os_path_join dest_dir safe_name in
        let op1 := CrearCarpetaPadre target_path in
        if negb (exito hechas op1) then ([op1], None)
        else
          match extractfile member with
          | None =>
              let '(ops, extraidos) :=
                bucle_tar dest_dir (hechas ++ [op1]) resto in
              (op1 :: ops, extraidos)
          | Some f =>
              let op2 := EscribirArchivo target_path f in
              if negb (exito (hechas ++ [op1]) op2) then ([op1; op2], None)
              else
                let '(ops, extraidos) :=
                  bucle_tar dest_dir (hechas ++ [op1; op2]) resto in
                (op1 :: op2 :: ops, option_map (cons target_path) extraidos)
          end
  end.

(** The tar branch of [extraer_archivo] with its last line. *)
Definition extraer_tar (dest_dir : string) (miembros : list TarInfo)
  : list operacion * option (list string) :=
  let '(ops, extraidos) := bucle_tar dest_dir [] miembros in
  (ops, option_map (filter existe) extraidos).

End Extraccion.

(** A file system on which a write at the path of a folder fails. *)
Definition falla_escribir_en (carpeta : string) (hechas : list operacion)
    (op : operacion) : bool :=
  match op with
  | EscribirArchivo t _ => negb (t =? carpeta)
  | _ => true
  end.

(** The members of a zip archive that give a descriptor. *)
Definition da_descriptor (m : ZipInfo) : bool :=
  entrada_no_vacia m && negb (is_dir m).

End Comprimidos.

(** ** Notions used to state facts about a run *)

Module Corridas.
Import Texto Carpetas Tendencia Lectura Worker.

(** The name by which the worker tells the files of a month apart. *)
Definition nombre_base (it : item) : string := basename (path it).

(** The expansion gave at least one file. *)
Definition tiene_archivos (exp : expansion) : bool :=
  match exp with
  | Expandido items =>
      match sin_duplicados [] items with
      | [] => false
      | _ => true
      end
  | DetenidoPorEspacio => false
  end.

(** A row of a summary without any comparison. *)
Definition sin_comparar (t : fila_tendencia) : Prop :=
  fila_mes_anterior t = None
  /\ vs_anterior_filas t = sin_comparacion
  /\ vs_historico_filas t = sin_comparacion
  /\ vs_anterior_peso t = sin_comparacion
  /\ vs_historico_peso t = sin_comparacion.

(** The consecutive numbers [c, c + 1, ...], [n] of them. *)
Fixpoint numeros_desde (c : Z) (n : nat) : list Z :=
  match n with
  | O => []
  | S k => c :: numeros_desde (c + 1) k
  end.

(** The polls that a run of the listing application makes when it is not
    cancelled: one per month and one per file. *)
Fixpoint consultas_de (meses : list (string * list item)) : nat :=
  match meses with
  | [] => 0
  | (_, archivos) :: resto => S (List.length archivos + consultas_de resto)
  end.


(** The files of a month after the duplicates are removed. *)
Definition archivos_de (exp : expansion) : list item :=
  match exp with
  | Expandido items => sin_duplicados [] items
  | DetenidoPorEspacio => []
  end.

(** What a summary shows of a month: its folder and how many rows. *)
Definition mes_y_filas (s : salida_mes) : string * nat :=
  (mes_salida s, List.length (resumen s)).

(** The ledger holds for each month with rows in its summary exactly the
    rows of the summary. *)
Definition registrado (h : list fila_historico) (ss : list salida_mes) : Prop :=
  forall s, In s ss -> resumen s <> [] ->
    filter (es_del_mes (mes_salida s)) h = map a_historico (resumen s).

(** The tag of the row is not a folder name as text: it is a number or is
    missing, as in rows read back from a stored ledger. *)
Definition sin_etiqueta_de_texto (f : fila_historico) : bool :=
  match mes_de_fila f with
  | Texto _ => false
  | Entero _ | Nulo => true
  end.

(** An expansion for the examples: January has a file, and the disk is
    full when the archives of any other month are unpacked. *)
Definition expandir_sin_espacio (mes : string) : expansion :=
  if mes =? "012024" then Expandido [ventas_csv] else DetenidoPorEspacio.

End Corridas.

(** ** Archive names and the cleaning of temporary folders *)

Module Utilidades.
Import Texto Sanitizador Lectura.

Definition ARCHIVE_EXT : list string :=
  [".zip"; ".tar"; ".tar.gz"; ".tgz"; ".gz"; ".bz2"; ".7z"].

(** [is_archive_path(path)]. *)
Definition is_archive_path (path : string) : bool :=
  let ln := lower path in
  existsb (fun a => endswith_str a ln) ARCHIVE_EXT.

(** [is_csv_gz(path)]. *)
Definition is_csv_gz (path : string) : bool :=
  let name := lower (basename path) in
  endswith_str ".csv.gz" name || endswith_str ".csv.bz2" name
  || endswith_str ".csv.xz" name.

(** An entry of [os.listdir(temp_root)] with what the function asks of it:
    whether it is a directory and its modification time. *)
Record subentrada := {
  nombre_sub : string;
  isdir_sub : bool;
  getmtime : Q
}.

(** [carpetas.sort(key=os.path.getmtime, reverse=True)]: descending, and
    entries with the same time keep their order. *)
Fixpoint insertar_reciente (x : subentrada) (l : list subentrada)
  : list subentrada :=
  match l with
  | [] => [x]
  | y :: r =>
      if Qle_bool (getmtime y) (getmtime x) then x :: l
      else y :: insertar_reciente x r
  end.

Definition ordenar_recientes (l : list subentrada) : list subentrada :=
  fold_right insertar_reciente [] l.

(** The order of the sorted list: [x] may stand before [y]. *)
Definition mas_reciente (x y : subentrada) : Prop :=
  (getmtime y <= getmtime x)%Q.

Definition ruta_sub (temp_root : string) (d : subentrada) : string :=
  path_join temp_root (nombre_sub d).

(** [limpiar_temp_antiguos(temp_root)]: the folders that it removes.
    [existe] is [os.path.exists(temp_root)]. *)
Definition limpiar_temp_antiguos (temp_root : string) (existe : bool)
    (listado : list subentrada) : list string :=
  if negb existe then []
  else
    let carpetas := filter isdir_sub listado in
    match ordenar_recientes carpetas with
    | [] => []
    | _ :: resto => map (ruta_sub temp_root) resto
    end.

End Utilidades.

(** * Part II: properties *)

(** ** Facts about [split] and [join] *)

Module TextoProps.
Import Texto.

Lemma split_no_vacio sep s : split sep s <> [].
Proof.
  destruct s as [|c r]; simpl; [discriminate|].
  destruct (Ascii.eqb c sep); [discriminate|].
  destruct (split sep r); discriminate.
Qed.

Lemma split_sin_sep sep s p :
  In p (split sep s) -> contiene sep p = false.
Proof.
  revert p; induction s as [|c r IH]; simpl; intros p Hp.
  - destruct Hp as [<-|[]]; reflexivity.
  - destruct (Ascii.eqb c sep) eqn:E.
    + destruct Hp as [<-|Hp]; [reflexivity|auto].
    + destruct (split sep r) as [|q qs] eqn:Eq.
      * destruct Hp as [<-|[]]; simpl; now rewrite E.
      * destruct Hp as [<-|Hp].
        -- simpl; rewrite E; simpl; apply IH; now left.
        -- apply IH; now right.
Qed.

Lemma split_sin_sep_id sep s :
  contiene sep s = false -> split sep s = [s].
Proof.
  induction s as [|c r IH]; simpl; intros H; [reflexivity|].
  apply orb_false_iff in H as [Hc Hr].
  rewrite Hc, (IH Hr); reflexivity.
Qed.

Lemma split_app sep a b :
  contiene sep a = false ->
  split sep (a ++ String sep b) = a :: split sep b.
Proof.
  induction a as [|c r IH]; simpl; intros H.
  - now rewrite Ascii.eqb_refl.
  - apply orb_false_iff in H as [Hc Hr].
    rewrite Hc, (IH Hr); reflexivity.
Qed.

(** Splitting a joined list of separator-free parts gives the parts back. *)
Lemma split_join sep parts :
  parts <> [] ->
  (forall p, In p parts -> contiene sep p = false) ->
  split sep (join sep parts) = parts.
Proof.
  induction parts as [|p ps IH]; intros Hne Hall; [congruence|].
  destruct ps as [|q qs].
  - simpl; apply split_sin_sep_id, Hall; now left.
  - change (join sep (p :: q :: qs)) with (p ++ String sep (join sep (q :: qs)))%string.
    rewrite split_app by (apply Hall; now left).
    f_equal; apply IH; [discriminate|].
    intros r Hr; apply Hall; now right.
Qed.

(** Splitting distributes over a separator between two strings. *)
Lemma split_concat sep a b :
  split sep (a ++ String sep b) = split sep a ++ split sep b.
Proof.
  induction a as [|c r IH]; simpl.
  - now rewrite Ascii.eqb_refl.
  - destruct (Ascii.eqb c sep); [now rewrite IH|].
    rewrite IH.
    destruct (split sep r) as [|p ps] eqn:E; [|reflexivity].
    now apply split_no_vacio in E.
Qed.

Lemma replace_sin_viejo viejo nuevo s :
  viejo <> nuevo -> contiene viejo (replace viejo nuevo s) = false.
Proof.
  intros Hd; induction s as [|c r IH]; simpl; [reflexivity|].
  rewrite IH, orb_false_r.
  destruct (Ascii.eqb c viejo) eqn:E; [|exact E].
  apply Ascii.eqb_neq; congruence.
Qed.

Lemma contiene_app c a b :
  contiene c (a ++ b) = contiene c a || contiene c b.
Proof.
  induction a as [|d r IH]; simpl; [reflexivity|].
  now rewrite IH, orb_assoc.
Qed.

Lemma contiene_join c sep parts :
  c <> sep ->
  (forall p, In p parts -> contiene c p = false) ->
  contiene c (join sep parts) = false.
Proof.
  intros Hd; induction parts as [|p ps IH]; intros Hall; [reflexivity|].
  destruct ps as [|q qs]; [apply Hall; now left|].
  change (join sep (p :: q :: qs)) with (p ++ String sep (join sep (q :: qs)))%string.
  rewrite contiene_app; cbn [contiene].
  rewrite (Hall p) by now left.
  rewrite IH by (intros r Hr; apply Hall; now right).
  rewrite orb_false_r; cbn [orb].
  apply Ascii.eqb_neq; congruence.
Qed.

Lemma contiene_lstrip c d s :
  contiene c s = false -> contiene c (lstrip d s) = false.
Proof.
  induction s as [|e r IH]; simpl; intros H; [reflexivity|].
  apply orb_false_iff in H as [He Hr].
  destruct (Ascii.eqb e d); [auto|].
  simpl; now rewrite He, Hr.
Qed.

Lemma contiene_split c sep s p :
  contiene c s = false -> In p (split sep s) -> contiene c p = false.
Proof.
  revert p; induction s as [|e r IH]; simpl; intros p H Hp.
  - destruct Hp as [<-|[]]; reflexivity.
  - apply orb_false_iff in H as [He Hr].
    destruct (Ascii.eqb e sep).
    + destruct Hp as [<-|Hp]; [reflexivity|auto].
    + destruct (split sep r) as [|q qs] eqn:Eq.
      * destruct Hp as [<-|[]]; simpl; now rewrite He.
      * destruct Hp as [<-|Hp].
        -- simpl; rewrite He; simpl; apply IH; [exact Hr|now left].
        -- apply IH; [exact Hr|now right].
Qed.


End TextoProps.

(** ** The sanitizer confines every entry under the destination *)

Module SanitizadorProps.
Import Texto TextoProps Sanitizador.
Example sanitize_relativo :
  _sanitize_zipinfo_name "../../etc/evil" = "etc/evil".
Proof. reflexivity. Qed.

Example sanitize_absoluto :
  _sanitize_zipinfo_name "/abs/path/x" = "abs/path/x".
Proof. reflexivity. Qed.

Example sanitize_windows :
  _sanitize_zipinfo_name "..\..\a\.\b" = "a/./b".
Proof. reflexivity. Qed.

Example sanitize_vacio : _sanitize_zipinfo_name "/../" = "".
Proof. reflexivity. Qed.

Lemma sanitize_partes name :
  _sanitize_zipinfo_name name = join barra (partes name).
Proof. reflexivity. Qed.

Lemma barra_contrabarra : contrabarra <> barra.
Proof. discriminate. Qed.

Lemma partes_ok name p :
  In p (partes name) ->
  p <> "" /\ p <> ".." /\ contiene barra p = false
  /\ contiene contrabarra p = false.
Proof.
  unfold partes; intros H.
  apply filter_In in H as [Hin Hs].
  unfold es_parte_segura in Hs.
  apply andb_true_iff in Hs as [H1 H2].
  apply negb_true_iff, String.eqb_neq in H1.
  apply negb_true_iff, String.eqb_neq in H2.
  repeat split; auto.
  - eapply split_sin_sep; eauto.
  - eapply contiene_split; [|exact Hin].
    pose proof (replace_sin_viejo contrabarra barra name barra_contrabarra).
    destruct (startswith barra _); [apply contiene_lstrip|]; assumption.
Qed.

Lemma split_sanitize name :
  split barra (_sanitize_zipinfo_name name)
  = match partes name with [] => [""] | ps => ps end.
Proof.
  rewrite sanitize_partes.
  destruct (partes name) as [|p ps] eqn:E; [reflexivity|].
  apply split_join; [discriminate|].
  intros q Hq; rewrite <- E in Hq; now apply partes_ok in Hq.
Qed.

Lemma startswith_join c p ps :
  p <> "" -> startswith c (join barra (p :: ps)) = startswith c p.
Proof.
  intros Hp; destruct ps; [reflexivity|].
  change (join barra (p :: s :: ps))
    with (p ++ String barra (join barra (s :: ps)))%string.
  destruct p; [congruence|reflexivity].
Qed.

Lemma startswith_contiene c s :
  contiene c s = false -> startswith c s = false.
Proof.
  destruct s; simpl; [reflexivity|].
  intros H; now apply orb_false_iff in H.
Qed.

Lemma sanitize_sin_inicio c name :
  c = barra \/ c = contrabarra ->
  startswith c (_sanitize_zipinfo_name name) = false.
Proof.
  intros Hc; rewrite sanitize_partes.
  destruct (partes name) as [|p ps] eqn:E; [reflexivity|].
  assert (Hp : In p (partes name)) by (rewrite E; now left).
  apply partes_ok in Hp as (Hne & _ & Hb & Hcb).
  rewrite startswith_join by assumption.
  apply startswith_contiene; destruct Hc; subst; assumption.
Qed.

Lemma sanitize_sin_contrabarra name :
  contiene contrabarra (_sanitize_zipinfo_name name) = false.
Proof.
  rewrite sanitize_partes; apply contiene_join; [apply barra_contrabarra|].
  intros p Hp; now apply partes_ok in Hp.
Qed.

Lemma sanitize_sin_subidas name :
  existsb (String.eqb "..") (split barra (_sanitize_zipinfo_name name)) = false.
Proof.
  rewrite split_sanitize.
  destruct (partes name) as [|p ps] eqn:E; [reflexivity|].
  rewrite <- E.
  destruct (existsb _ _) eqn:Ex; [|reflexivity].
  apply existsb_exists in Ex as (q & Hq & Heq).
  apply String.eqb_eq in Heq; subst q.
  apply partes_ok in Hq as (_ & Hq & _); congruence.
Qed.

(** *** Resolution of a joined path *)
Lemma resolver_app absoluta pila a b :
  resolver absoluta pila (a ++ b)
  = resolver absoluta (rev (resolver absoluta pila a)) b.
Proof.
  revert pila; induction a as [|c cs IH]; intros pila; simpl.
  - now rewrite rev_involutive.
  - destruct ((c =? "") || (c =? ".")); [apply IH|].
    destruct (c =? "..").
    + destruct pila as [|t resto].
      * destruct absoluta; apply IH.
      * destruct (t =? ".."); apply IH.
    + apply IH.
Qed.

Lemma resolver_sin_subidas absoluta pila q :
  existsb (String.eqb "..") q = false ->
  exists resto, resolver absoluta pila q = rev pila ++ resto.
Proof.
  revert pila; induction q as [|c cs IH]; intros pila H;
    cbn [existsb resolver] in *.
  - exists []; now rewrite app_nil_r.
  - apply orb_false_iff in H as [Hc Hcs].
    rewrite String.eqb_sym in Hc; rewrite Hc.
    destruct ((c =? "") || (c =? ".")); [now apply IH|].
    destruct (IH (c :: pila) Hcs) as [resto Hr].
    exists (c :: resto); rewrite Hr; simpl.
    now rewrite <- app_assoc.
Qed.

Lemma endswith_app s :
  endswith barra s = true -> exists r, s = (r ++ String barra "")%string.
Proof.
  induction s as [|c r IH]; simpl; [discriminate|].
  destruct r as [|d r'].
  - intros H; apply Ascii.eqb_eq in H; subst; now exists "".
  - intros H; destruct (IH H) as [x Hx]; exists (String c x).
    simpl; now rewrite <- Hx.
Qed.

Lemma startswith_app c a b :
  a <> "" -> startswith c (a ++ b) = startswith c a.
Proof. destruct a; [congruence|reflexivity]. Qed.

Lemma app_assoc_barra r b :
  ((r ++ String barra "") ++ b)%string = (r ++ String barra b)%string.
Proof. induction r; simpl; [reflexivity|now rewrite IHr]. Qed.

Lemma startswith_barra_igual c r b b' :
  startswith c (r ++ String barra b) = startswith c (r ++ String barra b').
Proof. destruct r; reflexivity. Qed.

Lemma resolver_concat absoluta r safe :
  existsb (String.eqb "..") (split barra safe) = false ->
  exists resto,
    resolver absoluta [] (split barra (r ++ String barra safe))
    = resolver absoluta [] (split barra r) ++ resto.
Proof.
  intros Hsub; rewrite split_concat, resolver_app.
  destruct (resolver_sin_subidas absoluta
              (rev (resolver absoluta [] (split barra r)))
              (split barra safe) Hsub) as [resto Hres].
  exists resto; now rewrite Hres, rev_involutive.
Qed.

Lemma resolver_barra_final absoluta r :
  resolver absoluta [] (split barra (r ++ String barra ""))
  = resolver absoluta [] (split barra r).
Proof.
  rewrite split_concat, resolver_app; simpl; apply rev_involutive.
Qed.

Lemma join_confinado dest safe :
  startswith barra safe = false ->
  existsb (String.eqb "..") (split barra safe) = false ->
  exists resto,
    normpath_comps (path_join dest safe) = normpath_comps dest ++ resto.
Proof.
  intros Hs Hsub; unfold path_join, normpath_comps; rewrite Hs.
  destruct (dest =? "") eqn:Ed; simpl.
  - apply String.eqb_eq in Ed; subst dest; simpl.
    rewrite Hs; eexists; reflexivity.
  - destruct (endswith barra dest) eqn:Ee.
    + destruct (endswith_app _ Ee) as [r Hr]; subst dest.
      rewrite app_assoc_barra, resolver_barra_final.
      rewrite (startswith_barra_igual barra r safe "").
      now apply resolver_concat.
    + apply String.eqb_neq in Ed.
      rewrite startswith_app by assumption.
      now apply resolver_concat.
Qed.

Lemma sanitize_confinado dest name :
  exists resto,
    normpath_comps (path_join dest (_sanitize_zipinfo_name name))
    = normpath_comps dest ++ resto.
Proof.
  apply join_confinado;
    [apply sanitize_sin_inicio; now left|apply sanitize_sin_subidas].
Qed.

Lemma bucle_zip_filtra os_path_join exito dest miembros :
  forall hechas,
    bucle_zip os_path_join exito dest hechas miembros
    = bucle_zip os_path_join exito dest hechas
        (filter entrada_no_vacia miembros).
Proof.
  induction miembros as [|m ms IH]; intros hechas; [reflexivity|].
  cbn [bucle_zip filter]; unfold entrada_no_vacia at 1.
  destruct (_sanitize_zipinfo_name (filename m) =? "") eqn:E; cbn [negb].
  - apply IH.
  - cbn [bucle_zip]; rewrite E.
    destruct (negb (exito hechas _)); [reflexivity|].
    destruct (negb (exito (hechas ++ _) _)); [reflexivity|].
    now rewrite IH.
Qed.

Lemma bucle_zip_confinado exito dest miembros :
  forall hechas,
    Forall (fun op => exists resto,
                normpath_comps (ruta_de op) = normpath_comps dest ++ resto)
           (fst (bucle_zip path_join exito dest hechas miembros)).
Proof.
  induction miembros as [|m ms IH]; intros hechas; cbn [bucle_zip];
    [constructor|].
  destruct (_ =? ""); [apply IH|].
  destruct (negb (exito hechas _));
    [cbn [fst]; constructor; [apply sanitize_confinado|constructor]|].
  destruct (negb (exito (hechas ++ _) _)).
  - cbn [fst]; constructor; [apply sanitize_confinado|].
    constructor; [|constructor].
    destruct (is_dir m); apply sanitize_confinado.
  - specialize (IH (hechas
                    ++ [CrearCarpetaPadre
                          (path_join dest (_sanitize_zipinfo_name (filename m)));
                        if is_dir m
                        then CrearCarpeta
                               (path_join dest
                                  (_sanitize_zipinfo_name (filename m)))
                        else EscribirArchivo
                               (path_join dest
                                  (_sanitize_zipinfo_name (filename m)))
                               (datos m)])).
    destruct (bucle_zip path_join exito dest _ ms) as [ops ex]; cbn [fst] in *.
    constructor; [apply sanitize_confinado|].
    constructor; [destruct (is_dir m); apply sanitize_confinado|exact IH].
Qed.

(** Where [os.path.join] is [posixpath.join] the sanitized name starts
    with neither separator, contains no backslash and has no [..] segment;
    joined under any destination root it resolves to the root's components
    followed by further ones, so that every operation of the zip
    extraction stays under the root; and members that sanitize to the
    empty string leave the extraction unchanged. *)
Lemma sanitize_zipinfo_name_posix :
  forall (name dest_dir : string) (miembros : list ZipInfo)
         (exito : list operacion -> operacion -> bool)
         (existe : string -> bool),
    startswith barra (_sanitize_zipinfo_name name) = false
    /\ startswith contrabarra (_sanitize_zipinfo_name name) = false
    /\ contiene contrabarra (_sanitize_zipinfo_name name) = false
    /\ existsb (String.eqb "..")
         (split barra (_sanitize_zipinfo_name name)) = false
    /\ (exists resto,
          normpath_comps (path_join dest_dir (_sanitize_zipinfo_name name))
          = normpath_comps dest_dir ++ resto)
    /\ extraer_zip path_join exito existe dest_dir miembros
       = extraer_zip path_join exito existe dest_dir
           (filter entrada_no_vacia miembros)
    /\ Forall (fun op => exists resto,
                 normpath_comps (ruta_de op)
                 = normpath_comps dest_dir ++ resto)
              (fst (extraer_zip path_join exito existe dest_dir miembros)).
Proof.
  intros name dest_dir miembros exito existe.
  split; [apply sanitize_sin_inicio; now left|].
  split; [apply sanitize_sin_inicio; now right|].
  split; [apply sanitize_sin_contrabarra|].
  split; [apply sanitize_sin_subidas|].
  split; [apply sanitize_confinado|].
  unfold extraer_zip; split.
  - now rewrite bucle_zip_filtra.
  - pose proof (bucle_zip_confinado exito dest_dir miembros []) as H.
    now destruct (bucle_zip path_join exito dest_dir [] miembros).
Qed.

(** C4.  On Windows, where [os.path.join] is [ntpath.join], the entry name
    [C:\Windows\evil.txt] leaves the sanitizer as [C:/Windows/evil.txt]:
    it starts with no separator and has no [..] segment, and it keeps its
    drive.  Joined under any destination root it is that very path,
    whatever the root, and the zip branch creates its folder and writes the
    member there. *)
Theorem sanitize_zipinfo_name_conserva_la_unidad :
  forall (dest_dir contenido : string)
         (exito : list operacion -> operacion -> bool)
         (existe : string -> bool),
    _sanitize_zipinfo_name "C:\Windows\evil.txt" = "C:/Windows/evil.txt"
    /\ startswith barra "C:/Windows/evil.txt" = false
    /\ existsb (String.eqb "..") (split barra "C:/Windows/evil.txt") = false
    /\ ntpath_join dest_dir (_sanitize_zipinfo_name "C:\Windows\evil.txt")
       = "C:/Windows/evil.txt"
    /\ ntpath_join "C:\Users\ana\Desktop\cmf_temp\012024_1\extract_1"
         (_sanitize_zipinfo_name "..\ok.txt")
       = "C:\Users\ana\Desktop\cmf_temp\012024_1\extract_1\ok.txt"
    /\ hd_error
         (fst (extraer_zip ntpath_join exito existe dest_dir
                 [{| filename := "C:\Windows\evil.txt";
                     datos := contenido |}]))
       = Some (CrearCarpetaPadre "C:/Windows/evil.txt")
    /\ extraer_zip ntpath_join siempre existe dest_dir
         [{| filename := "C:\Windows\evil.txt"; datos := contenido |}]
       = ([CrearCarpetaPadre "C:/Windows/evil.txt";
           EscribirArchivo "C:/Windows/evil.txt" contenido],
          Some (filter existe ["C:/Windows/evil.txt"])).
Proof.
  intros dest_dir contenido exito existe.
  assert (Hs : _sanitize_zipinfo_name "C:\Windows\evil.txt"
               = "C:/Windows/evil.txt") by reflexivity.
  assert (Hj : ntpath_join dest_dir "C:/Windows/evil.txt"
               = "C:/Windows/evil.txt").
  { unfold ntpath_join.
    destruct (splitdrive dest_dir) as [result_drive result_path].
    cbn; reflexivity. }
  split; [exact Hs|].
  split; [reflexivity|]; split; [reflexivity|].
  split; [now rewrite Hs|].
  split; [reflexivity|].
  unfold extraer_zip; cbn [bucle_zip filename]; rewrite Hs, Hj.
  cbn [String.eqb Ascii.eqb Bool.eqb is_dir endswith datos].
  split.
  - destruct (negb (exito [] _)); [reflexivity|].
    destruct (negb (exito _ _)); reflexivity.
  - reflexivity.
Qed.

End SanitizadorProps.

(** ** What the period scanner returns *)

Module CarpetasProps.
Import Texto Carpetas.
Example extraer_mes_anio_ok : extraer_mes_anio "122024" = "12/2024".
Proof. reflexivity. Qed.

Example buscar_filtra :
  buscar_carpetas_mes
    [carpeta "032024"; suelto "012024"; carpeta "resumen_generado";
     carpeta "0120245"; carpeta "01a024"; carpeta "022024"]
  = ["022024"; "032024"].
Proof. reflexivity. Qed.

Lemma insertar_perm x l : Permutation (x :: l) (insertar x l).
Proof.
  induction l as [|y r IH]; simpl; [reflexivity|].
  destruct (String.leb x y); [reflexivity|].
  rewrite perm_swap; now constructor.
Qed.

Lemma ordenar_perm l : Permutation l (ordenar l).
Proof.
  induction l as [|x r IH]; simpl; [constructor|].
  rewrite <- insertar_perm; now constructor.
Qed.

Lemma insertar_ordenado x l :
  Sorted leb_prop l -> Sorted leb_prop (insertar x l).
Proof.
  induction 1 as [|y r Hs IH Hd]; simpl; [repeat constructor|].
  destruct (String.leb x y) eqn:E.
  - constructor; [now constructor|now constructor].
  - constructor; [exact IH|].
    assert (Hyx : leb_prop y x).
    { destruct (String.leb_total x y) as [H|H]; [congruence|exact H]. }
    destruct r as [|z r']; simpl; [now constructor|].
    destruct (String.leb x z); constructor; [exact Hyx|now inversion Hd].
Qed.

Lemma ordenar_ordenado l : Sorted leb_prop (ordenar l).
Proof.
  induction l as [|x r IH]; simpl; [constructor|now apply insertar_ordenado].
Qed.

(** The scanner returns the names of the sub-directories that are six
    digits long, each as often as it is listed, in ascending
    lexicographic order. *)
Lemma buscar_carpetas_mes_filtra_y_ordena listado :
  Permutation (map nombre (filter es_carpeta_mes listado))
              (buscar_carpetas_mes listado)
  /\ Sorted leb_prop (buscar_carpetas_mes listado)
  /\ forall n, In n (buscar_carpetas_mes listado) <->
               exists e, In e listado /\ nombre e = n /\ es_directorio e = true
                         /\ String.length n = 6%nat /\ isdigit n = true.
Proof.
  split; [apply ordenar_perm|].
  split; [apply ordenar_ordenado|].
  intros n; unfold buscar_carpetas_mes; split.
  - intros H.
    apply (Permutation_in _ (Permutation_sym (ordenar_perm _))) in H.
    apply in_map_iff in H as (e & He & Hin).
    apply filter_In in Hin as [Hin Hf]; unfold es_carpeta_mes in Hf.
    apply andb_true_iff in Hf as [Hf Hd].
    apply andb_true_iff in Hf as [Hdir Hl].
    apply Nat.eqb_eq in Hl; subst n.
    exists e; repeat split; assumption.
  - intros (e & Hin & Hn & Hdir & Hl & Hd).
    apply (Permutation_in _ (ordenar_perm _)).
    apply in_map_iff; exists e; split; [exact Hn|].
    apply filter_In; split; [exact Hin|].
    unfold es_carpeta_mes; subst n.
    now rewrite Hdir, Hl, Hd.
Qed.

(** C8. On a base directory that holds December 2024 and January 2025 the
    scanner returns the January folder first: the ascending order of the
    tokens puts the month before the year, so it is not the calendar
    order that the worker relies on when it takes the preceding element as
    the previous month. *)
Theorem buscar_carpetas_mes_orden_no_cronologico :
  buscar_carpetas_mes [carpeta "122024"; carpeta "012025"]
  = ["012025"; "122024"]
  /\ cronologico (buscar_carpetas_mes [carpeta "122024"; carpeta "012025"])
     = false
  /\ anterior_o_igual "122024" "012025" = true.
Proof. repeat split. Qed.


Lemma nodup_filtrado {A B} (g : A -> B) (f : A -> bool) l :
  NoDup (map g l) -> NoDup (map g (filter f l)).
Proof.
  induction l as [|x l IH]; intros H; [constructor|].
  inversion H as [|? ? Hx Hl]; subst; cbn [filter].
  destruct (f x); [|now apply IH].
  cbn [map]; constructor; [|now apply IH].
  intros Hin; apply Hx.
  apply in_map_iff in Hin as (y & Hy & Hin).
  apply filter_In in Hin as [Hin _].
  apply in_map_iff; eauto.
Qed.

Lemma buscar_carpetas_mes_nodup listado :
  NoDup (map nombre listado) -> NoDup (buscar_carpetas_mes listado).
Proof.
  intros H; unfold buscar_carpetas_mes.
  apply (Permutation_NoDup (ordenar_perm _)).
  now apply nodup_filtrado.
Qed.

End CarpetasProps.

(** ** Trend classification *)

Module TendenciaProps.
Import Tendencia.

Open Scope Q_scope.

Lemma Qlt_bool_iff a b : Qlt_bool a b = true <-> a < b.
Proof.
  unfold Qlt_bool; rewrite negb_true_iff.
  split; intros H.
  - apply Qnot_le_lt; intros Hle.
    apply Qle_bool_iff in Hle; congruence.
  - destruct (Qle_bool b a) eqn:E; [|reflexivity].
    apply Qle_bool_iff in E; exfalso; eapply Qlt_not_le; eauto.
Qed.

Lemma Qlt_bool_false a b : Qlt_bool a b = false <-> b <= a.
Proof.
  unfold Qlt_bool; rewrite negb_false_iff; apply Qle_bool_iff.
Qed.

Example clasificar_5 : clasificar_tendencia 5 (Some 100) (Some 100) 10 = CambioLeve.
Proof. reflexivity. Qed.
Example clasificar_25 :
  clasificar_tendencia 25 (Some 100) (Some 100) 10 = CambioModerado.
Proof. reflexivity. Qed.
Example clasificar_45 : clasificar_tendencia (-45) (Some 100) (Some 100) 10 = CambioAlto.
Proof. reflexivity. Qed.
Example clasificar_75 :
  clasificar_tendencia 75 (Some 100) (Some 100) 10 = CambioCritico.
Proof. reflexivity. Qed.

Example round_2_mitad : round_2 (1 # 8) == 12 # 100.
Proof. reflexivity. Qed.
Example round_2_tercio : round_2 (-(100 # 3)) == -(3333 # 100).
Proof. reflexivity. Qed.

#[global] Instance redondeo_par_comp : Proper (Qeq ==> eq) redondeo_par.
Proof.
  intros x y Hxy; unfold redondeo_par.
  rewrite (Qfloor_comp _ _ Hxy).
  assert (H : x - inject_Z (Qfloor y) == y - inject_Z (Qfloor y))
    by now rewrite Hxy.
  now rewrite (Qcompare_comp _ _ H _ _ (Qeq_refl (1 # 2))).
Qed.

#[global] Instance round_2_comp : Proper (Qeq ==> eq) round_2.
Proof.
  intros x y Hxy; unfold round_2.
  assert (H : x * 100 == y * 100) by now rewrite Hxy.
  now rewrite (redondeo_par_comp _ _ H).
Qed.

Lemma porcentaje_forma ant actual :
  ~ ant == 0 -> ((actual - ant) / ant) * 100 == 100 * (actual - ant) / ant.
Proof. intros H; field; exact H. Qed.

Lemma clasificar_sobre_umbral pct a b umbral :
  umbral <= a -> umbral <= b ->
  clasificar_tendencia pct (Some a) (Some b) umbral = por_porcentaje pct.
Proof.
  intros Ha Hb; unfold clasificar_tendencia, menor_que_umbral.
  apply Qlt_bool_false in Ha, Hb; rewrite Ha, Hb; reflexivity.
Qed.


Lemma Qeq_bool_no_cero q : ~ q == 0 -> Qeq_bool q 0 = false.
Proof.
  intros H; destruct (Qeq_bool q 0) eqn:E; [|reflexivity].
  apply Qeq_bool_iff in E; contradiction.
Qed.


Lemma tendencia_vs_anterior_calculada actual ant umbral :
  ~ ant == 0 ->
  Qlt_bool ant 10 && Qlt_bool actual 10 = false ->
  tendencia_vs_anterior actual (Some ant) umbral
  = (Some (round_2 (100 * (actual - ant) / ant)),
     clasificar_tendencia (round_2 (100 * (actual - ant) / ant))
       (Some actual) (Some ant) umbral).
Proof.
  intros Hz Hp; unfold tendencia_vs_anterior.
  rewrite (Qeq_bool_no_cero _ Hz), Hp.
  now rewrite (round_2_comp _ _ (porcentaje_forma ant actual Hz)).
Qed.

(** With a floor of at least 10 the previous-month comparison computes the
    rounded percentage and buckets it by its absolute value whenever both
    values reach the floor. *)
Lemma tendencia_vs_anterior_sobre_umbral actual ant umbral :
  10 <= umbral -> ~ ant == 0 -> umbral <= actual -> umbral <= ant ->
  tendencia_vs_anterior actual (Some ant) umbral
  = (Some (round_2 (100 * (actual - ant) / ant)),
     por_porcentaje (round_2 (100 * (actual - ant) / ant))).
Proof.
  intros Hu Hz Ha Hb.
  rewrite tendencia_vs_anterior_calculada; [|exact Hz|].
  - now rewrite clasificar_sobre_umbral.
  - apply andb_false_iff; left; apply Qlt_bool_false.
    eapply Qle_trans; eauto.
Qed.

(** The comparison with the historical mean does so for every floor. *)
Lemma tendencia_vs_historico_sobre_umbral actual promedio umbral :
  ~ promedio == 0 -> umbral <= actual -> umbral <= promedio ->
  tendencia_vs_historico actual (Some promedio) umbral
  = (Some (round_2 (100 * (actual - promedio) / promedio)),
     por_porcentaje (round_2 (100 * (actual - promedio) / promedio))).
Proof.
  intros Hz Ha Hb; unfold tendencia_vs_historico.
  rewrite (Qeq_bool_no_cero _ Hz).
  rewrite (round_2_comp _ _ (porcentaje_forma promedio actual Hz)).
  now rewrite clasificar_sobre_umbral.
Qed.




(** C7.  With the floor set to 5, a current value of 7 and a reference of
    8 reach the floor and the reference is not zero, yet the previous-month
    comparison returns a null percentage and the slight bucket; the rounded
    percentage is -12.5, which the classifier puts in the moderate bucket. *)
Theorem tendencia_vs_anterior_umbral_5 :
  5 <= 7 /\ 5 <= 8 /\ ~ 8 == 0
  /\ tendencia_vs_anterior 7 (Some 8) 5 = (None, CambioLeve)
  /\ round_2 (100 * (7 - 8) / 8) == -(25 # 2)
  /\ clasificar_tendencia (round_2 (100 * (7 - 8) / 8)) (Some 7) (Some 8) 5
     = CambioModerado
  /\ snd (tendencia_vs_historico 7 (Some 8) 5) = CambioModerado.
Proof.
  split; [discriminate|]; split; [discriminate|]; split; [discriminate|].
  repeat split.
Qed.

End TendenciaProps.

(** ** Row counts of delimited text on both sides of the streaming
    threshold *)

Module LecturaProps.
Import Texto TextoProps Lectura.

Lemma length_app_str a b :
  String.length (a ++ b) = (String.length a + String.length b)%nat.
Proof. induction a; simpl; [reflexivity|now rewrite IHa]. Qed.


Lemma app_nil_str a : (a ++ "")%string = a.
Proof. induction a; simpl; [reflexivity|now rewrite IHa]. Qed.

Lemma length_lineas_vacias n : String.length (lineas_vacias n) = n.
Proof. induction n; simpl; [reflexivity|now rewrite IHn]. Qed.


(** *** Lines seen by the fast mode *)



Lemma contar_lineas_vacias n :
  contar_lineas (lineas_vacias n) = Z.of_nat n.
Proof.
  unfold contar_lineas; induction n; [reflexivity|].
  cbn [lineas_vacias contar_lineas_desde]; rewrite Ascii.eqb_refl, IHn; lia.
Qed.

(** *** Lines seen by the parser *)


Lemma split_lineas_vacias n :
  split salto (lineas_vacias n) = repeat "" (S n).
Proof.
  induction n; [reflexivity|].
  cbn [lineas_vacias split]; rewrite Ascii.eqb_refl, IHn; reflexivity.
Qed.

Lemma filter_vacias sep n :
  filter (fun l => negb (es_linea_blanca sep l)) (repeat "" n) = [].
Proof. induction n; [reflexivity|exact IHn]. Qed.





(** *** The two branches of the reader *)

Lemma leer_modo_rapido a :
  es_delimitado a = true ->
  (umbral_streaming_bytes < getsize a)%Z ->
  leer_archivo_generico a = Ok (marco_filas (contar_lineas (contenido a) - 1)).
Proof.
  intros Hd Hs; unfold leer_archivo_generico; rewrite Hd.
  apply Z.ltb_lt in Hs; now rewrite Hs.
Qed.

Lemma leer_lectura_completa a :
  es_delimitado a = true ->
  (getsize a <= umbral_streaming_bytes)%Z ->
  leer_archivo_generico a
  = probar_codificaciones (ruta a) (contenido a) ["utf-8-sig"; "utf-8"; "latin1"].
Proof.
  intros Hd Hs; unfold leer_archivo_generico; rewrite Hd.
  apply Z.ltb_ge in Hs; now rewrite Hs.
Qed.

Lemma contar_marco_filas n : contar_filas_validas (marco_filas n) = Some n.
Proof. reflexivity. Qed.






(** *** Files on which both modes agree *)

Lemma filter_todas {A} (P : A -> bool) l :
  forallb P l = true -> filter P l = l.
Proof.
  induction l as [|x l IH]; simpl; [reflexivity|].
  intros H; apply andb_true_iff in H as [Hx Hl].
  now rewrite Hx, IH.
Qed.

















End LecturaProps.

(** ** The identity matcher and the ledger merge *)

Module WorkerProps.
Import Texto Carpetas Tendencia Lectura Worker.

Section Emparejador.

Variable ratio : string -> string -> Q.

Lemma ultimo_app {A} (l : list A) x : ultimo (l ++ [x]) = Some x.
Proof.
  induction l as [|y l IH]; [reflexivity|].
  simpl; rewrite IH; destruct (l ++ [x]) eqn:E; [|reflexivity].
  now destruct l.
Qed.

Lemma no_vacia_ultimo {A} (l : list A) :
  l <> [] -> exists antes x, l = antes ++ [x].
Proof.
  intros H; destruct (exists_last H) as (antes & x & E); eauto.
Qed.

Lemma cabeza_maxima (sim : fila_historico -> Q) l :
  match sort_values_desc sim l with
  | [] => l = []
  | f :: _ => In f l /\ Forall (fun g => (sim g <= sim f)%Q) l
  end.
Proof.
  induction l as [|x l IH]; [reflexivity|].
  unfold sort_values_desc in *; cbn [fold_right].
  destruct (fold_right (insertar_por_sim sim) [] l) as [|y r].
  - subst l; simpl; split; [now left|].
    constructor; [apply Qle_refl|constructor].
  - destruct IH as [Hin Hall]; cbn [insertar_por_sim].
    destruct (Qle_bool (sim y) (sim x)) eqn:E.
    + apply Qle_bool_iff in E; split; [now left|].
      constructor; [apply Qle_refl|].
      eapply Forall_impl; [|exact Hall].
      intros g Hg; exact (Qle_trans _ _ _ Hg E).
    + split; [now right|].
      constructor; [|exact Hall].
      apply Qlt_le_weak, Qnot_le_lt; intros Hle.
      apply Qle_bool_iff in Hle; congruence.
Qed.

Lemma resolver_en_casos (candidatos : list fila_historico) nombre_actual :
  match filter (fun f => nombre_de_fila f =? nombre_actual) candidatos with
  | _ :: _ =>
      exists antes f,
        filter (fun f => nombre_de_fila f =? nombre_actual) candidatos
        = antes ++ [f]
        /\ resolver_en ratio candidatos nombre_actual = Some f
  | [] =>
      match resolver_en ratio candidatos nombre_actual with
      | Some f =>
          In f candidatos
          /\ (umbral_similitud
              <= calcular_similitud ratio (nombre_de_fila f) nombre_actual)%Q
          /\ Forall (fun g =>
                       (calcular_similitud ratio (nombre_de_fila g) nombre_actual
                        <= calcular_similitud ratio (nombre_de_fila f)
                             nombre_actual)%Q) candidatos
      | None =>
          Forall (fun g =>
                    (calcular_similitud ratio (nombre_de_fila g) nombre_actual
                     < umbral_similitud)%Q) candidatos
      end
  end.
Proof.
  unfold resolver_en.
  destruct candidatos as [|c cs] eqn:Ec; [constructor|].
  cbv iota; rewrite <- Ec; clear Ec c cs.
  set (sim := fun f => calcular_similitud ratio (nombre_de_fila f) nombre_actual).
  destruct (filter _ candidatos) as [|x xs] eqn:Ex.
  - pose proof (cabeza_maxima sim candidatos) as Hmax.
    destruct (sort_values_desc sim candidatos) as [|primero resto].
    + rewrite Hmax; constructor.
    + destruct Hmax as [Hin Hall]; unfold sim in *.
      destruct (Qle_bool umbral_similitud _) eqn:E.
      * apply Qle_bool_iff in E.
        split; [exact Hin|split; [exact E|exact Hall]].
      * eapply Forall_impl; [|exact Hall].
        intros g Hg; eapply Qle_lt_trans; [exact Hg|].
        apply Qnot_le_lt; intros Hle.
        apply Qle_bool_iff in Hle; congruence.
  - destruct (no_vacia_ultimo (x :: xs)) as (antes & f & E); [discriminate|].
    exists antes, f; split; [exact E|].
    rewrite E; apply ultimo_app.
Qed.

(** C6.  Among the rows of the previous month the matcher returns the last
    row whose name equals the current name when there is one, whatever the
    similarity of the other rows; otherwise a row of the highest ratio
    between the names in lower case, and only when that ratio is at least
    0.8; otherwise nothing, and then every row scores below 0.8. *)
Theorem resolver_en_orden :
  forall (df_historico : list fila_historico)
         (mes_anterior nombre_actual : string),
    let candidatos := filter (es_del_mes mes_anterior) df_historico in
    let exactos :=
      filter (fun f => nombre_de_fila f =? nombre_actual) candidatos in
    let sim f := ratio (lower (nombre_de_fila f)) (lower nombre_actual) in
    let elegida :=
      buscar_fila_mes_anterior ratio df_historico mes_anterior nombre_actual in
    match exactos with
    | _ :: _ =>
        exists antes f, exactos = antes ++ [f] /\ elegida = Some f
    | [] =>
        match elegida with
        | Some f =>
            In f candidatos /\ (8 # 10 <= sim f)%Q
            /\ Forall (fun g => (sim g <= sim f)%Q) candidatos
        | None =>
            Forall (fun g => (sim g < 8 # 10)%Q) candidatos
        end
    end.
Proof.
  intros df_historico mes_anterior nombre_actual candidatos exactos sim elegida.
  assert (He : elegida = resolver_en ratio candidatos nombre_actual)
    by (unfold elegida, buscar_fila_mes_anterior;
        destruct df_historico; reflexivity).
  rewrite He.
  pose proof (resolver_en_casos candidatos nombre_actual) as H.
  unfold umbral_similitud, calcular_similitud in H.
  exact H.
Qed.

End Emparejador.


(** *** The ledger merge *)

Section Fusion.

Variable ratio : string -> string -> Q.

Lemma buscar_fila_mes_anterior_filtra h mes_ant nombre :
  buscar_fila_mes_anterior ratio h mes_ant nombre
  = resolver_en ratio (filter (es_del_mes mes_ant) h) nombre.
Proof. unfold buscar_fila_mes_anterior; destruct h; reflexivity. Qed.


Lemma filter_filter {A} (f g : A -> bool) l :
  (forall x, f x = true -> g x = true) ->
  filter f (filter g l) = filter f l.
Proof.
  intros H; induction l as [|x l IH]; [reflexivity|].
  simpl; destruct (g x) eqn:Eg; simpl.
  - now rewrite IH.
  - destruct (f x) eqn:Ef; [|exact IH].
    rewrite (H x Ef) in Eg; discriminate.
Qed.

Lemma filter_ninguno {A} (f : A -> bool) l :
  (forall x, In x l -> f x = false) -> filter f l = [].
Proof.
  induction l as [|x l IH]; intros H; [reflexivity|].
  simpl; rewrite (H x (or_introl eq_refl)).
  apply IH; intros y Hy; apply H; now right.
Qed.

Lemma filter_todos {A} (f : A -> bool) l :
  (forall x, In x l -> f x = true) -> filter f l = l.
Proof.
  induction l as [|x l IH]; intros H; [reflexivity|].
  simpl; rewrite (H x (or_introl eq_refl)).
  f_equal; apply IH; intros y Hy; apply H; now right.
Qed.

Lemma es_no_es mes f : es_del_mes mes f = negb (no_es_del_mes mes f).
Proof. unfold es_del_mes, no_es_del_mes; now rewrite negb_involutive. Qed.

Lemma igual_a_texto_iff c mes : igual_a_texto c mes = true <-> c = Texto mes.
Proof.
  destruct c as [|s|n]; cbn; split; try discriminate.
  - intros H; apply String.eqb_eq in H; now subst.
  - intros H; injection H as ->; apply String.eqb_refl.
Qed.

Lemma es_de_otro_mes p q f :
  q <> p -> es_del_mes q f = true -> no_es_del_mes p f = true.
Proof.
  unfold es_del_mes, no_es_del_mes; intros Hqp H.
  apply igual_a_texto_iff in H; rewrite H; cbn.
  apply negb_true_iff, String.eqb_neq; congruence.
Qed.

(** A row of the period of another folder, under either form of its tag,
    is not removed when a month is replaced. *)
Lemma es_de_otro_periodo p q f :
  q <> p -> es_del_periodo q f = true -> no_es_del_mes p f = true.
Proof.
  unfold es_del_periodo, no_es_del_mes; intros Hqp H.
  destruct (mes_de_fila f) as [|s|n]; cbn; [reflexivity| |reflexivity].
  apply String.eqb_eq in H; apply negb_true_iff, String.eqb_neq; congruence.
Qed.

Lemma mes_de_fila_calculada h ant mes umbral d :
  mes_de_fila (a_historico (fila_con_tendencia ratio h ant mes umbral d))
  = Texto mes.
Proof. unfold fila_con_tendencia; destruct ant; reflexivity. Qed.

Lemma calculadas_del_mes h ant mes umbral datos_mes :
  todas_del_mes mes
    (map (fila_con_tendencia ratio h ant mes umbral) datos_mes).
Proof.
  intros t Ht; apply in_map_iff in Ht as (d & <- & _).
  apply mes_de_fila_calculada.
Qed.

(** A selection that leaves the month out sees the ledger as it was before
    the month was replaced. *)
Lemma reemplazar_mes_marco (f : fila_historico -> bool) h mes df_mes :
  todas_del_mes mes df_mes ->
  (forall x, f x = true -> no_es_del_mes mes x = true) ->
  filter f (reemplazar_mes h mes df_mes) = filter f h.
Proof.
  intros Hmes Hf; unfold reemplazar_mes.
  rewrite filter_app, (filter_filter _ _ _ Hf).
  rewrite (filter_ninguno f (map a_historico df_mes)).
  - apply app_nil_r.
  - intros x Hx; apply in_map_iff in Hx as (t & <- & Ht).
    destruct (f (a_historico t)) eqn:E; [|reflexivity].
    apply Hf in E; unfold no_es_del_mes in E.
    rewrite (Hmes t Ht) in E; cbn in E.
    rewrite String.eqb_refl in E; discriminate.
Qed.

Lemma reemplazar_mes_del_mes h mes df_mes :
  todas_del_mes mes df_mes ->
  filter (es_del_mes mes) (reemplazar_mes h mes df_mes) = map a_historico df_mes.
Proof.
  intros Hmes; unfold reemplazar_mes.
  rewrite filter_app.
  rewrite (filter_ninguno (es_del_mes mes) (filter (no_es_del_mes mes) h)).
  - apply filter_todos.
    intros x Hx; apply in_map_iff in Hx as (t & <- & Ht).
    unfold es_del_mes; rewrite (Hmes t Ht); apply String.eqb_refl.
  - intros x Hx; apply filter_In in Hx as [_ Hx].
    rewrite es_no_es, Hx; reflexivity.
Qed.

Lemma integrar_mes_marco (f : fila_historico -> bool) h mes df_mes :
  todas_del_mes mes df_mes ->
  (forall x, f x = true -> no_es_del_mes mes x = true) ->
  filter f (integrar_mes h mes df_mes) = filter f h.
Proof.
  intros Hmes Hf; destruct df_mes as [|t ts]; [reflexivity|].
  now apply reemplazar_mes_marco.
Qed.



End Fusion.


(** *** The months of a run *)

Lemma map_fst_pares {A B} (g : A -> B) l :
  map fst (map (fun m => (m, g m)) l) = l.
Proof. induction l; simpl; [reflexivity|now f_equal]. Qed.

Section Corrida.

Variable ratio : string -> string -> Q.
Variable cancel_event : option nat.
Variable umbral : Q.

Lemma procesar_mes_sigue e mes exp e' :
  procesar_mes ratio cancel_event umbral e mes exp = Some (Sigue e') ->
  (salidas e' = salidas e /\ df_historico e' = df_historico e)
  \/ exists df_mes detalle,
       salidas e' = salidas e ++ [{| mes_salida := mes; resumen := df_mes;
                                     nulos := detalle |}]
       /\ df_historico e' = integrar_mes (df_historico e) mes df_mes
       /\ todas_del_mes mes df_mes.
Proof.
  unfold procesar_mes.
  destruct (is_set cancel_event (consultas e)); [discriminate|].
  destruct exp as [items|]; [|discriminate].
  destruct (sin_duplicados [] items) as [|a archivos].
  - intros H; injection H as <-; left; split; reflexivity.
  - destruct (leer_archivos _ _ _ _ _) as [[[datos_mes detalle] k]|];
      [|discriminate].
    intros H; injection H as <-; right.
    eexists _, _; cbn [salidas df_historico].
    split; [reflexivity|]; split; [reflexivity|].
    apply calculadas_del_mes.
Qed.

Lemma procesar_mes_termina e mes exp f :
  procesar_mes ratio cancel_event umbral e mes exp = Some (Termina f) ->
  f = Guardado (df_historico e) (salidas e) \/ f = SinGuardar (salidas e).
Proof.
  unfold procesar_mes.
  destruct (is_set cancel_event (consultas e));
    [intros H; injection H as <-; now left|].
  destruct exp as [items|]; [|intros H; injection H as <-; now right].
  destruct (sin_duplicados [] items) as [|a archivos]; [discriminate|].
  destruct (leer_archivos _ _ _ _ _) as [[[datos_mes detalle] k]|];
    discriminate.
Qed.

Lemma sin_filas_app q a b : sin_filas q (a ++ b) -> sin_filas q a /\ sin_filas q b.
Proof.
  intros H; split; intros s Hs; apply H; apply in_or_app; auto.
Qed.

(** The summaries only grow along the loop. *)
Lemma bucle_meses_salidas meses :
  forall e c,
    bucle_meses ratio cancel_event umbral e meses = Some c ->
    exists nuevas, salidas_de (guardar c) = salidas e ++ nuevas.
Proof.
  induction meses as [|[mes exp] resto IH]; intros e c H; cbn [bucle_meses] in H.
  - injection H as <-; exists []; simpl; now rewrite app_nil_r.
  - destruct (procesar_mes ratio cancel_event umbral e mes exp)
      as [[e'|f]|] eqn:Ep; [| |discriminate].
    + destruct (IH _ _ H) as [nuevas Hn].
      destruct (procesar_mes_sigue _ _ _ _ Ep)
        as [[Hs _]|(df_mes & detalle & Hs & _)]; rewrite Hs in Hn.
      * now exists nuevas.
      * rewrite <- app_assoc in Hn; eauto.
    + injection H as <-.
      destruct (procesar_mes_termina _ _ _ _ Ep) as [-> | ->];
        exists []; simpl; now rewrite app_nil_r.
Qed.

(** The summaries added along the loop are those of the months of the
    loop. *)
Lemma bucle_meses_nuevas meses :
  forall e c s,
    bucle_meses ratio cancel_event umbral e meses = Some c ->
    In s (salidas_de (guardar c)) ->
    In s (salidas e) \/ In (mes_salida s) (map fst meses).
Proof.
  induction meses as [|[mes exp] resto IH]; intros e c s H Hs;
    cbn [bucle_meses] in H.
  - injection H as <-; now left.
  - destruct (procesar_mes ratio cancel_event umbral e mes exp)
      as [[e'|f]|] eqn:Ep; [| |discriminate].
    + destruct (IH _ _ _ H Hs) as [Hin|Hin]; [|right; now right].
      destruct (procesar_mes_sigue _ _ _ _ Ep)
        as [[Hs' _]|(df_mes & detalle & Hs' & _)]; rewrite Hs' in Hin.
      * now left.
      * apply in_app_or in Hin as [Hin|[<-|[]]]; [now left|].
        right; now left.
    + injection H as <-; left; cbn [guardar] in Hs.
      destruct (procesar_mes_termina _ _ _ _ Ep) as [-> | ->];
        exact Hs.
Qed.

(** A selection of rows that no other month removes is kept along the
    loop for a month for which no summary with rows is written. *)
Lemma bucle_meses_marco (f : fila_historico -> bool) (q : string)
    (h0 : list fila_historico) meses :
  (forall m x, m <> q -> f x = true -> no_es_del_mes m x = true) ->
  forall e c,
    bucle_meses ratio cancel_event umbral e meses = Some c ->
    (sin_filas q (salidas e) -> filter f (df_historico e) = filter f h0) ->
    forall h ss,
      guardar c = Guardado h ss -> sin_filas q ss ->
      filter f h = filter f h0.
Proof.
  intros Hf; induction meses as [|[mes exp] resto IH];
    intros e c H He h ss Hg Hq; cbn [bucle_meses] in H.
  - injection H as <-; cbn [guardar] in Hg; injection Hg as <- <-; auto.
  - destruct (procesar_mes ratio cancel_event umbral e mes exp)
      as [[e'|f']|] eqn:Ep; [| |discriminate].
    + apply (IH _ _ H) with (ss := ss); [|exact Hg|exact Hq].
      destruct (procesar_mes_sigue _ _ _ _ Ep)
        as [[Hs Hd]|(df_mes & detalle & Hs & Hd & Hm)]; rewrite Hs, Hd.
      * exact He.
      * intros Hq'; apply sin_filas_app in Hq' as [Hq1 Hq2].
        rewrite <- (He Hq1).
        destruct (String.eqb_spec mes q) as [->|Hne].
        -- pose proof (Hq2 _ (or_introl eq_refl) eq_refl) as Hvacio.
           cbn [resumen] in Hvacio; subst df_mes; reflexivity.
        -- apply integrar_mes_marco; [exact Hm|].
           intros x; apply Hf; exact Hne.
    + injection H as <-.
      destruct (procesar_mes_termina _ _ _ _ Ep) as [-> | ->];
        cbn [guardar] in Hg; [|discriminate].
      injection Hg as <- <-; auto.
Qed.

(** C10, amended.  In a run that writes the ledger, every month for which
    no summary with rows was written (it had no files, or the cancellation
    was found before its first file was read, or it was never reached) has
    in the written ledger exactly the rows of its period that the run
    loaded from the store at its start, under either form of their tag: the
    merge is skipped for it, the removal with the append.  The run loads
    rows only when the stored ledger is still in place after the first
    step; when the first step moved it to the backup, or there was none,
    the written ledger has no row of that period. *)
Theorem mes_sin_filas_conserva_historico :
  forall (listado : list entrada) (expandir : string -> expansion)
         (base : almacen) (h : list fila_historico) (ss : list salida_mes)
         (mes : string),
    worker_procesar ratio cancel_event umbral listado expandir base
    = Some (Guardado h ss) ->
    sin_filas mes ss ->
    filter (es_del_periodo mes) h
    = filter (es_del_periodo mes) (cargar_historico base)
    /\ (queda_historico base = false -> filter (es_del_periodo mes) h = [])
    /\ (forall h0, queda_historico base = true -> read_excel base = Ok h0 ->
                   filter (es_del_periodo mes) h
                   = filter (es_del_periodo mes) h0).
Proof.
  intros listado expandir base h ss mes H Hq; unfold worker_procesar in H.
  destruct (negb (preguntar_y_borrar_duplicados_tk _ _)); [discriminate|].
  destruct (buscar_carpetas_mes listado) as [|m ms] eqn:Ec; [discriminate|].
  destruct (bucle_meses _ _ _ _ _) as [c|] eqn:Eb; [|discriminate].
  injection H as H.
  assert (Hmain : filter (es_del_periodo mes) h
                  = filter (es_del_periodo mes) (cargar_historico base)).
  { apply (bucle_meses_marco (es_del_periodo mes) mes (cargar_historico base) _
             (fun m x Hne => es_de_otro_periodo m mes x
                               (fun E => Hne (eq_sym E)))
             _ _ Eb (fun _ => eq_refl) h ss H Hq). }
  split; [exact Hmain|]; split.
  - intros Hqueda; rewrite Hmain; unfold cargar_historico.
    now rewrite Hqueda.
  - intros h0 Hqueda Hread; rewrite Hmain; unfold cargar_historico.
    now rewrite Hqueda, Hread.
Qed.

End Corrida.

(** C10, as stated, fails.  The stored ledger holds a row of January that
    an earlier run recorded; the dialog of the first step is accepted and
    the ledger is moved to the backup; January has no files.  The run
    writes an empty ledger: the row does not persist in the rewritten
    store. *)
Lemma historico_anterior_no_persiste :
  read_excel (historico_movido [fila_leida 12024 "ventas.csv" 5])
  = Ok [fila_leida 12024 "ventas.csv" 5]
  /\ es_del_periodo "012024" (fila_leida 12024 "ventas.csv" 5) = true
  /\ worker_procesar ratio_igualdad None 10 base_un_mes expandir_nada
       (historico_movido [fila_leida 12024 "ventas.csv" 5])
     = Some (Guardado [] []).
Proof. repeat split. Qed.

(** The amended C10 on a stored ledger that could not be moved to the
    backup: its row of January is in the written ledger. *)
Lemma mes_sin_filas_conserva_historico_testigo :
  worker_procesar ratio_igualdad None 10 base_un_mes expandir_nada
    (historico_no_movido [fila_leida 12024 "ventas.csv" 5])
  = Some (Guardado [fila_leida 12024 "ventas.csv" 5] [])
  /\ sin_filas "012024" []
  /\ filter (es_del_periodo "012024") [fila_leida 12024 "ventas.csv" 5]
     = filter (es_del_periodo "012024")
         (cargar_historico
            (historico_no_movido [fila_leida 12024 "ventas.csv" 5])).
Proof.
  assert (H1 : worker_procesar ratio_igualdad None 10 base_un_mes expandir_nada
                 (historico_no_movido [fila_leida 12024 "ventas.csv" 5])
               = Some (Guardado [fila_leida 12024 "ventas.csv" 5] []))
    by reflexivity.
  assert (H2 : sin_filas "012024" []) by (intros s []).
  split; [exact H1|]; split; [exact H2|].
  exact (proj1 (mes_sin_filas_conserva_historico ratio_igualdad None 10
                  base_un_mes expandir_nada
                  (historico_no_movido [fila_leida 12024 "ventas.csv" 5])
                  _ _ "012024" H1 H2)).
Defined.

(** *** The replacement of a month by the worker *)





(** *** Cancellation while the files of a month are read *)

Lemma bucle_meses_app ratio cancel umbral a b :
  forall e,
    bucle_meses ratio cancel umbral e (a ++ b)
    = match bucle_meses ratio cancel umbral e a with
      | Some (Sigue e') => bucle_meses ratio cancel umbral e' b
      | otro => otro
      end.
Proof.
  induction a as [|[m x] a IH]; intros e; cbn [app bucle_meses]; [reflexivity|].
  destruct (procesar_mes ratio cancel umbral e m x) as [[e'|f]|];
    [apply IH|reflexivity|reflexivity].
Qed.

Lemma bucle_meses_cancelado ratio cancel umbral e meses :
  is_set cancel (consultas e) = true ->
  option_map guardar (bucle_meses ratio cancel umbral e meses)
  = Some (Guardado (df_historico e) (salidas e)).
Proof.
  intros H; destruct meses as [|[m x] r]; cbn [bucle_meses]; [reflexivity|].
  unfold procesar_mes; rewrite H; reflexivity.
Qed.

(** Until the poll that finds the event set the files are read as in a run
    without cancellation; the files from that poll on are not read. *)
Lemma leer_archivos_cancelado mes t archivos :
  forall j k c,
    t = (k + j)%nat -> (j < List.length archivos)%nat ->
    leer_archivos (Some t) mes archivos k c
    = match leer_archivos None mes (firstn j archivos) k c with
      | Some (datos_mes, detalle, _) => Some (datos_mes, detalle, S t)
      | None => None
      end.
Proof.
  induction archivos as [|it r IH]; intros j k c Ht Hj;
    [simpl in Hj; lia|].
  destruct j as [|j]; cbn [firstn leer_archivos is_set].
  - replace (t <=? k)%nat with true by (symmetry; apply Nat.leb_le; lia).
    now replace k with t by lia.
  - replace (t <=? k)%nat with false by (symmetry; apply Nat.leb_gt; lia).
    destruct (filas_validas_de _) as [fv|]; [|reflexivity].
    rewrite (IH j (S k) (c + 1)%Z) by (simpl in Hj; lia).
    destruct (leer_archivos None mes (firstn j r) (S k) (c + 1))
      as [[[d n] k']|]; reflexivity.
Qed.

Lemma leer_archivos_longitud mes archivos :
  forall k c datos_mes detalle k',
    leer_archivos None mes archivos k c = Some (datos_mes, detalle, k') ->
    List.length datos_mes = List.length archivos.
Proof.
  induction archivos as [|it r IH]; intros k c d n k' H;
    cbn [leer_archivos is_set] in H.
  - now injection H as <- _ _.
  - destruct (filas_validas_de _) as [fv|]; [|discriminate].
    destruct (leer_archivos None mes r (S k) (c + 1)) as [[[d' n'] k'']|] eqn:E;
      [|discriminate].
    injection H as <- _ _; simpl; f_equal; eapply IH; eauto.
Qed.

(** C1, as stated, fails.  One month holds two files; the event is found
    set at the poll before the second file, after the first one was read.
    The run returns with the row of the first file in the ledger, tagged
    with that month. *)
Lemma cancelacion_conserva_filas_leidas :
  is_set (Some 2%nat) 0 = false
  /\ is_set (Some 2%nat) 1 = false
  /\ is_set (Some 2%nat) 2 = true
  /\ option_map
       (fun f => map (fun r => (mes_de_fila r, nombre_de_fila r))
                   (historico_final sin_historico f))
       (worker_procesar ratio_igualdad (Some 2%nat) 10 base_un_mes
          expandir_ventas_clientes sin_historico)
     = Some [(Texto "012024", "ventas.csv")].
Proof. repeat split. Qed.

(** C1, amended.  When the event is first found set at the poll before a
    file of a month, after [j] of its files were read, the run returns with
    the ledger written: the rows of those [j] files are merged into it and
    are its rows tagged with the folder name of the month; the month's
    summary is the last one written, so no later month is processed; and
    for every later month the ledger holds the rows of that period that
    were loaded from the store at the start of the run and no other, so
    none at all when the first step left no stored ledger in place. *)
Theorem cancelacion_durante_un_mes :
  forall (ratio : string -> string -> Q) (umbral : Q)
         (listado : list entrada) (expandir : string -> expansion)
         (base : almacen)
         (antes despues : list string) (mes : string) (items : list item)
         (e : estado) (t j : nat)
         (datos_mes : list dato) (detalle : list nulo) (k : nat),
    NoDup (map nombre listado) ->
    preguntar_y_borrar_duplicados_tk base (buscar_carpetas_mes listado)
    = true ->
    buscar_carpetas_mes listado = antes ++ mes :: despues ->
    bucle_meses ratio (Some t) umbral (estado_inicial (cargar_historico base))
      (map (fun m => (m, expandir m)) antes) = Some (Sigue e) ->
    expandir mes = Expandido items ->
    t = (S (consultas e) + j)%nat ->
    (j < List.length (sin_duplicados [] items))%nat ->
    leer_archivos None mes (firstn j (sin_duplicados [] items))
      (S (consultas e)) 1 = Some (datos_mes, detalle, k) ->
    let df_mes :=
      map (fila_con_tendencia ratio (df_historico e) (mes_anterior e) mes umbral)
          datos_mes in
    let final := integrar_mes (df_historico e) mes df_mes in
    worker_procesar ratio (Some t) umbral listado expandir base
    = Some (Guardado final
              (salidas e ++ [{| mes_salida := mes; resumen := df_mes;
                                nulos := detalle |}]))
    /\ List.length datos_mes = j
    /\ (j <> 0%nat ->
        filter (es_del_mes mes) final = map a_historico df_mes)
    /\ (forall q, In q despues ->
          filter (es_del_periodo q) final
          = filter (es_del_periodo q) (cargar_historico base))
    /\ (queda_historico base = false ->
        forall q, In q despues -> filter (es_del_periodo q) final = []).
Proof.
  intros ratio umbral listado expandir base antes despues mes items e t j
         datos_mes detalle k Hnd Hpreg Hc Hpre Hexp Ht Hj Hleer df_mes final.
  assert (Hlen : List.length datos_mes = j).
  { rewrite (leer_archivos_longitud _ _ _ _ _ _ _ Hleer).
    apply firstn_length_le; lia. }
  assert (Hm : todas_del_mes mes df_mes) by apply calculadas_del_mes.
  assert (Hdespues : forall q, In q despues ->
            filter (es_del_periodo q) final
            = filter (es_del_periodo q) (cargar_historico base)).
  { intros q Hq.
    apply CarpetasProps.buscar_carpetas_mes_nodup in Hnd; rewrite Hc in Hnd.
    assert (Hqm : mes <> q).
    { intros ->; apply NoDup_remove_2 in Hnd; apply Hnd.
      apply in_or_app; now right. }
    assert (Hqa : ~ In q antes).
    { intros Hin; apply NoDup_app_remove_r in Hnd as Hna.
      clear Hna; revert Hnd Hin Hq; clear; intros Hnd Hin Hq.
      induction antes as [|x xs IH]; [destruct Hin|].
      cbn [app] in Hnd; inversion Hnd as [|? ? Hx Hxs]; subst.
      destruct Hin as [->|Hin]; [|now apply IH].
      apply Hx, in_or_app; right; now right. }
    unfold final.
    rewrite (integrar_mes_marco (es_del_periodo q) _ mes df_mes Hm)
      by (intros x; apply es_de_otro_periodo; auto).
    apply (bucle_meses_marco ratio (Some t) umbral (es_del_periodo q) q
             (cargar_historico base) _
             (fun m x Hne => es_de_otro_periodo m q x
                               (fun E => Hne (eq_sym E)))
             _ _ Hpre (fun _ => eq_refl) _ _ eq_refl).
    intros s Hs Hms; exfalso; apply Hqa.
    destruct (bucle_meses_nuevas ratio (Some t) umbral _ _ _ s Hpre Hs)
      as [[]|Hin].
    rewrite map_fst_pares in Hin; now rewrite <- Hms. }
  split; [|split; [exact Hlen|split; [|split; [exact Hdespues|]]]].
  - unfold worker_procesar; rewrite Hpreg, Hc; cbn [negb].
    destruct (antes ++ mes :: despues) as [|m ms] eqn:E;
      [now destruct antes|].
    rewrite <- E, map_app, bucle_meses_app, Hpre.
    cbn [map bucle_meses]; unfold procesar_mes at 1.
    replace (is_set (Some t) (consultas e)) with false
      by (symmetry; apply Nat.leb_gt; lia).
    rewrite Hexp.
    destruct (sin_duplicados [] items) as [|a r] eqn:Ea; [simpl in Hj; lia|].
    rewrite <- Ea in *.
    rewrite (leer_archivos_cancelado mes t _ j (S (consultas e)) 1 Ht Hj), Hleer.
    apply (bucle_meses_cancelado ratio (Some t) umbral
             {| df_historico := final;
                salidas := salidas e ++ [{| mes_salida := mes; resumen := df_mes;
                                            nulos := detalle |}];
                consultas := S t; mes_anterior := Some mes |}).
    apply Nat.leb_le; simpl; lia.
  - intros Hj0; unfold final.
    assert (Hne : df_mes <> []).
    { unfold df_mes; destruct datos_mes; [simpl in Hlen; lia|discriminate]. }
    destruct df_mes as [|x xs] eqn:Edf; [congruence|].
    cbn [integrar_mes]; now apply reemplazar_mes_del_mes.
  - intros Hqueda q Hq; rewrite (Hdespues q Hq).
    unfold cargar_historico; now rewrite Hqueda.
Qed.

(** The amended C1 on a run over January and February, cancelled before
    the second file of January, the stored ledger having been moved to
    the backup by the first step: the written ledger has the row of the
    file read and no row of February. *)
Lemma cancelacion_durante_un_mes_testigo :
  NoDup (map nombre base_dos_meses)
  /\ preguntar_y_borrar_duplicados_tk
       (historico_movido [fila_leida 22024 "viejo.csv" 7])
       (buscar_carpetas_mes base_dos_meses) = true
  /\ buscar_carpetas_mes base_dos_meses = [] ++ "012024" :: ["022024"]
  /\ expandir_ventas_clientes "012024" = Expandido [ventas_csv; clientes_csv]
  /\ 2%nat = (S 0 + 1)%nat
  /\ (1 < List.length (sin_duplicados [] [ventas_csv; clientes_csv]))%nat
  /\ option_map
       (fun f => map (fun r => (mes_de_fila r, nombre_de_fila r))
                   (historico_final
                      (historico_movido [fila_leida 22024 "viejo.csv" 7]) f))
       (worker_procesar ratio_igualdad (Some 2%nat) 10 base_dos_meses
          expandir_ventas_clientes
          (historico_movido [fila_leida 22024 "viejo.csv" 7]))
     = Some [(Texto "012024", "ventas.csv")].
Proof.
  assert (H0 : NoDup (map nombre base_dos_meses)).
  { repeat constructor; [intros [H'|[]]; discriminate|intros []]. }
  assert (Hp : preguntar_y_borrar_duplicados_tk
                 (historico_movido [fila_leida 22024 "viejo.csv" 7])
                 (buscar_carpetas_mes base_dos_meses) = true) by reflexivity.
  assert (H1 : buscar_carpetas_mes base_dos_meses = [] ++ "012024" :: ["022024"])
    by reflexivity.
  assert (H2 : bucle_meses ratio_igualdad (Some 2%nat) 10
                 (estado_inicial
                    (cargar_historico
                       (historico_movido [fila_leida 22024 "viejo.csv" 7])))
                 (map (fun m => (m, expandir_ventas_clientes m)) [])
               = Some (Sigue (estado_inicial [])))
    by reflexivity.
  assert (H3 : expandir_ventas_clientes "012024"
               = Expandido [ventas_csv; clientes_csv]) by reflexivity.
  assert (H4 : 2%nat = (S 0 + 1)%nat) by reflexivity.
  assert (H5 : (1 < List.length (sin_duplicados [] [ventas_csv; clientes_csv]))%nat)
    by (simpl; lia).
  repeat (split; [assumption|]).
  rewrite (proj1 (cancelacion_durante_un_mes ratio_igualdad 10 base_dos_meses
                    expandir_ventas_clientes
                    (historico_movido [fila_leida 22024 "viejo.csv" 7])
                    [] ["022024"] "012024" [ventas_csv; clientes_csv]
                    (estado_inicial [])
                    2 1 _ _ _ H0 Hp H1 H2 H3 H4 H5 eq_refl)).
  reflexivity.
Defined.


(** *** Files that cannot be read *)

Lemma leer_archivos_app mes a b :
  forall k c,
    leer_archivos None mes (a ++ b) k c
    = match leer_archivos None mes a k c with
      | Some (d1, n1, _) =>
          match leer_archivos None mes b (k + List.length a)%nat
                  (c + Z.of_nat (List.length a))%Z with
          | Some (d2, n2, k2) => Some (d1 ++ d2, n1 ++ n2, k2)
          | None => None
          end
      | None => None
      end.
Proof.
  induction a as [|it r IH]; intros k c.
  - cbn [app leer_archivos List.length].
    rewrite Nat.add_0_r, Z.add_0_r.
    destruct (leer_archivos None mes b k c) as [[[d n] k']|]; reflexivity.
  - cbn [app leer_archivos is_set List.length].
    destruct (filas_validas_de _) as [fv|]; [|reflexivity].
    rewrite IH.
    replace (S k + List.length r)%nat with (k + S (List.length r))%nat by lia.
    replace (c + 1 + Z.of_nat (List.length r))%Z
      with (c + Z.of_nat (S (List.length r)))%Z by lia.
    destruct (leer_archivos None mes r (S k) (c + 1)) as [[[d1 n1] k1]|];
      [|reflexivity].
    destruct (leer_archivos None mes b _ _) as [[[d2 n2] k2]|];
      [|reflexivity].
    now rewrite <- app_assoc.
Qed.

Lemma listar_archivos_app mes a b :
  forall k,
    Lista.listar_archivos None mes (a ++ b) k
    = match Lista.listar_archivos None mes a k with
      | Some (h1, e1, _) =>
          match Lista.listar_archivos None mes b (k + List.length a)%nat with
          | Some (h2, e2, k2) => Some (h1 ++ h2, e1 ++ e2, k2)
          | None => None
          end
      | None => None
      end.
Proof.
  induction a as [|it r IH]; intros k.
  - cbn [app Lista.listar_archivos List.length]; rewrite Nat.add_0_r.
    destruct (Lista.listar_archivos None mes b k) as [[[h n] k']|]; reflexivity.
  - cbn [app Lista.listar_archivos is_set List.length]; rewrite IH.
    replace (S k + List.length r)%nat with (k + S (List.length r))%nat by lia.
    destruct (Lista.listar_archivos None mes r (S k)) as [[[h1 e1] k1]|];
      [|reflexivity].
    destruct (Lista.listar_archivos None mes b _) as [[[h2 e2] k2]|];
      destruct (Lista.medir mes it); reflexivity.
Qed.

(** C9, as stated, fails in the trend worker.  The only file of the month
    has a format that the reader rejects; the month's summary records it
    with zero rows, and the detail table of the month has no entry. *)
Lemma fallo_de_lectura_sin_detalle :
  leer_archivo_generico (fichero notas_bin)
  = Error "Formato no soportado: notas.bin"
  /\ option_map
       (fun f => map (fun s => (map (fun t => (Nombre_archivo (base t),
                                               Cantidad_filas (base t)))
                                    (resumen s),
                                nulos s))
                     (salidas_de f))
       (worker_procesar ratio_igualdad None 10 base_un_mes expandir_notas
          sin_historico)
     = Some [([("notas.bin", 0%Z)], [])].
Proof. split; reflexivity. Qed.

(** C9, amended.  A file whose read raises does not stop the loop over the
    files of the month, and the other files are processed as without it.
    In the trend worker it adds to the month's rows one row with a count of
    zero and adds nothing to the detail of nulls; in the listing
    application it adds no row and adds to the error detail one entry with
    the text of the error. *)
Theorem fallo_de_lectura_no_detiene :
  forall (mes : string) (antes despues : list item) (it : item)
         (k : nat) (c : Z) (msg : string),
    leer_archivo_generico (fichero it) = Error msg ->
    leer_archivos None mes (antes ++ it :: despues) k c
    = match leer_archivos None mes antes k c,
            leer_archivos None mes despues (S (k + List.length antes))
              (c + Z.of_nat (List.length antes) + 1) with
      | Some (d1, n1, _), Some (d2, n2, k2) =>
          Some (d1 ++ {| Correlativo := c + Z.of_nat (List.length antes);
                         Nombre_archivo := nombre_mostrado it;
                         Tamano_KB := size_kb it;
                         Cantidad_filas := 0;
                         Carpeta_Mes := Texto mes |} :: d2,
                n1 ++ n2, k2)
      | _, _ => None
      end
    /\ Lista.listar_archivos None mes (antes ++ it :: despues) k
       = match Lista.listar_archivos None mes antes k,
               Lista.listar_archivos None mes despues
                 (S (k + List.length antes)) with
         | Some (h1, e1, _), Some (h2, e2, k2) =>
             Some (h1 ++ h2,
                   e1 ++ {| Lista.Mes_error := extraer_mes_anio mes;
                            Lista.Archivo_error := basename (path it);
                            Lista.Ruta_error := path it;
                            Lista.Error_texto := msg |} :: e2,
                   k2)
         | _, _ => None
         end.
Proof.
  intros mes antes despues it k c msg Hmsg; split.
  - rewrite leer_archivos_app; cbn [leer_archivos is_set].
    rewrite Hmsg; cbn [filas_validas_de detalle_de app].
    destruct (leer_archivos None mes antes k c) as [[[d1 n1] k1]|];
      [|reflexivity].
    destruct (leer_archivos None mes despues _ _) as [[[d2 n2] k2]|];
      reflexivity.
  - rewrite listar_archivos_app; cbn [Lista.listar_archivos is_set].
    unfold Lista.medir; rewrite Hmsg.
    destruct (Lista.listar_archivos None mes antes k) as [[[h1 e1] k1]|];
      [|reflexivity].
    destruct (Lista.listar_archivos None mes despues _) as [[[h2 e2] k2]|];
      reflexivity.
Qed.

(** The amended C9 on three files, the second of a format that the reader
    rejects. *)
Lemma fallo_de_lectura_no_detiene_testigo :
  leer_archivo_generico (fichero notas_bin)
  = Error "Formato no soportado: notas.bin"
  /\ option_map
       (fun r => map (fun d => (Nombre_archivo d, Cantidad_filas d))
                   (fst (fst r)))
       (leer_archivos None "012024" ([ventas_csv] ++ notas_bin :: [clientes_csv])
          1 1)
     = Some [("ventas.csv", 2%Z); ("notas.bin", 0%Z); ("clientes.csv", 1%Z)].
Proof.
  assert (H : leer_archivo_generico (fichero notas_bin)
              = Error "Formato no soportado: notas.bin") by reflexivity.
  split; [exact H|].
  rewrite (proj1 (fallo_de_lectura_no_detiene "012024" [ventas_csv]
                    [clientes_csv] notas_bin 1 1 _ H)).
  reflexivity.
Defined.

End WorkerProps.

(** ** More on the period folders *)

Module CarpetasExtra.
Import Texto Carpetas CarpetasProps.

Lemma es_digito_rango c :
  es_digito c = true -> (48 <= N_of_ascii c <= 57)%N.
Proof.
  unfold es_digito, nat_of_ascii; intros H.
  apply andb_true_iff in H as [H1 H2].
  apply Nat.leb_le in H1, H2; lia.
Qed.

Lemma digito_valor c :
  es_digito c = true -> digito c = (Z.of_N (N_of_ascii c) - 48)%Z.
Proof.
  intros H; apply es_digito_rango in H.
  unfold digito, nat_of_ascii; lia.
Qed.

(** A folder name of six digits, taken apart. *)
Lemma token_partes n :
  String.length n = 6%nat -> isdigit n = true ->
  exists m1 m2 anio,
    n = String m1 (String m2 anio)
    /\ es_digito m1 = true /\ es_digito m2 = true
    /\ String.length anio = 4%nat.
Proof.
  destruct n as [|m1 [|m2 anio]]; try discriminate.
  intros Hl Hd; exists m1, m2, anio.
  cbn [isdigit todos_digitos] in Hd.
  apply andb_true_iff in Hd as [H1 Hd].
  apply andb_true_iff in Hd as [H2 _].
  simpl in Hl; repeat split; auto; lia.
Qed.

Lemma compare_refl s : String.compare s s = Eq.
Proof.
  induction s as [|c s IH]; [reflexivity|].
  simpl; unfold Ascii.compare; now rewrite N.compare_refl.
Qed.

Lemma orden_de_meses m1 m2 k1 k2 anio :
  es_digito m1 = true -> es_digito m2 = true ->
  es_digito k1 = true -> es_digito k2 = true ->
  String.leb (String m1 (String m2 anio)) (String k1 (String k2 anio)) = true ->
  (10 * digito m1 + digito m2 <= 10 * digito k1 + digito k2)%Z.
Proof.
  intros Hm1 Hm2 Hk1 Hk2.
  rewrite !digito_valor by assumption.
  apply es_digito_rango in Hm1, Hm2, Hk1, Hk2.
  unfold String.leb; cbn [String.compare]; unfold Ascii.compare.
  destruct (N.compare_spec (N_of_ascii m1) (N_of_ascii k1)) as [E|L|G];
    [|lia|discriminate].
  destruct (N.compare_spec (N_of_ascii m2) (N_of_ascii k2)) as [E2|L2|G2];
    [lia|lia|discriminate].
Qed.

Lemma anterior_en_el_anio a b anio :
  String.length a = 6%nat -> isdigit a = true -> sufijo 2 a = anio ->
  String.length b = 6%nat -> isdigit b = true -> sufijo 2 b = anio ->
  String.leb a b = true -> anterior_o_igual a b = true.
Proof.
  intros La Da Sa Lb Db Sb Hle.
  destruct (token_partes a La Da) as (m1 & m2 & ya & -> & Hm1 & Hm2 & _).
  destruct (token_partes b Lb Db) as (k1 & k2 & yb & -> & Hk1 & Hk2 & _).
  cbn [sufijo] in Sa, Sb; subst ya yb.
  pose proof (orden_de_meses _ _ _ _ _ Hm1 Hm2 Hk1 Hk2 Hle) as Hmes.
  unfold anterior_o_igual, anio_de, mes_de; cbn [sufijo prefijo valor_decimal].
  rewrite Z.ltb_irrefl, Z.eqb_refl; cbn [orb andb].
  apply Z.leb_le; unfold digito in Hmes; lia.
Qed.

Lemma cronologico_ordenado (P : string -> Prop) l :
  (forall a b, P a -> P b -> String.leb a b = true ->
               anterior_o_igual a b = true) ->
  Sorted leb_prop l -> (forall n, In n l -> P n) -> cronologico l = true.
Proof.
  intros Hpar Hs; induction Hs as [|a r Hs IH Hd]; intros HP; [reflexivity|].
  destruct r as [|b r']; [reflexivity|].
  cbn [cronologico]; apply andb_true_iff; split.
  - apply Hpar; [apply HP; now left|apply HP; right; now left|].
    now inversion Hd.
  - apply IH; intros n Hn; apply HP; now right.
Qed.

(** X1.  When the month folders of the base directory are all of one year,
    the order in which the scanner returns them is the calendar order. *)
Theorem buscar_carpetas_mes_cronologico_en_un_anio :
  forall (listado : list entrada) (anio : string),
    (forall e, In e listado -> es_carpeta_mes e = true ->
               sufijo 2 (nombre e) = anio) ->
    cronologico (buscar_carpetas_mes listado) = true.
Proof.
  intros listado anio Hanio.
  destruct (buscar_carpetas_mes_filtra_y_ordena listado) as (_ & Hs & Hin).
  apply (cronologico_ordenado
           (fun n => String.length n = 6%nat /\ isdigit n = true
                     /\ sufijo 2 n = anio)); [|exact Hs|].
  - intros a b (La & Da & Sa) (Lb & Db & Sb).
    now apply (anterior_en_el_anio a b anio).
  - intros n Hn; apply Hin in Hn as (e & He & <- & Hdir & Hl & Hd).
    repeat split; auto.
    apply Hanio; [exact He|].
    unfold es_carpeta_mes; rewrite Hdir, Hl, Hd; reflexivity.
Qed.

(** X1 on the folders of March, January and November 2024. *)
Lemma buscar_carpetas_mes_cronologico_en_un_anio_testigo :
  (forall e, In e [carpeta "032024"; carpeta "012024"; carpeta "112024"] ->
             es_carpeta_mes e = true -> sufijo 2 (nombre e) = "2024")
  /\ cronologico
       (buscar_carpetas_mes
          [carpeta "032024"; carpeta "012024"; carpeta "112024"]) = true.
Proof.
  assert (H : forall e,
             In e [carpeta "032024"; carpeta "012024"; carpeta "112024"] ->
             es_carpeta_mes e = true -> sufijo 2 (nombre e) = "2024").
  { intros e [<-|[<-|[<-|[]]]] _; reflexivity. }
  split; [exact H|].
  exact (buscar_carpetas_mes_cronologico_en_un_anio _ "2024" H).
Defined.

(** X2.  The label of a folder name of six digits identifies it: any name
    with the same label, valid or not, is the same name, and the label is
    not the one given to invalid names. *)
Theorem extraer_mes_anio_identifica :
  forall a b : string,
    String.length a = 6%nat -> isdigit a = true ->
    extraer_mes_anio a = extraer_mes_anio b ->
    a = b /\ extraer_mes_anio a <> "Desconocido".
Proof.
  intros a b La Da.
  destruct (token_partes a La Da) as (m1 & m2 & ya & -> & Hm1 & Hm2 & Hya).
  unfold extraer_mes_anio at 1 3.
  replace ((String.length (String m1 (String m2 ya)) =? 6)%nat
           && isdigit (String m1 (String m2 ya))) with true
    by (now rewrite La, Da).
  cbn [prefijo sufijo append].
  intros H; split; [|discriminate].
  unfold extraer_mes_anio in H.
  destruct ((String.length b =? 6)%nat && isdigit b) eqn:Eb.
  - apply andb_true_iff in Eb as [Lb Db]; apply Nat.eqb_eq in Lb.
    destruct (token_partes b Lb Db) as (k1 & k2 & yb & -> & _).
    cbn [prefijo sufijo append] in H; now injection H as -> -> ->.
  - exfalso; injection H as H1 H2 H3 H4.
    unfold barra in H3; discriminate.
Qed.

(** X2 on the folder of December 2024. *)
Lemma extraer_mes_anio_identifica_testigo :
  String.length "122024" = 6%nat /\ isdigit "122024" = true
  /\ extraer_mes_anio "122024" = extraer_mes_anio "122024"
  /\ "122024" = "122024" /\ extraer_mes_anio "122024" <> "Desconocido".
Proof.
  split; [reflexivity|]; split; [reflexivity|]; split; [reflexivity|].
  exact (extraer_mes_anio_identifica "122024" "122024" eq_refl eq_refl eq_refl).
Defined.

End CarpetasExtra.

(** ** More on the trend classifier *)

Module TendenciaExtra.
Import Tendencia TendenciaProps.

Open Scope Q_scope.

Lemma Qle_bool_false a b : Qle_bool a b = false -> b < a.
Proof.
  intros H; apply Qnot_le_lt; intros Hle.
  apply Qle_bool_iff in Hle; congruence.
Qed.

Lemma por_porcentaje_creciente p q :
  Qabs p <= Qabs q ->
  (severidad (por_porcentaje p) <= severidad (por_porcentaje q))%nat.
Proof.
  intros H; unfold por_porcentaje.
  destruct (Qle_bool (Qabs p) 10) eqn:P1;
    destruct (Qle_bool (Qabs q) 10) eqn:Q1;
    destruct (Qle_bool (Qabs p) 30) eqn:P2;
    destruct (Qle_bool (Qabs q) 30) eqn:Q2;
    destruct (Qle_bool (Qabs p) 50) eqn:P3;
    destruct (Qle_bool (Qabs q) 50) eqn:Q3;
    cbn [severidad]; try lia; exfalso;
    repeat match goal with
           | H : Qle_bool _ _ = true |- _ => apply Qle_bool_iff in H
           | H : Qle_bool _ _ = false |- _ => apply Qle_bool_false in H
           end; lra.
Qed.

(** X3.  For the same row counts and floor, a percentage of larger
    absolute value is never put in a milder bucket; in particular the
    bucket does not depend on the sign of the percentage, and it is never
    the label kept for rows without comparison. *)
Theorem clasificar_tendencia_creciente :
  forall (p q : Q) (filas_actual filas_base : option Q) (umbral : Q),
    Qabs p <= Qabs q ->
    (severidad (clasificar_tendencia p filas_actual filas_base umbral)
     <= severidad (clasificar_tendencia q filas_actual filas_base umbral))%nat
    /\ clasificar_tendencia (- p) filas_actual filas_base umbral
       = clasificar_tendencia p filas_actual filas_base umbral
    /\ clasificar_tendencia p filas_actual filas_base umbral <> SinComparacion.
Proof.
  intros p q fa fb umbral H.
  assert (Hopp : Qabs (- p) = Qabs p).
  { destruct p as [n d]; unfold Qabs, Qopp; cbn [Qnum Qden].
    now rewrite Z.abs_opp. }
  split; [|split].
  - unfold clasificar_tendencia.
    destruct (menor_que_umbral fa umbral || menor_que_umbral fb umbral);
      [lia|].
    now apply por_porcentaje_creciente.
  - unfold clasificar_tendencia; now rewrite Hopp.
  - unfold clasificar_tendencia.
    destruct (_ || _); [discriminate|].
    destruct (Qle_bool (Qabs p) 10); [discriminate|].
    destruct (Qle_bool (Qabs p) 30); [discriminate|].
    destruct (Qle_bool (Qabs p) 50); discriminate.
Qed.

(** X3 on the percentages 12 and -45 of a file of 100 rows. *)
Lemma clasificar_tendencia_creciente_testigo :
  Qabs 12 <= Qabs (-45)
  /\ (severidad (clasificar_tendencia 12%Q (Some 100%Q) (Some 100%Q) 10%Q)
      <= severidad
           (clasificar_tendencia (-45)%Q (Some 100%Q) (Some 100%Q) 10%Q))%nat.
Proof.
  assert (H : Qabs 12 <= Qabs (-45)) by discriminate.
  split; [exact H|].
  exact (proj1 (clasificar_tendencia_creciente 12 (-45) (Some 100) (Some 100)
                  10 H)).
Defined.

Lemma clasificar_no_sin_comparacion p fa fb umbral :
  clasificar_tendencia p fa fb umbral <> SinComparacion.
Proof.
  unfold clasificar_tendencia.
  destruct (_ || _); [discriminate|].
  destruct (Qle_bool (Qabs p) 10); [discriminate|].
  destruct (Qle_bool (Qabs p) 30); [discriminate|].
  destruct (Qle_bool (Qabs p) 50); discriminate.
Qed.

(** X4.  The comparison with the previous month reports no comparison
    exactly when no reference value was found or the reference is zero, and
    it reports a null percentage exactly in that case and when both values
    are below 10. *)
Theorem tendencia_vs_anterior_sin_valor :
  forall (actual : Q) (anterior : option Q) (umbral : Q),
    (snd (tendencia_vs_anterior actual anterior umbral) = SinComparacion
     <-> match anterior with
         | None => True
         | Some ant => ant == 0
         end)
    /\ (fst (tendencia_vs_anterior actual anterior umbral) = None
        <-> match anterior with
            | None => True
            | Some ant => ant == 0 \/ (ant < 10 /\ actual < 10)
            end).
Proof.
  intros actual [ant|] umbral; cbn [tendencia_vs_anterior];
    [|split; split; auto].
  destruct (Qeq_bool ant 0) eqn:Ez.
  - apply Qeq_bool_iff in Ez; split; split; auto.
  - assert (Hz : ~ ant == 0)
      by (intros H; apply Qeq_bool_iff in H; congruence).
    destruct (Qlt_bool ant 10 && Qlt_bool actual 10) eqn:Ep; cbn [fst snd].
    + apply andb_true_iff in Ep as [H1 H2].
      apply Qlt_bool_iff in H1, H2.
      split; split; auto; [discriminate|contradiction].
    + split; split; try discriminate.
      * intros H; now apply clasificar_no_sin_comparacion in H.
      * contradiction.
      * intros [H|[H1 H2]]; [contradiction|].
        apply Qlt_bool_iff in H1, H2; rewrite H1, H2 in Ep; discriminate.
Qed.

Lemma redondeo_par_cerca y :
  Qabs (inject_Z (redondeo_par y) - y) <= 1 # 2.
Proof.
  unfold redondeo_par.
  pose proof (Qfloor_le y) as Hle.
  pose proof (Qlt_floor y) as Hlt.
  rewrite inject_Z_plus in Hlt; change (inject_Z 1) with 1 in Hlt.
  apply Qabs_Qle_condition.
  destruct (Qcompare_spec (y - inject_Z (Qfloor y)) (1 # 2)) as [E|L|G].
  - destruct (Z.even (Qfloor y));
      [|rewrite inject_Z_plus; change (inject_Z 1) with 1]; split; lra.
  - split; lra.
  - rewrite inject_Z_plus; change (inject_Z 1) with 1; split; lra.
Qed.

Lemma round_2_cerca x : Qabs (round_2 x - x) <= 1 # 200.
Proof.
  unfold round_2.
  pose proof (redondeo_par_cerca (x * 100)) as H.
  apply Qabs_Qle_condition in H; apply Qabs_Qle_condition.
  destruct H as [H1 H2].
  assert (E : inject_Z (redondeo_par (x * 100)) / 100
              == inject_Z (redondeo_par (x * 100)) * (1 # 100)) by field.
  rewrite E; split; lra.
Qed.

(** X5.  A percentage reported by the comparison with the historical mean
    or with the previous month is within half a hundredth of the exact
    percentage of change. *)
Theorem porcentaje_informado_cerca :
  forall (actual referencia umbral pct : Q) (c : clasificacion),
    tendencia_vs_historico actual (Some referencia) umbral = (Some pct, c)
    \/ tendencia_vs_anterior actual (Some referencia) umbral = (Some pct, c) ->
    ~ referencia == 0
    /\ Qabs (pct - 100 * (actual - referencia) / referencia) <= 1 # 200.
Proof.
  intros actual ref umbral pct c H.
  assert (Hz : ~ ref == 0).
  { intros Hz; apply Qeq_bool_iff in Hz.
    destruct H as [H|H]; cbn [tendencia_vs_historico tendencia_vs_anterior] in H;
      rewrite Hz in H; discriminate. }
  split; [exact Hz|].
  assert (Hp : pct = round_2 (100 * (actual - ref) / ref)).
  { rewrite <- (round_2_comp _ _ (porcentaje_forma ref actual Hz)).
    destruct H as [H|H]; cbn [tendencia_vs_historico tendencia_vs_anterior] in H;
      rewrite (Qeq_bool_no_cero _ Hz) in H.
    - now injection H as <- _.
    - destruct (Qlt_bool ref 10 && Qlt_bool actual 10); [discriminate|].
      now injection H as <- _. }
  rewrite Hp; apply round_2_cerca.
Qed.

(** X5 on 7 rows against a mean of 3. *)
Lemma porcentaje_informado_cerca_testigo :
  (tendencia_vs_historico 7 (Some 3) 10 = (Some (13333 # 100), CambioLeve)
   \/ tendencia_vs_anterior 7 (Some 3) 10 = (Some (13333 # 100), CambioLeve))
  /\ ~ 3 == 0
  /\ Qabs ((13333 # 100) - 100 * (7 - 3) / 3) <= 1 # 200.
Proof.
  assert (H : tendencia_vs_historico 7 (Some 3) 10
              = (Some (13333 # 100), CambioLeve)
              \/ tendencia_vs_anterior 7 (Some 3) 10
                 = (Some (13333 # 100), CambioLeve)).
  { left; reflexivity. }
  split; [exact H|].
  exact (porcentaje_informado_cerca 7 3 10 (13333 # 100) CambioLeve H).
Defined.

End TendenciaExtra.

(** ** More on the sanitizer and the extraction *)

Module ComprimidosProps.
Import Texto TextoProps Sanitizador SanitizadorProps Comprimidos.

Lemma replace_sin_cambio viejo nuevo s :
  contiene viejo s = false -> replace viejo nuevo s = s.
Proof.
  induction s as [|c r IH]; simpl; intros H; [reflexivity|].
  apply orb_false_iff in H as [Hc Hr].
  now rewrite Hc, IH.
Qed.

Lemma partes_de_saneado nombre :
  partes (_sanitize_zipinfo_name nombre) = partes nombre.
Proof.
  unfold partes at 1.
  rewrite (replace_sin_cambio _ _ _ (sanitize_sin_contrabarra nombre)).
  rewrite (sanitize_sin_inicio barra nombre (or_introl eq_refl)).
  rewrite split_sanitize.
  destruct (partes nombre) as [|p ps] eqn:E; [reflexivity|].
  rewrite <- E; apply LecturaProps.filter_todas.
  apply forallb_forall; intros q Hq.
  apply partes_ok in Hq as (H1 & H2 & _).
  unfold es_parte_segura.
  apply String.eqb_neq in H1, H2; now rewrite H1, H2.
Qed.

(** X6.  Sanitizing is idempotent: a sanitized name is left as it is, and
    so is every name made of components without separators that are
    neither empty nor [..]. *)
Theorem sanitize_zipinfo_name_idempotente :
  forall nombre : string,
    _sanitize_zipinfo_name (_sanitize_zipinfo_name nombre)
    = _sanitize_zipinfo_name nombre
    /\ forall parts : list string,
         (forall p, In p parts ->
                    es_parte_segura p = true /\ contiene barra p = false
                    /\ contiene contrabarra p = false) ->
         _sanitize_zipinfo_name (join barra parts) = join barra parts.
Proof.
  intros nombre; split.
  - rewrite (sanitize_partes (_sanitize_zipinfo_name nombre)).
    now rewrite partes_de_saneado, <- sanitize_partes.
  - intros parts Hp.
    assert (Hcb : contiene contrabarra (join barra parts) = false).
    { apply contiene_join; [apply barra_contrabarra|].
      intros p Hin; now apply Hp. }
    rewrite sanitize_partes; unfold partes.
    rewrite (replace_sin_cambio _ _ _ Hcb).
    destruct parts as [|p ps]; [reflexivity|].
    assert (Hsplit : split barra (join barra (p :: ps)) = p :: ps).
    { apply split_join; [discriminate|].
      intros q Hq; now apply Hp. }
    assert (Hini : startswith barra (join barra (p :: ps)) = false).
    { rewrite startswith_join.
      - apply startswith_contiene, Hp; now left.
      - destruct (Hp p (or_introl eq_refl)) as (Hs & _).
        unfold es_parte_segura in Hs.
        apply andb_true_iff in Hs as [Hs _].
        now apply negb_true_iff, String.eqb_neq in Hs. }
    rewrite Hini, Hsplit.
    rewrite LecturaProps.filter_todas; [reflexivity|].
    apply forallb_forall; intros q Hq; now apply Hp.
Qed.

Lemma bucle_zip_resultado os_path_join exito dest miembros :
  forall hechas,
    match snd (bucle_zip os_path_join exito dest hechas miembros) with
    | Some extraidos =>
        extraidos
        = map (fun m => os_path_join dest
                          (_sanitize_zipinfo_name (filename m)))
              (filter da_descriptor miembros)
        /\ fst (bucle_zip os_path_join exito dest hechas miembros)
           = flat_map (operaciones_de os_path_join dest)
               (filter entrada_no_vacia miembros)
    | None =>
        exists antes op,
          fst (bucle_zip os_path_join exito dest hechas miembros)
          = antes ++ [op]
          /\ exito (hechas ++ antes) op = false
    end.
Proof.
  induction miembros as [|m ms IH]; intros hechas; [now split|].
  assert (Hn : entrada_no_vacia m
               = negb (_sanitize_zipinfo_name (filename m) =? ""))
    by reflexivity.
  assert (Hd : da_descriptor m = entrada_no_vacia m && negb (is_dir m))
    by reflexivity.
  cbn [bucle_zip filter]; rewrite Hd, Hn; clear Hd Hn.
  destruct (_sanitize_zipinfo_name (filename m) =? "") eqn:Ev;
    cbn [negb andb]; [apply IH|].
  destruct (exito hechas _) eqn:E1; cbn [negb snd fst].
  2:{ exists [], (CrearCarpetaPadre
                    (os_path_join dest (_sanitize_zipinfo_name (filename m)))).
      now rewrite app_nil_r. }
  destruct (exito (hechas ++ _) _) eqn:E2; cbn [negb snd fst].
  2:{ eexists [_], _; split; [reflexivity|exact E2]. }
  match goal with
  | |- context [bucle_zip _ _ _ ?h ms] => specialize (IH h)
  end.
  destruct (bucle_zip os_path_join exito dest _ ms) as [ops ex];
    cbn [fst snd] in *.
  unfold operaciones_de at 1; cbn [flat_map app].
  destruct (is_dir m); cbn [negb map option_map];
    (destruct ex as [ex|]; cbn [option_map];
     [destruct IH as [-> ->]; now split|]);
    destruct IH as (antes & op & -> & Hf);
    match goal with
    | |- exists a o, ?x :: ?y :: _ = _ /\ _ =>
        exists (x :: y :: antes), op; split; [reflexivity|];
        now rewrite <- app_assoc in Hf
    end.
Qed.

Lemma bucle_zip_exitos os_path_join exito dest miembros :
  forall hechas antes op despues,
    fst (bucle_zip os_path_join exito dest hechas miembros)
    = antes ++ op :: despues ->
    despues <> []
    \/ snd (bucle_zip os_path_join exito dest hechas miembros) <> None ->
    exito (hechas ++ antes) op = true.
Proof.
  induction miembros as [|m ms IH]; intros hechas antes op despues;
    cbn [bucle_zip].
  { cbn [fst]; intros H; now destruct antes. }
  destruct (_sanitize_zipinfo_name (filename m) =? ""); [apply IH|].
  destruct (exito hechas _) eqn:E1; cbn [negb snd fst].
  2:{ intros H [Hd|Hn]; [|now elim Hn].
      destruct antes as [|x [|y antes]]; inversion H; subst; now elim Hd. }
  destruct (exito (hechas ++ _) _) eqn:E2; cbn [negb snd fst].
  2:{ intros H [Hd|Hn]; [|now elim Hn].
      destruct antes as [|x [|y [|z antes]]]; inversion H; subst.
      - now rewrite app_nil_r.
      - now elim Hd. }
  match goal with
  | |- context [bucle_zip _ _ _ ?h ms] => specialize (IH h)
  end.
  destruct (bucle_zip os_path_join exito dest _ ms) as [ops ex];
    cbn [fst snd] in *.
  intros H Hd.
  destruct antes as [|x [|y antes]]; inversion H; subst.
  - now rewrite app_nil_r.
  - exact E2.
  - specialize (IH antes op despues eq_refl).
    rewrite <- app_assoc in IH; apply IH.
    destruct Hd as [Hd|Hd]; [now left|right].
    destruct (is_dir m); [exact Hd|now destruct ex].
Qed.

Lemma bucle_zip_total os_path_join exito dest miembros :
  (forall hechas op, exito hechas op = true) ->
  forall hechas,
    snd (bucle_zip os_path_join exito dest hechas miembros) <> None.
Proof.
  intros Hex; induction miembros as [|m ms IH]; intros hechas;
    cbn [bucle_zip]; [discriminate|].
  destruct (_ =? ""); [apply IH|].
  rewrite !Hex; cbn [negb].
  match goal with
  | |- context [bucle_zip _ _ _ ?h ms] => specialize (IH h)
  end.
  destruct (bucle_zip os_path_join exito dest _ ms) as [ops ex];
    cbn [snd] in *.
  destruct (is_dir m); [exact IH|now destruct ex].
Qed.

(** X7.  The zip branch either ends with a list of paths or stops at the
    first operation that fails, which ends the extraction with an error.
    When it ends, it has attempted, for each member whose sanitized name
    is not empty and in the order of the archive, the creation of the
    parent folder and then of the folder or the file, every one with
    success, and it returns, of the members that are not directory
    entries, the sanitized names joined under the destination that exist
    afterwards.  When it stops, the last operation attempted is the one
    that failed and every one before it succeeded.  It ends whenever no
    operation fails. *)
Theorem extraer_zip_descriptores :
  forall (os_path_join : string -> string -> string)
         (exito : list operacion -> operacion -> bool)
         (existe : string -> bool)
         (dest_dir : string) (miembros : list ZipInfo),
    match snd (extraer_zip os_path_join exito existe dest_dir miembros) with
    | Some extraidos =>
        extraidos
        = filter existe
            (map (fun m => os_path_join dest_dir
                             (_sanitize_zipinfo_name (filename m)))
                 (filter da_descriptor miembros))
        /\ fst (extraer_zip os_path_join exito existe dest_dir miembros)
           = flat_map (operaciones_de os_path_join dest_dir)
               (filter entrada_no_vacia miembros)
        /\ (forall antes op despues,
              fst (extraer_zip os_path_join exito existe dest_dir miembros)
              = antes ++ op :: despues ->
              exito antes op = true)
    | None =>
        exists antes op,
          fst (extraer_zip os_path_join exito existe dest_dir miembros)
          = antes ++ [op]
          /\ exito antes op = false
          /\ (forall a o d, antes = a ++ o :: d -> exito a o = true)
    end
    /\ ((forall hechas op, exito hechas op = true) ->
        snd (extraer_zip os_path_join exito existe dest_dir miembros)
        <> None).
Proof.
  intros os_path_join exito existe dest_dir miembros.
  pose proof (bucle_zip_resultado os_path_join exito dest_dir miembros [])
    as Hr.
  pose proof (bucle_zip_exitos os_path_join exito dest_dir miembros [])
    as He.
  pose proof (fun H => bucle_zip_total os_path_join exito dest_dir miembros
                         H []) as Ht.
  unfold extraer_zip.
  destruct (bucle_zip os_path_join exito dest_dir [] miembros) as [ops ex];
    cbn [fst snd app] in *.
  split.
  - destruct ex as [ex|]; cbn [option_map].
    + destruct Hr as [-> Hops]; split; [reflexivity|]; split; [exact Hops|].
      intros antes op despues H; apply (He antes op despues H).
      right; discriminate.
    + destruct Hr as (antes & op & -> & Hf).
      exists antes, op; split; [reflexivity|]; split; [exact Hf|].
      intros a o d ->; apply (He a o (d ++ [op])).
      * now rewrite <- app_assoc.
      * left; now destruct d.
  - intros H; specialize (Ht H); now destruct ex.
Qed.

Lemma bucle_tar_confinado exito dest miembros :
  forall hechas,
    Forall (fun op => exists resto,
                normpath_comps (ruta_de op) = normpath_comps dest ++ resto)
           (fst (bucle_tar path_join exito dest hechas miembros)).
Proof.
  induction miembros as [|m ms IH]; intros hechas; cbn [bucle_tar];
    [constructor|].
  destruct (isreg m); cbn [negb]; [|apply IH].
  destruct (negb (exito hechas _));
    [cbn [fst]; constructor; [apply sanitize_confinado|constructor]|].
  destruct (extractfile m) as [f|].
  - destruct (negb (exito (hechas ++ _) _)).
    + cbn [fst]; repeat (constructor; [apply sanitize_confinado|]).
      constructor.
    + match goal with
      | |- context [bucle_tar _ _ _ ?h ms] => specialize (IH h)
      end.
      destruct (bucle_tar path_join exito dest _ ms) as [ops ex];
        cbn [fst] in *.
      repeat (constructor; [apply sanitize_confinado|]); exact IH.
  - match goal with
    | |- context [bucle_tar _ _ _ ?h ms] => specialize (IH h)
    end.
    destruct (bucle_tar path_join exito dest _ ms) as [ops ex];
      cbn [fst] in *.
    constructor; [apply sanitize_confinado|exact IH].
Qed.

Lemma bucle_tar_filtra os_path_join exito dest miembros :
  forall hechas,
    bucle_tar os_path_join exito dest hechas miembros
    = bucle_tar os_path_join exito dest hechas (filter isreg miembros).
Proof.
  induction miembros as [|m ms IH]; intros hechas; [reflexivity|].
  cbn [bucle_tar filter].
  destruct (isreg m) eqn:E; cbn [negb bucle_tar]; [|apply IH].
  rewrite E; cbn [negb].
  destruct (negb (exito hechas _)); [reflexivity|].
  destruct (extractfile m) as [f|].
  - destruct (negb (exito (hechas ++ _) _)); [reflexivity|].
    now rewrite IH.
  - now rewrite IH.
Qed.

(** The loop over a list of members whose first part is extracted without
    failure goes on with the rest, after the operations of that part. *)
Lemma bucle_tar_app os_path_join exito dest antes resto :
  forall hechas ops ex,
    bucle_tar os_path_join exito dest hechas antes = (ops, Some ex) ->
    bucle_tar os_path_join exito dest hechas (antes ++ resto)
    = (ops ++ fst (bucle_tar os_path_join exito dest (hechas ++ ops) resto),
       option_map (app ex)
         (snd (bucle_tar os_path_join exito dest (hechas ++ ops) resto))).
Proof.
  induction antes as [|m ms IH]; intros hechas ops ex; cbn [bucle_tar app].
  { intros H; inversion H; subst; cbn [app]; rewrite app_nil_r.
    destruct (bucle_tar os_path_join exito dest hechas resto) as [o [e|]];
      reflexivity. }
  destruct (isreg m); cbn [negb]; [|apply IH].
  destruct (negb (exito hechas _)); [discriminate|].
  destruct (extractfile m) as [f|].
  - destruct (negb (exito (hechas ++ _) _)); [discriminate|].
    match goal with
    | |- context [bucle_tar _ _ _ ?h ms] => specialize (IH h)
    end.
    destruct (bucle_tar os_path_join exito dest _ ms) as [o1 [e1|]];
      [|discriminate].
    intros H; inversion H; subst; clear H.
    rewrite (IH o1 e1 eq_refl), <- !app_assoc; cbn [app fst snd].
    destruct (snd _); reflexivity.
  - match goal with
    | |- context [bucle_tar _ _ _ ?h ms] => specialize (IH h)
    end.
    destruct (bucle_tar os_path_join exito dest _ ms) as [o1 [e1|]];
      [|discriminate].
    intros H; inversion H; subst; clear H.
    now rewrite (IH o1 ex eq_refl), <- !app_assoc.
Qed.

Lemma join_vacio_es_destino dest :
  normpath_comps (path_join dest "") = normpath_comps dest.
Proof.
  unfold path_join; cbn [startswith].
  destruct ((dest =? "") || endswith barra dest) eqn:E.
  - now rewrite LecturaProps.app_nil_str.
  - apply orb_false_iff in E as [Ed _]; apply String.eqb_neq in Ed.
    unfold normpath_comps.
    rewrite resolver_barra_final.
    now rewrite startswith_app.
Qed.

(** X8.  Every operation that the tar branch attempts is on a path that
    resolves under the destination; only regular members are written. *)
Theorem extraer_tar_seguro :
  forall (exito : list operacion -> operacion -> bool)
         (existe : string -> bool)
         (dest_dir : string) (miembros : list TarInfo),
    Forall (fun op => exists resto,
                normpath_comps (ruta_de op)
                = normpath_comps dest_dir ++ resto)
           (fst (extraer_tar path_join exito existe dest_dir miembros))
    /\ extraer_tar path_join exito existe dest_dir miembros
       = extraer_tar path_join exito existe dest_dir
           (filter isreg miembros).
Proof.
  intros exito existe dest_dir miembros; unfold extraer_tar; split.
  - pose proof (bucle_tar_confinado exito dest_dir miembros []) as H.
    now destruct (bucle_tar path_join exito dest_dir [] miembros).
  - now rewrite bucle_tar_filtra.
Qed.

(** X9.  A regular tar member whose name sanitizes to the empty string is
    not skipped.  When the members before it are extracted without failure
    and the folder of the destination can be created, the branch attempts
    to write the member's content at the destination joined with the empty
    name, a path that resolves to the destination directory itself; when
    that write fails the extraction ends with an error there, and no later
    member is attempted.  The zip branch does nothing for a member of that
    name. *)
Theorem extraer_tar_nombre_vacio :
  forall (exito : list operacion -> operacion -> bool)
         (existe : string -> bool)
         (dest_dir : string) (antes despues : list TarInfo) (m : TarInfo)
         (f : string) (ops : list operacion) (ex : list string),
    isreg m = true -> extractfile m = Some f ->
    _sanitize_zipinfo_name (name m) = "" ->
    bucle_tar path_join exito dest_dir [] antes = (ops, Some ex) ->
    exito ops (CrearCarpetaPadre (path_join dest_dir "")) = true ->
    In (EscribirArchivo (path_join dest_dir "") f)
       (fst (extraer_tar path_join exito existe dest_dir
               (antes ++ m :: despues)))
    /\ normpath_comps (path_join dest_dir "") = normpath_comps dest_dir
    /\ (exito (ops ++ [CrearCarpetaPadre (path_join dest_dir "")])
          (EscribirArchivo (path_join dest_dir "") f) = false ->
        extraer_tar path_join exito existe dest_dir (antes ++ m :: despues)
        = (ops ++ [CrearCarpetaPadre (path_join dest_dir "");
                   EscribirArchivo (path_join dest_dir "") f],
           None))
    /\ extraer_zip path_join exito existe dest_dir
         [{| filename := name m; datos := f |}]
       = ([], Some []).
Proof.
  intros exito existe dest_dir antes despues m f ops ex Hreg Hf Hvacio
         Hantes Hp.
  unfold extraer_tar.
  rewrite (bucle_tar_app path_join exito dest_dir antes (m :: despues)
             [] ops ex Hantes).
  cbn [app bucle_tar]; rewrite Hreg, Hf, Hvacio, Hp; cbn [negb].
  split; [|split; [apply join_vacio_es_destino|split]].
  - apply in_or_app; right.
    destruct (exito (ops ++ _) _); cbn [negb fst]; [|right; now left].
    destruct (bucle_tar path_join exito dest_dir _ despues);
      cbn [fst]; right; now left.
  - intros ->; reflexivity.
  - unfold extraer_zip; cbn [bucle_zip filename]; now rewrite Hvacio.
Qed.

(** X9 on a regular member named [../] followed by another member, under
    the destination [tmp/x], on a file system where the write at the path
    of the folder fails. *)
Lemma extraer_tar_nombre_vacio_testigo :
  _sanitize_zipinfo_name "../" = ""
  /\ In (EscribirArchivo "tmp/x/" "abc")
        (fst (extraer_tar path_join (falla_escribir_en "tmp/x/") todo_existe
                "tmp/x"
                [{| name := "../"; isreg := true;
                    extractfile := Some "abc" |};
                 {| name := "b.csv"; isreg := true;
                    extractfile := Some "x" |}]))
  /\ extraer_tar path_join (falla_escribir_en "tmp/x/") todo_existe "tmp/x"
       [{| name := "../"; isreg := true; extractfile := Some "abc" |};
        {| name := "b.csv"; isreg := true; extractfile := Some "x" |}]
     = ([CrearCarpetaPadre "tmp/x/"; EscribirArchivo "tmp/x/" "abc"], None).
Proof.
  split; [reflexivity|].
  destruct (extraer_tar_nombre_vacio (falla_escribir_en "tmp/x/") todo_existe
              "tmp/x" []
              [{| name := "b.csv"; isreg := true; extractfile := Some "x" |}]
              {| name := "../"; isreg := true; extractfile := Some "abc" |}
              "abc" [] [] eq_refl eq_refl eq_refl eq_refl eq_refl)
    as (H1 & _ & H3 & _).
  split; [exact H1|exact (H3 eq_refl)].
Defined.

End ComprimidosProps.

(** ** More on the reader and the row count *)

Module LecturaExtra.
Import Texto TextoProps Lectura LecturaProps Worker.

Lemma probar_codificaciones_coma r texto df enc encs :
  read_csv enc coma texto = Ok df ->
  probar_codificaciones r texto (enc :: encs) = Ok df.
Proof.
  intros H; cbn [probar_codificaciones probar_separadores].
  rewrite H; unfold coma at 1; rewrite Ascii.eqb_refl, orb_true_r.
  reflexivity.
Qed.

(** X10.  For a delimited text file under the streaming threshold the
    parse with the comma is returned whenever it does not raise, also when
    it gives a single column: the semicolon and the tabulator are tried
    only after the comma failed. *)
Theorem leer_archivo_generico_prefiere_coma :
  forall (a : archivo) (df : DataFrame),
    es_delimitado a = true ->
    (getsize a <= umbral_streaming_bytes)%Z ->
    read_csv "utf-8-sig" coma (contenido a) = Ok df ->
    leer_archivo_generico a = Ok df.
Proof.
  intros a df Hd Hs Hr.
  rewrite (leer_lectura_completa a Hd Hs).
  now apply probar_codificaciones_coma.
Qed.

(** X10 on a file that uses the semicolon: it comes back as one column. *)
Lemma leer_archivo_generico_prefiere_coma_testigo :
  es_delimitado (fichero (item_de "p.csv" (texto_de_lineas ["a;b"; "1;2"]) 1))
  = true
  /\ (getsize (fichero (item_de "p.csv" (texto_de_lineas ["a;b"; "1;2"]) 1))
      <= umbral_streaming_bytes)%Z
  /\ leer_archivo_generico
       (fichero (item_de "p.csv" (texto_de_lineas ["a;b"; "1;2"]) 1))
     = Ok {| columns := ["a;b"]; filas := [[Texto "1;2"]] |}.
Proof.
  assert (Hs : (getsize (fichero (item_de "p.csv"
                                    (texto_de_lineas ["a;b"; "1;2"]) 1))
                <= umbral_streaming_bytes)%Z) by discriminate.
  split; [reflexivity|]; split; [exact Hs|].
  exact (leer_archivo_generico_prefiere_coma
           (fichero (item_de "p.csv" (texto_de_lineas ["a;b"; "1;2"]) 1))
           {| columns := ["a;b"]; filas := [[Texto "1;2"]] |}
           eq_refl Hs eq_refl).
Defined.

Lemma lineas_utiles_vacias sep n : lineas_utiles sep (lineas_vacias n) = [].
Proof.
  unfold lineas_utiles; rewrite split_lineas_vacias; apply filter_vacias.
Qed.

Lemma probar_separadores_vacias r n enc seps :
  probar_separadores r (lineas_vacias n) enc seps = None.
Proof.
  induction seps as [|sep seps IH]; [reflexivity|].
  cbn [probar_separadores]; unfold read_csv.
  now rewrite lineas_utiles_vacias.
Qed.

(** X11.  A delimited text file that holds nothing but line ends (an empty
    file included) cannot be read under the streaming threshold: the
    reader raises and the worker records zero rows.  Over the threshold
    the same content is given one row per line after the first. *)
Theorem leer_archivo_generico_sin_lineas :
  forall (a : archivo) (n : nat),
    es_delimitado a = true ->
    contenido a = lineas_vacias n ->
    ((Z.of_nat n <= umbral_streaming_bytes)%Z ->
     leer_archivo_generico a = Error ("No se pudo leer CSV/TXT " ++ ruta a)
     /\ filas_validas_de (leer_archivo_generico a) = Some 0%Z)
    /\ ((umbral_streaming_bytes < Z.of_nat n)%Z ->
        filas_validas_de (leer_archivo_generico a)
        = Some (Z.of_nat n - 1)%Z).
Proof.
  intros a n Hd Hc.
  assert (Hsize : getsize a = Z.of_nat n)
    by (unfold getsize; now rewrite Hc, length_lineas_vacias).
  split; intros Hn.
  - assert (He : leer_archivo_generico a
                 = Error ("No se pudo leer CSV/TXT " ++ ruta a)).
    { rewrite (leer_lectura_completa a Hd) by (rewrite Hsize; exact Hn).
      rewrite Hc; cbn [probar_codificaciones].
      now rewrite !probar_separadores_vacias. }
    split; [exact He|now rewrite He].
  - rewrite (leer_modo_rapido a Hd) by (rewrite Hsize; exact Hn).
    cbn [filas_validas_de]; rewrite contar_marco_filas, Hc.
    now rewrite contar_lineas_vacias.
Qed.

(** X11 on an empty file. *)
Lemma leer_archivo_generico_sin_lineas_testigo :
  es_delimitado (fichero (item_de "vacio.csv" "" 0)) = true
  /\ contenido (fichero (item_de "vacio.csv" "" 0)) = lineas_vacias 0
  /\ (Z.of_nat 0 <= umbral_streaming_bytes)%Z
  /\ leer_archivo_generico (fichero (item_de "vacio.csv" "" 0))
     = Error "No se pudo leer CSV/TXT vacio.csv".
Proof.
  assert (Hn : (Z.of_nat 0 <= umbral_streaming_bytes)%Z) by discriminate.
  split; [reflexivity|]; split; [reflexivity|]; split; [exact Hn|].
  exact (proj1 (proj1 (leer_archivo_generico_sin_lineas
                         (fichero (item_de "vacio.csv" "" 0)) 0
                         eq_refl eq_refl) Hn)).
Defined.

Lemma filter_particion {A} (f : A -> bool) l :
  (List.length (filter f l) + List.length (filter (fun x => negb (f x)) l)
   = List.length l)%nat.
Proof.
  induction l as [|x l IH]; [reflexivity|].
  simpl; destruct (f x); simpl; lia.
Qed.

(** X12.  For a table that is not the one-cell frame of the fast mode the
    row count is the number of rows minus the rows whose cells are all
    missing: it is never negative and never more than the rows of the
    table.  The listing application records the number of rows of the
    table instead, blank rows included. *)
Theorem contar_filas_validas_acotado :
  forall (mes : string) (it : item) (df : DataFrame),
    leer_archivo_generico (fichero it) = Ok df ->
    existsb (String.eqb "__filas__") (columns df) = false ->
    exists n : Z,
      contar_filas_validas df = Some n
      /\ (0 <= n <= Z.of_nat (List.length (filas df)))%Z
      /\ (n + Z.of_nat (List.length (filter (forallb es_nulo) (filas df)))
          = Z.of_nat (List.length (filas df)))%Z
      /\ exists r, Lista.medir mes it = Ok r
                   /\ Lista.Cantidad_filas_listado r
                      = Entero (Z.of_nat (List.length (filas df))).
Proof.
  intros mes it df Hl Hc.
  exists (Z.of_nat (List.length (dropna_all (filas df)))).
  pose proof (filter_particion (forallb es_nulo) (filas df)) as Hp.
  fold (dropna_all (filas df)) in Hp.
  split; [unfold contar_filas_validas; now rewrite Hc|].
  split; [lia|]; split; [lia|].
  assert (Hpos : Lista.posicion "__filas__" (columns df) = None).
  { clear Hl Hp; induction (columns df) as [|c cs IH]; [reflexivity|].
    cbn [existsb Lista.posicion] in *.
    apply orb_false_iff in Hc as [Hc1 Hc2].
    rewrite String.eqb_sym, Hc1, (IH Hc2); reflexivity. }
  unfold Lista.medir; rewrite Hl, Hpos; eexists; split; reflexivity.
Qed.

(** X12 on a file with a data row, an all-missing row and a short row. *)
Lemma contar_filas_validas_acotado_testigo :
  leer_archivo_generico
    (fichero (item_de "a.csv" (texto_de_lineas ["a,b"; "1,2"; ","; "x"]) 1))
  = Ok {| columns := ["a"; "b"];
          filas := [[Texto "1"; Texto "2"]; [Nulo; Nulo]; [Texto "x"; Nulo]] |}
  /\ existsb (String.eqb "__filas__") ["a"; "b"] = false
  /\ exists n : Z,
       contar_filas_validas
         {| columns := ["a"; "b"];
            filas := [[Texto "1"; Texto "2"]; [Nulo; Nulo];
                      [Texto "x"; Nulo]] |}
       = Some n
       /\ (0 <= n <= 3)%Z.
Proof.
  assert (H : leer_archivo_generico
                (fichero (item_de "a.csv"
                            (texto_de_lineas ["a,b"; "1,2"; ","; "x"]) 1))
              = Ok {| columns := ["a"; "b"];
                      filas := [[Texto "1"; Texto "2"]; [Nulo; Nulo];
                                [Texto "x"; Nulo]] |}) by reflexivity.
  split; [exact H|]; split; [reflexivity|].
  destruct (contar_filas_validas_acotado "012024"
              (item_de "a.csv" (texto_de_lineas ["a,b"; "1,2"; ","; "x"]) 1)
              _ H eq_refl) as (n & Hn & Hr & _).
  exists n; split; [exact Hn|exact Hr].
Defined.

End LecturaExtra.

(** ** More on the files of a month and the matcher *)

Module ArchivosDelMes.
Import Texto Carpetas Tendencia Lectura Worker WorkerProps Corridas.

Lemma sin_duplicados_dentro vistos items x :
  In x (sin_duplicados vistos items) ->
  In x items /\ ~ In (nombre_base x) vistos.
Proof.
  revert vistos; induction items as [|it r IH]; intros vistos H;
    [destruct H|].
  cbn [sin_duplicados] in H; fold (nombre_base it) in H.
  destruct (existsb (String.eqb (nombre_base it)) vistos) eqn:E.
  - destruct (IH _ H) as [H1 H2]; split; [now right|exact H2].
  - destruct H as [->|H].
    + split; [now left|].
      intros Hin.
      assert (existsb (String.eqb (nombre_base x)) vistos = true)
        by (apply existsb_exists; exists (nombre_base x); split;
            [exact Hin|apply String.eqb_refl]).
      congruence.
    + destruct (IH _ H) as [H1 H2]; split; [now right|].
      intros Hin; apply H2; now right.
Qed.

Lemma sin_duplicados_nodup vistos items :
  NoDup (map nombre_base (sin_duplicados vistos items)).
Proof.
  revert vistos; induction items as [|it r IH]; intros vistos;
    [constructor|].
  cbn [sin_duplicados]; fold (nombre_base it).
  destruct (existsb (String.eqb (nombre_base it)) vistos); [apply IH|].
  cbn [map]; constructor; [|apply IH].
  intros Hin; apply in_map_iff in Hin as (x & Hx & Hin).
  apply sin_duplicados_dentro in Hin as [_ Hn].
  apply Hn; left; now rewrite Hx.
Qed.

Lemma sin_duplicados_primero vistos pre it post :
  ~ In (nombre_base it) vistos ->
  (forall x, In x pre -> nombre_base x <> nombre_base it) ->
  In it (sin_duplicados vistos (pre ++ it :: post)).
Proof.
  revert vistos; induction pre as [|p pre IH]; intros vistos Hv Hpre.
  - cbn [app sin_duplicados]; fold (nombre_base it).
    destruct (existsb (String.eqb (nombre_base it)) vistos) eqn:E;
      [|now left].
    apply existsb_exists in E as (y & Hy & Heq).
    apply String.eqb_eq in Heq; subst y; contradiction.
  - cbn [app sin_duplicados]; fold (nombre_base p).
    assert (Hp : nombre_base p <> nombre_base it)
      by (apply Hpre; now left).
    destruct (existsb (String.eqb (nombre_base p)) vistos).
    + apply IH; [exact Hv|]; intros x Hx; apply Hpre; now right.
    + right; apply IH.
      * intros [H|H]; [congruence|contradiction].
      * intros x Hx; apply Hpre; now right.
Qed.

Lemma sin_duplicados_sin_cambio vistos items :
  NoDup (map nombre_base items) ->
  (forall x, In x items -> ~ In (nombre_base x) vistos) ->
  sin_duplicados vistos items = items.
Proof.
  revert vistos; induction items as [|it r IH]; intros vistos Hnd Hv;
    [reflexivity|].
  cbn [sin_duplicados]; fold (nombre_base it).
  inversion Hnd as [|? ? Hnotin Hnd']; subst.
  destruct (existsb (String.eqb (nombre_base it)) vistos) eqn:E.
  - apply existsb_exists in E as (y & Hy & Heq).
    apply String.eqb_eq in Heq; subst y.
    exfalso; apply (Hv it); [now left|exact Hy].
  - f_equal; apply IH; [exact Hnd'|].
    intros x Hx [H|H].
    + apply Hnotin; rewrite H; now apply in_map.
    + apply (Hv x); [now right|exact H].
Qed.

(** X13.  The files kept for a month have pairwise different base names;
    each is one of the files found; of the files that share a base name the
    first one found is kept; and removing the duplicates of the result
    changes nothing. *)
Theorem sin_duplicados_primera_aparicion :
  forall items : list item,
    NoDup (map nombre_base (sin_duplicados [] items))
    /\ incl (sin_duplicados [] items) items
    /\ (forall pre it post,
          items = pre ++ it :: post ->
          (forall x, In x pre -> nombre_base x <> nombre_base it) ->
          In it (sin_duplicados [] items))
    /\ sin_duplicados [] (sin_duplicados [] items) = sin_duplicados [] items.
Proof.
  intros items.
  split; [apply sin_duplicados_nodup|].
  split; [intros x Hx; now apply sin_duplicados_dentro in Hx|].
  split.
  - intros pre it post -> Hpre.
    apply sin_duplicados_primero; [intros []|exact Hpre].
  - apply sin_duplicados_sin_cambio; [apply sin_duplicados_nodup|].
    intros x _ [].
Qed.

Lemma numeros_desde_longitud c n : List.length (numeros_desde c n) = n.
Proof. revert c; induction n; intros c; simpl; [reflexivity|now rewrite IHn]. Qed.

(** X14.  The rows of a month are those of the files read, in their order
    and numbered consecutively from the first number: each row has the
    displayed name and the size of its file and carries the month.  All the
    files are read unless the cancellation is found. *)
Theorem leer_archivos_numera :
  forall (cancel_event : option nat) (mes : string) (archivos : list item)
         (k : nat) (c : Z) (datos_mes : list dato) (detalle : list nulo)
         (k' : nat),
    leer_archivos cancel_event mes archivos k c
    = Some (datos_mes, detalle, k') ->
    exists j,
      (j <= List.length archivos)%nat
      /\ List.length datos_mes = j
      /\ map Correlativo datos_mes = numeros_desde c j
      /\ map Nombre_archivo datos_mes
         = map nombre_mostrado (firstn j archivos)
      /\ map Tamano_KB datos_mes = map size_kb (firstn j archivos)
      /\ Forall (fun d => Carpeta_Mes d = Texto mes) datos_mes
      /\ (cancel_event = None -> j = List.length archivos).
Proof.
  intros cancel mes archivos.
  induction archivos as [|it r IH]; intros k c datos_mes detalle k' H;
    cbn [leer_archivos] in H.
  - injection H as <- _ _; exists 0%nat; repeat split; auto.
  - destruct (is_set cancel k) eqn:Ec.
    + injection H as <- _ _; exists 0%nat; repeat split; auto; try lia.
      intros ->; discriminate.
    + destruct (filas_validas_de _) as [fv|]; [|discriminate].
      destruct (leer_archivos cancel mes r (S k) (c + 1))
        as [[[d n] k'']|] eqn:E; [|discriminate].
      injection H as <- _ _.
      destruct (IH _ _ _ _ _ E) as (j & Hj & Hl & Hc & Hn & Hs & Hm & Hnone).
      exists (S j); cbn [List.length map firstn numeros_desde Correlativo
                         Nombre_archivo Tamano_KB].
      repeat split; try lia; try congruence.
      * constructor; [reflexivity|exact Hm].
      * intros Hcancel; now rewrite (Hnone Hcancel).
Qed.

(** X14 on two files read without cancellation. *)
Lemma leer_archivos_numera_testigo :
  leer_archivos None "012024" [ventas_csv; clientes_csv] 1 1
  = Some ([{| Correlativo := 1; Nombre_archivo := "ventas.csv";
              Tamano_KB := 1 # 2; Cantidad_filas := 2;
              Carpeta_Mes := Texto "012024" |};
           {| Correlativo := 2; Nombre_archivo := "clientes.csv";
              Tamano_KB := 1 # 4; Cantidad_filas := 1;
              Carpeta_Mes := Texto "012024" |}], [], 3%nat)
  /\ exists j, (j <= 2)%nat /\ (None = None :> option nat -> j = 2%nat).
Proof.
  assert (H : leer_archivos None "012024" [ventas_csv; clientes_csv] 1 1
              = Some ([{| Correlativo := 1; Nombre_archivo := "ventas.csv";
                          Tamano_KB := 1 # 2; Cantidad_filas := 2;
                          Carpeta_Mes := Texto "012024" |};
                       {| Correlativo := 2; Nombre_archivo := "clientes.csv";
                          Tamano_KB := 1 # 4; Cantidad_filas := 1;
                          Carpeta_Mes := Texto "012024" |}], [], 3%nat))
    by reflexivity.
  split; [exact H|].
  destruct (leer_archivos_numera None "012024" [ventas_csv; clientes_csv]
              1 1 _ _ _ H) as (j & Hj & _ & _ & _ & _ & _ & Hn).
  exists j; split; [exact Hj|exact Hn].
Defined.

Section Coincidencia.

Variable ratio : string -> string -> Q.

Lemma ultimo_dentro {A} (l : list A) x : ultimo l = Some x -> In x l.
Proof.
  induction l as [|y l IH]; [discriminate|].
  destruct l as [|z l']; [intros H; injection H as ->; now left|].
  intros H; right; now apply IH.
Qed.

(** X15.  A row matched for a file is a row of the ledger whose tag is
    the name of the previous folder as text, and its name is the file's
    name or has with it, both in lower case, a ratio of at least 0.8: the
    matcher never returns a row of another month, nor a row whose tag was
    read back from the store as a number. *)
Theorem buscar_fila_mes_anterior_del_mes :
  forall (h : list fila_historico) (mes_ant nombre_actual : string)
         (f : fila_historico),
    buscar_fila_mes_anterior ratio h mes_ant nombre_actual = Some f ->
    In f h /\ mes_de_fila f = Texto mes_ant
    /\ (nombre_de_fila f = nombre_actual
        \/ (8 # 10 <= ratio (lower (nombre_de_fila f)) (lower nombre_actual))%Q).
Proof.
  intros h mes_ant nombre f.
  rewrite buscar_fila_mes_anterior_filtra.
  pose proof (resolver_en_casos ratio (filter (es_del_mes mes_ant) h) nombre)
    as Hcasos.
  unfold umbral_similitud, calcular_similitud in Hcasos.
  intros Hf.
  assert (Hin : In f (filter (es_del_mes mes_ant) h)
                /\ (nombre_de_fila f = nombre
                    \/ (8 # 10 <= ratio (lower (nombre_de_fila f))
                                    (lower nombre))%Q)).
  { destruct (filter (fun g => nombre_de_fila g =? nombre)
                (filter (es_del_mes mes_ant) h)) as [|x xs] eqn:Ex.
    - rewrite Hf in Hcasos; destruct Hcasos as (Hin & Hsim & _); auto.
    - destruct Hcasos as (antes & g & Eg & Hg).
      rewrite Hf in Hg; injection Hg as <-.
      assert (Hing : In f (filter (fun g => nombre_de_fila g =? nombre)
                             (filter (es_del_mes mes_ant) h)))
        by (rewrite Ex, Eg; apply in_or_app; right; now left).
      apply filter_In in Hing as [Hing Hnom].
      apply String.eqb_eq in Hnom; auto. }
  destruct Hin as [Hin Hsim].
  apply filter_In in Hin as [Hin Hmes].
  apply igual_a_texto_iff in Hmes; auto.
Qed.

End Coincidencia.

(** X15 on a ledger with a row of January and a row read back from the
    store, for a file of the same name. *)
Lemma buscar_fila_mes_anterior_del_mes_testigo :
  buscar_fila_mes_anterior ratio_igualdad
    [fila_previa "012024" "ventas.csv" 5; fila_leida 12024 "ventas.csv" 7]
    "012024" "ventas.csv"
  = Some (fila_previa "012024" "ventas.csv" 5)
  /\ mes_de_fila (fila_previa "012024" "ventas.csv" 5) = Texto "012024".
Proof.
  assert (H : buscar_fila_mes_anterior ratio_igualdad
                [fila_previa "012024" "ventas.csv" 5;
                 fila_leida 12024 "ventas.csv" 7]
                "012024" "ventas.csv"
              = Some (fila_previa "012024" "ventas.csv" 5)) by reflexivity.
  split; [exact H|].
  exact (proj1 (proj2 (buscar_fila_mes_anterior_del_mes ratio_igualdad _ _ _ _ H))).
Defined.

End ArchivosDelMes.

(** ** More on a run of the worker *)

Module CorridaExtra.
Import Texto Carpetas CarpetasProps Tendencia Lectura Worker WorkerProps.
Import Corridas ArchivosDelMes.

Section Meses.

Variable ratio : string -> string -> Q.
Variable umbral : Q.

(** Without cancellation and with room on the disk every month is
    processed, and a summary is added for each month that has files. *)
Lemma bucle_meses_completo meses :
  forall e c,
    bucle_meses ratio None umbral e meses = Some c ->
    (forall p, In p meses -> snd p <> DetenidoPorEspacio) ->
    exists e',
      c = Sigue e'
      /\ map mes_y_filas (salidas e')
         = map mes_y_filas (salidas e)
           ++ map (fun p => (fst p, List.length (archivos_de (snd p))))
                (filter (fun p => tiene_archivos (snd p)) meses).
Proof.
  induction meses as [|[mes exp] resto IH]; intros e c H Hexp;
    cbn [bucle_meses] in H.
  - injection H as <-; exists e; split; [reflexivity|].
    cbn [filter map]; now rewrite app_nil_r.
  - assert (Hresto : forall p, In p resto -> snd p <> DetenidoPorEspacio)
      by (intros p Hp; apply Hexp; now right).
    pose proof (Hexp (mes, exp) (or_introl eq_refl)) as Hne; cbn [snd] in Hne.
    unfold procesar_mes in H; cbn [is_set] in H.
    destruct exp as [items|]; [|congruence].
    cbn [filter snd tiene_archivos].
    destruct (sin_duplicados [] items) as [|a archivos] eqn:Ea.
    + destruct (IH _ _ H Hresto) as (e' & -> & Hs).
      exists e'; split; [reflexivity|exact Hs].
    + destruct (leer_archivos None mes (a :: archivos) (S (consultas e)) 1)
        as [[[datos_mes detalle] k]|] eqn:El; [|discriminate].
      destruct (IH _ _ H Hresto) as (e' & -> & Hs).
      exists e'; split; [reflexivity|].
      rewrite Hs; cbn [salidas map fst snd archivos_de].
      rewrite map_app, <- app_assoc; cbn [map app].
      unfold mes_y_filas at 2; cbn [mes_salida resumen].
      rewrite length_map, (leer_archivos_longitud _ _ _ _ _ _ _ El), Ea.
      reflexivity.
Qed.

(** X16.  In a run that returns, is not cancelled and finds room to unpack
    every month, the ledger is written exactly when no dialog of the first
    step is declined and the base directory has a month folder; then one
    summary is written for each month folder that has files, in the order
    of the scanner, with one row per file of the month, and a month without
    files gets no summary.  After a declined dialog, or without month
    folders, nothing is written. *)
Theorem corrida_completa_resume_cada_mes :
  forall (listado : list entrada) (expandir : string -> expansion)
         (base : almacen) (f : fin),
    worker_procesar ratio None umbral listado expandir base = Some f ->
    (forall m, In m (buscar_carpetas_mes listado) ->
               expandir m <> DetenidoPorEspacio) ->
    ((exists h, f = Guardado h (salidas_de f))
     <-> preguntar_y_borrar_duplicados_tk base (buscar_carpetas_mes listado)
         = true
         /\ buscar_carpetas_mes listado <> [])
    /\ map mes_y_filas (salidas_de f)
       = if preguntar_y_borrar_duplicados_tk base (buscar_carpetas_mes listado)
         then map (fun m => (m, List.length (archivos_de (expandir m))))
                (filter (fun m => tiene_archivos (expandir m))
                   (buscar_carpetas_mes listado))
         else [].
Proof.
  intros listado expandir base f H Hexp; unfold worker_procesar in H.
  destruct (preguntar_y_borrar_duplicados_tk base (buscar_carpetas_mes listado));
    cbn [negb] in H.
  - destruct (buscar_carpetas_mes listado) as [|m ms] eqn:Ec.
    + injection H as <-; split; [|reflexivity].
      split; [intros [h Hh]; discriminate|intros [_ Hne]; congruence].
    + destruct (bucle_meses _ _ _ _ _) as [c|] eqn:Eb; [|discriminate].
      injection H as <-.
      apply bucle_meses_completo in Eb as (e' & -> & Hs).
      * split; [split; [intros _; split; [reflexivity|discriminate]
                       |intros _; eexists; reflexivity]|].
        cbn [guardar salidas_de]; rewrite Hs; clear.
        generalize (m :: ms); intros l.
        induction l as [|x l IH]; [reflexivity|].
        cbn [estado_inicial salidas map filter fst snd app] in *.
        destruct (tiene_archivos (expandir x)); cbn [map fst snd];
          now rewrite IH.
      * intros p Hp; apply in_map_iff in Hp as (x & <- & Hx); cbn [snd].
        now apply Hexp.
  - injection H as <-; split; [|reflexivity].
    split; [intros [h Hh]; discriminate|intros [Hp _]; discriminate].
Qed.

End Meses.

(** X16 on a base with two months of two files each. *)
Lemma corrida_completa_resume_cada_mes_testigo :
  exists f,
    worker_procesar ratio_igualdad None 10 base_dos_meses
      expandir_ventas_clientes sin_historico = Some f
    /\ map mes_y_filas (salidas_de f) = [("012024", 2%nat); ("022024", 2%nat)].
Proof.
  destruct (worker_procesar ratio_igualdad None 10 base_dos_meses
              expandir_ventas_clientes sin_historico) as [f|] eqn:E;
    [|vm_compute in E; discriminate].
  exists f; split; [reflexivity|].
  refine (proj2 (corrida_completa_resume_cada_mes ratio_igualdad 10
                   base_dos_meses expandir_ventas_clientes sin_historico
                   f E _)).
  intros m _; discriminate.
Defined.

Section Registro.

Variable ratio : string -> string -> Q.
Variable cancel_event : option nat.
Variable umbral : Q.

Lemma bucle_meses_registra meses :
  forall e c,
    bucle_meses ratio cancel_event umbral e meses = Some c ->
    NoDup (map fst meses) ->
    (forall s, In s (salidas e) -> ~ In (mes_salida s) (map fst meses)) ->
    registrado (df_historico e) (salidas e) ->
    forall h ss, guardar c = Guardado h ss -> registrado h ss.
Proof.
  induction meses as [|[mes exp] resto IH]; intros e c H Hnd Hfuera Hreg h ss Hg;
    cbn [bucle_meses] in H.
  - injection H as <-; cbn [guardar] in Hg; injection Hg as <- <-; exact Hreg.
  - cbn [map fst] in Hnd, Hfuera.
    inversion Hnd as [|? ? Hmes Hnd']; subst.
    destruct (procesar_mes ratio cancel_event umbral e mes exp)
      as [[e'|f]|] eqn:Ep; [| |discriminate].
    + apply (IH _ _ H Hnd'); [| |exact Hg];
        destruct (procesar_mes_sigue _ _ _ _ _ _ _ Ep)
          as [[Hs Hd]|(df_mes & detalle & Hs & Hd & Hm)]; rewrite Hs;
          try rewrite Hd.
      * intros s Hs' Hin; apply (Hfuera s Hs'); now right.
      * intros s Hs' Hin; apply in_app_or in Hs' as [Hs'|[<-|[]]].
        -- apply (Hfuera s Hs'); now right.
        -- now apply Hmes.
      * exact Hreg.
      * intros s Hs' Hfilas; apply in_app_or in Hs' as [Hs'|[<-|[]]].
        -- rewrite <- (Hreg s Hs' Hfilas).
           apply integrar_mes_marco; [exact Hm|].
           intros x; apply es_de_otro_mes.
           intros Heq; apply (Hfuera s Hs'); left; now rewrite Heq.
        -- cbn [mes_salida resumen] in *.
           destruct df_mes as [|t ts]; [congruence|].
           cbn [integrar_mes]; now apply reemplazar_mes_del_mes.
    + injection H as <-; cbn [guardar] in Hg.
      destruct (procesar_mes_termina _ _ _ _ _ _ _ Ep) as [-> | ->];
        [injection Hg as <- <-; exact Hreg|discriminate].
Qed.

(** The rows that no month removes stay along the loop, and no row that
    the loop appends is one of them. *)
Lemma bucle_meses_conserva (f : fila_historico -> bool) meses :
  (forall m x, f x = true -> no_es_del_mes m x = true) ->
  forall e c,
    bucle_meses ratio cancel_event umbral e meses = Some c ->
    forall h ss, guardar c = Guardado h ss ->
    filter f h = filter f (df_historico e).
Proof.
  intros Hf; induction meses as [|[mes exp] resto IH]; intros e c H h ss Hg;
    cbn [bucle_meses] in H.
  - injection H as <-; cbn [guardar] in Hg; now injection Hg as <- _.
  - destruct (procesar_mes ratio cancel_event umbral e mes exp)
      as [[e'|f']|] eqn:Ep; [| |discriminate].
    + rewrite (IH _ _ H _ _ Hg).
      destruct (procesar_mes_sigue _ _ _ _ _ _ _ Ep)
        as [[_ Hd]|(df_mes & detalle & _ & Hd & Hm)]; rewrite Hd;
        [reflexivity|].
      apply integrar_mes_marco; [exact Hm|apply Hf].
    + injection H as <-; cbn [guardar] in Hg.
      destruct (procesar_mes_termina _ _ _ _ _ _ _ Ep) as [-> | ->];
        [now injection Hg as <- _|discriminate].
Qed.

(** X17.  When the ledger is written at the end of a run over a base
    directory (whose entries have different names), its rows tagged with
    the folder name of a month as text are, for every month with rows in
    its summary, exactly the rows of that summary with the columns that
    the ledger keeps; and its rows with another kind of tag are the rows
    of that kind that the run loaded from the store, those of the processed
    months included: a row read back with a number as its tag is never
    replaced. *)
Theorem historico_guardado_es_el_resumen :
  forall (listado : list entrada) (expandir : string -> expansion)
         (base : almacen) (h : list fila_historico) (ss : list salida_mes),
    worker_procesar ratio cancel_event umbral listado expandir base
    = Some (Guardado h ss) ->
    NoDup (map nombre listado) ->
    registrado h ss
    /\ filter sin_etiqueta_de_texto h
       = filter sin_etiqueta_de_texto (cargar_historico base).
Proof.
  intros listado expandir base h ss H Hnd; unfold worker_procesar in H.
  apply buscar_carpetas_mes_nodup in Hnd.
  destruct (negb (preguntar_y_borrar_duplicados_tk _ _)); [discriminate|].
  destruct (buscar_carpetas_mes listado) as [|m ms] eqn:Ec; [discriminate|].
  destruct (bucle_meses _ _ _ _ _) as [c|] eqn:Eb; [|discriminate].
  injection H as H; split.
  - apply (bucle_meses_registra _ _ _ Eb); [| | |exact H].
    + now rewrite map_fst_pares.
    + intros s [].
    + intros s [].
  - apply (bucle_meses_conserva sin_etiqueta_de_texto _) with (h := h) (ss := ss)
      in Eb; [exact Eb| |exact H].
    intros mes x Hx; unfold sin_etiqueta_de_texto in Hx.
    unfold no_es_del_mes; destruct (mes_de_fila x); [reflexivity| |reflexivity].
    discriminate.
Qed.

Lemma procesar_mes_sin_mes_anterior e mes exp e' s :
  procesar_mes ratio cancel_event umbral e mes exp = Some (Sigue e') ->
  mes_anterior e = None ->
  In s (salidas e') ->
  In s (salidas e) \/ Forall sin_comparar (resumen s).
Proof.
  unfold procesar_mes.
  destruct (is_set cancel_event (consultas e)); [discriminate|].
  destruct exp as [items|]; [|discriminate].
  destruct (sin_duplicados [] items) as [|a archivos].
  - intros H _; injection H as <-; now left.
  - destruct (leer_archivos _ _ _ _ _) as [[[datos_mes detalle] k]|];
      [|discriminate].
    intros H Hant; injection H as <-; cbn [salidas]; rewrite Hant.
    intros Hs; apply in_app_or in Hs as [Hs|[<-|[]]]; [now left|right].
    cbn [resumen]; apply Forall_forall; intros t Ht.
    apply in_map_iff in Ht as (d & <- & _).
    repeat split.
Qed.

(** X18.  The rows of the first month folder of a run carry no comparison
    at all, neither with a previous month nor with the history of the
    ledger, whatever the ledger loaded from the store holds. *)
Theorem primer_mes_sin_comparacion :
  forall (listado : list entrada) (expandir : string -> expansion)
         (base : almacen) (f : fin)
         (m : string) (ms : list string) (s : salida_mes),
    worker_procesar ratio cancel_event umbral listado expandir base = Some f ->
    NoDup (map nombre listado) ->
    buscar_carpetas_mes listado = m :: ms ->
    In s (salidas_de f) ->
    mes_salida s = m ->
    Forall sin_comparar (resumen s).
Proof.
  intros listado expandir base f m ms s H Hnd Ec Hs Hm.
  apply buscar_carpetas_mes_nodup in Hnd; rewrite Ec in Hnd.
  inversion Hnd as [|? ? Hfuera _]; subst.
  unfold worker_procesar in H; rewrite Ec in H.
  destruct (negb (preguntar_y_borrar_duplicados_tk _ _));
    [injection H as <-; destruct Hs|].
  cbn [map bucle_meses] in H.
  destruct (procesar_mes ratio cancel_event umbral
              (estado_inicial (cargar_historico base))
              (mes_salida s) (expandir (mes_salida s)))
    as [[e'|f']|] eqn:Ep; [| |discriminate].
  - destruct (bucle_meses _ _ _ e' _) as [c|] eqn:Eb; [|discriminate].
    injection H as <-.
    destruct (bucle_meses_nuevas _ _ _ _ _ _ _ Eb Hs) as [Hin|Hin].
    + destruct (procesar_mes_sin_mes_anterior _ _ _ _ _ Ep eq_refl Hin)
        as [[]|Hok]; exact Hok.
    + rewrite map_fst_pares in Hin; contradiction.
  - injection H as <-; cbn [guardar] in Hs.
    destruct (procesar_mes_termina _ _ _ _ _ _ _ Ep) as [-> | ->];
      destruct Hs.
Qed.

(** X19.  When the space guard stops the run at a month, the function
    returns without writing the ledger: the store keeps what the first step
    left there, without the rows of the months that were processed before,
    whose summaries were written. *)
Theorem sin_espacio_no_guarda :
  forall (listado : list entrada) (expandir : string -> expansion)
         (base : almacen)
         (antes despues : list string) (m : string) (e : estado),
    preguntar_y_borrar_duplicados_tk base (buscar_carpetas_mes listado)
    = true ->
    buscar_carpetas_mes listado = antes ++ m :: despues ->
    bucle_meses ratio cancel_event umbral
      (estado_inicial (cargar_historico base))
      (map (fun x => (x, expandir x)) antes) = Some (Sigue e) ->
    is_set cancel_event (consultas e) = false ->
    expandir m = DetenidoPorEspacio ->
    worker_procesar ratio cancel_event umbral listado expandir base
    = Some (SinGuardar (salidas e))
    /\ historico_final base (SinGuardar (salidas e)) = cargar_historico base.
Proof.
  intros listado expandir base antes despues m e Hp Ec Hb Hc Hm.
  split; [|reflexivity].
  unfold worker_procesar; rewrite Hp, Ec; cbn [negb].
  destruct (antes ++ m :: despues) eqn:El;
    [now destruct antes|rewrite <- El].
  rewrite map_app, bucle_meses_app, Hb.
  cbn [map bucle_meses]; unfold procesar_mes; rewrite Hc, Hm; reflexivity.
Qed.

End Registro.

(** X17 on a run over January with its two files, the stored ledger, which
    could not be moved, holding an old row of January. *)
Lemma historico_guardado_es_el_resumen_testigo :
  exists h ss,
    worker_procesar ratio_igualdad None 10 base_un_mes
      expandir_ventas_clientes
      (historico_no_movido [fila_leida 12024 "viejo.csv" 5])
    = Some (Guardado h ss)
    /\ NoDup (map nombre base_un_mes)
    /\ registrado h ss
    /\ filter sin_etiqueta_de_texto h = [fila_leida 12024 "viejo.csv" 5].
Proof.
  destruct (worker_procesar ratio_igualdad None 10 base_un_mes
              expandir_ventas_clientes
              (historico_no_movido [fila_leida 12024 "viejo.csv" 5]))
    as [[h ss|ss]|] eqn:E; [|vm_compute in E; discriminate..].
  assert (Hnd : NoDup (map nombre base_un_mes))
    by (repeat constructor; intros []).
  exists h, ss; split; [reflexivity|]; split; [exact Hnd|].
  exact (historico_guardado_es_el_resumen ratio_igualdad None 10 base_un_mes
           expandir_ventas_clientes _ h ss E Hnd).
Defined.

(** X18 on a run over two months with a loaded ledger that holds a row of
    the same name: the two rows of January carry no comparison. *)
Lemma primer_mes_sin_comparacion_testigo :
  exists f s,
    worker_procesar ratio_igualdad None 10 base_dos_meses
      expandir_ventas_clientes
      (historico_no_movido [fila_leida 122023 "ventas.csv" 5]) = Some f
    /\ In s (salidas_de f)
    /\ mes_salida s = "012024"
    /\ List.length (resumen s) = 2%nat
    /\ Forall sin_comparar (resumen s).
Proof.
  destruct (worker_procesar ratio_igualdad None 10 base_dos_meses
              expandir_ventas_clientes
              (historico_no_movido [fila_leida 122023 "ventas.csv" 5]))
    as [f|] eqn:E; [|vm_compute in E; discriminate].
  assert (E' := E); vm_compute in E'; injection E' as E'; subst f.
  assert (Hnd : NoDup (map nombre base_dos_meses)).
  { repeat constructor; [intros [H'|[]]; discriminate|intros []]. }
  eexists _, _; split; [reflexivity|].
  split; [left; reflexivity|].
  split; [reflexivity|].
  split; [reflexivity|].
  exact (primer_mes_sin_comparacion ratio_igualdad None 10
           base_dos_meses expandir_ventas_clientes
           (historico_no_movido [fila_leida 122023 "ventas.csv" 5])
           _ "012024" ["022024"] _
           E Hnd eq_refl (or_introl eq_refl) eq_refl).
Defined.

(** X19 on a base with two months: January is read and its summary
    written, the disk is full at February, and the store keeps no ledger,
    the row of January included. *)
Lemma sin_espacio_no_guarda_testigo :
  exists e,
    bucle_meses ratio_igualdad None 10
      (estado_inicial (cargar_historico sin_historico))
      (map (fun x => (x, expandir_sin_espacio x)) ["012024"]) = Some (Sigue e)
    /\ List.length (df_historico e) = 1%nat
    /\ worker_procesar ratio_igualdad None 10 base_dos_meses
         expandir_sin_espacio sin_historico = Some (SinGuardar (salidas e))
    /\ historico_final sin_historico (SinGuardar (salidas e)) = [].
Proof.
  destruct (bucle_meses ratio_igualdad None 10
              (estado_inicial (cargar_historico sin_historico))
              (map (fun x => (x, expandir_sin_espacio x)) ["012024"]))
    as [[e|f]|] eqn:E; [|vm_compute in E; discriminate..].
  exists e; split; [reflexivity|].
  split; [vm_compute in E; injection E as <-; reflexivity|].
  exact (sin_espacio_no_guarda ratio_igualdad None 10 base_dos_meses
           expandir_sin_espacio sin_historico ["012024"] [] "022024" e
           eq_refl eq_refl E eq_refl eq_refl).
Defined.

End CorridaExtra.

(** ** More on the listing application *)

Module ListaExtra.
Import Texto Carpetas Tendencia Lectura Worker Lista Corridas.

Lemma listar_archivos_cada_uno mes archivos :
  forall k,
    exists tabla errores,
      listar_archivos None mes archivos k
      = Some (tabla, errores, (k + List.length archivos)%nat)
      /\ Permutation (map Ruta_completa tabla ++ map Ruta_error errores)
           (map path archivos).
Proof.
  induction archivos as [|it r IH]; intros k; cbn [listar_archivos is_set].
  - exists [], []; split; [now rewrite Nat.add_0_r|constructor].
  - destruct (IH (S k)) as (tabla & errores & -> & Hp).
    unfold medir.
    replace (S k + List.length r)%nat with (k + List.length (it :: r))%nat
      by (simpl; lia).
    assert (Herr : forall msg,
               Permutation
                 (map Ruta_completa tabla
                  ++ map Ruta_error
                       ({| Mes_error := extraer_mes_anio mes;
                           Archivo_error := basename (path it);
                           Ruta_error := path it;
                           Error_texto := msg |} :: errores))
                 (map path (it :: r))).
    { intros msg; cbn [map Ruta_error].
      apply Permutation_sym, Permutation_cons_app, Permutation_sym, Hp. }
    destruct (leer_archivo_generico (fichero it)) as [df|msg].
    + destruct (posicion "__filas__" (columns df)) as [i|].
      * destruct (filas df) as [|primera fs].
        -- eexists _, _; split; [reflexivity|apply Herr].
        -- destruct (nth_error primera i) as [c|].
           ++ eexists _, _; split; [reflexivity|].
              cbn [map app Ruta_completa]; now constructor.
           ++ eexists _, _; split; [reflexivity|apply Herr].
      * eexists _, _; split; [reflexivity|].
        cbn [map app Ruta_completa]; now constructor.
    + eexists _, _; split; [reflexivity|apply Herr].
Qed.

(** X20.  A run of the listing application that is not cancelled always
    ends with its two tables, and every file of every month folder is in
    exactly one of them: in the table of files with its row count, or in
    the table of errors with the text of its failure.  No file is left out
    and a failure of one file does not stop the others. *)
Theorem procesar_carpeta_base_lista_cada_archivo :
  forall (listado : list entrada) (expandir : string -> list item),
    exists tabla errores,
      procesar_carpeta_base None listado expandir = Some (tabla, errores)
      /\ Permutation (map Ruta_completa tabla ++ map Ruta_error errores)
           (map path (List.concat (map expandir (buscar_carpetas_mes listado)))).
Proof.
  intros listado expandir; unfold procesar_carpeta_base.
  generalize 0%nat.
  induction (buscar_carpetas_mes listado) as [|m ms IH]; intros k;
    cbn [map listar_meses is_set List.concat].
  - exists [], []; split; [reflexivity|constructor].
  - destruct (listar_archivos_cada_uno m (expandir m) (S k))
      as (t1 & e1 & -> & Hp1).
    destruct (IH (S k + List.length (expandir m))%nat)
      as (t2 & e2 & -> & Hp2).
    exists (t1 ++ t2), (e1 ++ e2); split; [reflexivity|].
    rewrite !map_app.
    apply (Permutation_trans
             (l' := (map Ruta_completa t1 ++ map Ruta_error e1)
                    ++ (map Ruta_completa t2 ++ map Ruta_error e2))).
    + rewrite <- !app_assoc; apply Permutation_app_head.
      rewrite !app_assoc; apply Permutation_app_tail, Permutation_app_comm.
    + now apply Permutation_app.
Qed.

Lemma listar_archivos_con_cancelacion mes t archivos :
  forall k,
    (k <= t)%nat ->
    listar_archivos (Some t) mes archivos k
    = if (t <? k + List.length archivos)%nat then None
      else listar_archivos None mes archivos k.
Proof.
  induction archivos as [|it r IH]; intros k Hk;
    cbn [listar_archivos is_set List.length].
  - rewrite Nat.add_0_r.
    destruct (Nat.ltb_spec t k); [lia|reflexivity].
  - destruct (Nat.leb_spec t k).
    + destruct (Nat.ltb_spec t (k + S (List.length r))); [reflexivity|lia].
    + rewrite (IH (S k)) by lia.
      replace (k + S (List.length r))%nat with (S k + List.length r)%nat by lia.
      destruct (t <? S k + List.length r)%nat; reflexivity.
Qed.

Lemma listar_meses_con_cancelacion t meses :
  forall k,
    (k <= t)%nat ->
    listar_meses (Some t) meses k
    = if (t <? k + consultas_de meses)%nat then None
      else listar_meses None meses k.
Proof.
  induction meses as [|[mes archivos] resto IH]; intros k Hk;
    cbn [listar_meses is_set consultas_de].
  - rewrite Nat.add_0_r.
    destruct (Nat.ltb_spec t k); [lia|reflexivity].
  - destruct (Nat.leb_spec t k).
    + destruct (Nat.ltb_spec t (k + S (List.length archivos + consultas_de resto)));
        [reflexivity|lia].
    + rewrite (listar_archivos_con_cancelacion mes t archivos (S k)) by lia.
      destruct (Nat.ltb_spec t (S k + List.length archivos)).
      * destruct (Nat.ltb_spec t (k + S (List.length archivos + consultas_de resto)));
          [reflexivity|lia].
      * destruct (listar_archivos_cada_uno mes archivos (S k))
          as (t1 & e1 & -> & _).
        rewrite (IH (S k + List.length archivos)%nat) by lia.
        replace (k + S (List.length archivos + consultas_de resto))%nat
          with (S k + List.length archivos + consultas_de resto)%nat by lia.
        destruct (t <? S k + List.length archivos + consultas_de resto)%nat;
          reflexivity.
Qed.

(** X21.  The listing application polls the cancellation once per month
    folder and once per file.  When the event is found set at one of these
    polls the run returns without its tables, whatever was read before;
    when it is set later than the last poll the run ends as a run that is
    not cancelled. *)
Theorem procesar_carpeta_base_cancelado :
  forall (t : nat) (listado : list entrada) (expandir : string -> list item),
    procesar_carpeta_base (Some t) listado expandir
    = if (t <? consultas_de
                 (map (fun m => (m, expandir m)) (buscar_carpetas_mes listado)))%nat
      then None
      else procesar_carpeta_base None listado expandir.
Proof.
  intros t listado expandir; unfold procesar_carpeta_base.
  rewrite (listar_meses_con_cancelacion t _ 0) by lia.
  reflexivity.
Qed.

End ListaExtra.

(** ** Archive names and temporary folders *)

Module UtilidadesProps.
Import Texto Sanitizador Lectura LecturaProps Utilidades.

Lemma substring_todo (s : string) : substring 0 (String.length s) s = s.
Proof. induction s; simpl; [reflexivity|now rewrite IHs]. Qed.

Lemma substring_app (pre suf : string) :
  substring (String.length pre) (String.length suf) (pre ++ suf) = suf.
Proof. induction pre; simpl; [apply substring_todo|exact IHpre]. Qed.

Lemma substring_resto (s : string) :
  forall n m,
    (n + m = String.length s)%nat ->
    s = (prefijo n s ++ substring n m s)%string.
Proof.
  induction s as [|c r IH]; intros n m H.
  - simpl in H; destruct n, m; try discriminate; reflexivity.
  - destruct n as [|n].
    + rewrite Nat.add_0_l in H; subst m; cbn [prefijo append].
      now rewrite (substring_todo (String c r)).
    + cbn [prefijo append substring]; f_equal; apply IH; simpl in H; lia.
Qed.

(** [s.endswith(suf)] holds when [s] is some text followed by [suf]. *)
Lemma endswith_str_sufijo suf s :
  endswith_str suf s = true <-> exists pre, s = (pre ++ suf)%string.
Proof.
  unfold endswith_str; split.
  - intros H; apply andb_true_iff in H as [Hl He].
    apply Nat.leb_le in Hl; apply String.eqb_eq in He.
    exists (prefijo (String.length s - String.length suf) s).
    pose proof (substring_resto s (String.length s - String.length suf)
                  (String.length suf)) as Hr.
    rewrite He in Hr; apply Hr; lia.
  - intros [pre ->]; rewrite length_app_str.
    apply andb_true_iff; split; [apply Nat.leb_le; lia|].
    replace (String.length pre + String.length suf - String.length suf)%nat
      with (String.length pre) by lia.
    rewrite substring_app; apply String.eqb_refl.
Qed.

Lemma sufijos_comparables (a b : string) :
  forall p q : string,
    (p ++ a = q ++ b)%string ->
    (String.length a <= String.length b)%nat ->
    exists r, b = (r ++ a)%string.
Proof.
  intros p q; revert p; induction q as [|c q IH]; intros p H Hl.
  - exists p; now rewrite H.
  - destruct p as [|d p].
    + cbn [append] in H; subst a.
      cbn [append String.length] in Hl; rewrite length_app_str in Hl; lia.
    + cbn [append] in H; injection H as _ H; now apply (IH p).
Qed.

Lemma endswith_str_comparables a b s :
  endswith_str a s = true -> endswith_str b s = true ->
  (String.length a <= String.length b)%nat ->
  endswith_str a b = true.
Proof.
  intros Ha Hb Hl.
  apply endswith_str_sufijo in Ha as [p ->].
  apply endswith_str_sufijo in Hb as [q Hq].
  apply endswith_str_sufijo; now apply (sufijos_comparables a b p q).
Qed.

Lemma endswith_str_app a pre s :
  endswith_str a s = true -> endswith_str a (pre ++ s) = true.
Proof.
  intros H; apply endswith_str_sufijo in H as [p ->].
  apply endswith_str_sufijo; exists (pre ++ p)%string.
  clear; induction pre; simpl; [reflexivity|now rewrite IHpre].
Qed.

Lemma endswith_str_trans a b s :
  endswith_str a b = true -> endswith_str b s = true ->
  endswith_str a s = true.
Proof.
  intros Ha Hb; apply endswith_str_sufijo in Hb as [p ->].
  now apply endswith_str_app.
Qed.

Lemma lower_app a b : lower (a ++ b) = (lower a ++ lower b)%string.
Proof. induction a; simpl; [reflexivity|now rewrite IHa]. Qed.

Lemma split_ultimo (s : string) :
  (exists pre, s = (pre ++ last (split barra s) "")%string)
  /\ (forall x, split barra s = [x] -> s = x).
Proof.
  induction s as [|c r [[pre IH] Huno]].
  - split; [exists ""%string; reflexivity|].
    intros x H; now injection H as <-.
  - pose proof (TextoProps.split_no_vacio barra r) as Hne.
    cbn [split].
    destruct (Ascii.eqb c barra).
    + destruct (split barra r) as [|x xs] eqn:E; [congruence|].
      split; [|intros y H; discriminate].
      exists (String c pre); cbn [append]; f_equal; exact IH.
    + destruct (split barra r) as [|x xs] eqn:E; [congruence|].
      destruct xs as [|y ys].
      * rewrite (Huno x eq_refl).
        split; [exists ""%string; reflexivity|].
        intros z H; now injection H as <-.
      * split; [|intros z H; discriminate].
        exists (String c pre); cbn [append]; f_equal; exact IH.
Qed.

Lemma basename_sufijo (p : string) :
  exists pre, p = (pre ++ basename p)%string.
Proof. exact (proj1 (split_ultimo p)). Qed.

Lemma endswith_str_basename a p :
  endswith_str a (lower (basename p)) = true ->
  endswith_str a (lower p) = true.
Proof.
  intros H; destruct (basename_sufijo p) as [pre Hp].
  rewrite Hp at 1; rewrite lower_app; now apply endswith_str_app.
Qed.

Lemma xz_no_es_comprimido ln :
  endswith_str ".xz" ln = true ->
  existsb (fun a => endswith_str a ln) ARCHIVE_EXT = false.
Proof.
  intros H.
  destruct (existsb (fun a => endswith_str a ln) ARCHIVE_EXT) eqn:E;
    [|reflexivity].
  apply existsb_exists in E as (a & Ha & He).
  assert (Hc : endswith_str ".xz" a = true).
  { apply (endswith_str_comparables _ _ ln H He).
    cbn [ARCHIVE_EXT In] in Ha.
    repeat (destruct Ha as [<-|Ha]; [simpl; lia|]); destruct Ha. }
  cbn [ARCHIVE_EXT In] in Ha.
  repeat (destruct Ha as [<-|Ha]; [discriminate Hc|]); destruct Ha.
Qed.

(** X22.  A name that ends in [.xz], in any case of the letters, is never
    taken as an archive by the expansion, so that a [.tar.xz] or a
    [.csv.xz] file is listed as it is and not unpacked; the names taken
    as archives are those that end in [.zip], [.tar], [.tgz], [.gz],
    [.bz2] or [.7z]. *)
Theorem is_archive_path_extensiones :
  forall path : string,
    (endswith_str ".xz" (lower path) = true -> is_archive_path path = false)
    /\ is_archive_path path
       = existsb (fun a => endswith_str a (lower path))
           [".zip"; ".tar"; ".tgz"; ".gz"; ".bz2"; ".7z"].
Proof.
  intros path; split; [apply xz_no_es_comprimido|].
  unfold is_archive_path; cbn [ARCHIVE_EXT existsb].
  destruct (endswith_str ".tar.gz" (lower path)) eqn:E;
    [|now rewrite !orb_false_r, ?orb_false_l].
  assert (Hgz : endswith_str ".gz" (lower path) = true)
    by (apply (endswith_str_trans _ ".tar.gz"); [reflexivity|exact E]).
  rewrite Hgz.
  now rewrite !orb_true_r, ?orb_true_l.
Qed.

(** X23.  A compressed delimited file, as [is_csv_gz] recognises it by its
    base name, is taken as an archive by the expansion when it ends in
    [.csv.gz] or [.csv.bz2], and is not when it ends in [.csv.xz]. *)
Theorem is_csv_gz_es_comprimido :
  forall path : string,
    is_csv_gz path = true ->
    is_archive_path path
    = negb (endswith_str ".csv.xz" (lower (basename path))).
Proof.
  intros path H; unfold is_csv_gz in H.
  destruct (endswith_str ".csv.xz" (lower (basename path))) eqn:Exz.
  - apply xz_no_es_comprimido.
    apply endswith_str_basename.
    apply (endswith_str_trans _ ".csv.xz"); [reflexivity|exact Exz].
  - rewrite orb_false_r in H; apply orb_true_iff in H.
    unfold is_archive_path; apply existsb_exists.
    destruct H as [H|H]; apply endswith_str_basename in H.
    + exists ".gz"; split; [cbn; tauto|].
      apply (endswith_str_trans _ ".csv.gz"); [reflexivity|exact H].
    + exists ".bz2"; split; [cbn; tauto|].
      apply (endswith_str_trans _ ".csv.bz2"); [reflexivity|exact H].
Qed.

(** X23 on a compressed file inside a folder. *)
Lemma is_csv_gz_es_comprimido_testigo :
  is_csv_gz "012024/Ventas.CSV.GZ" = true
  /\ is_archive_path "012024/Ventas.CSV.GZ" = true.
Proof.
  split; [reflexivity|].
  exact (is_csv_gz_es_comprimido "012024/Ventas.CSV.GZ" eq_refl).
Defined.

(** *** The cleaning of the temporary folders *)

Lemma insertar_reciente_perm x l : Permutation (x :: l) (insertar_reciente x l).
Proof.
  induction l as [|y r IH]; cbn [insertar_reciente]; [reflexivity|].
  destruct (Qle_bool (getmtime y) (getmtime x)); [reflexivity|].
  apply (Permutation_trans (perm_swap y x r)); now constructor.
Qed.

Lemma ordenar_recientes_perm l : Permutation l (ordenar_recientes l).
Proof.
  induction l as [|x l IH]; cbn [ordenar_recientes fold_right]; [constructor|].
  apply (Permutation_trans (l' := x :: ordenar_recientes l));
    [now constructor|apply insertar_reciente_perm].
Qed.

Lemma insertar_reciente_ordenado x l :
  StronglySorted mas_reciente l ->
  StronglySorted mas_reciente (insertar_reciente x l).
Proof.
  induction 1 as [|y r Hr IH Hy]; cbn [insertar_reciente].
  - repeat constructor.
  - destruct (Qle_bool (getmtime y) (getmtime x)) eqn:E.
    + apply Qle_bool_iff in E.
      constructor; [now constructor|].
      constructor; [exact E|].
      apply Forall_forall; intros z Hz.
      rewrite Forall_forall in Hy; unfold mas_reciente in *.
      exact (Qle_trans _ _ _ (Hy z Hz) E).
    + constructor; [exact IH|].
      apply (Permutation_Forall (insertar_reciente_perm x r)).
      constructor; [|exact Hy].
      unfold mas_reciente.
      apply Qlt_le_weak, Qnot_le_lt; intros Hle.
      apply Qle_bool_iff in Hle; congruence.
Qed.

Lemma ordenar_recientes_ordenado l :
  StronglySorted mas_reciente (ordenar_recientes l).
Proof.
  induction l; cbn [ordenar_recientes fold_right]; [constructor|].
  now apply insertar_reciente_ordenado.
Qed.

(** X24.  Of the folders inside the temporary root the cleaning keeps one,
    which no other folder is more recent than, and removes every other
    one; entries that are not folders are never removed. *)
Theorem limpiar_temp_antiguos_deja_la_mas_reciente :
  forall (temp_root : string) (listado : list subentrada),
    filter isdir_sub listado <> [] ->
    exists queda,
      In queda listado /\ isdir_sub queda = true
      /\ (forall d, In d listado -> isdir_sub d = true ->
                    (getmtime d <= getmtime queda)%Q)
      /\ Permutation
           (ruta_sub temp_root queda
            :: limpiar_temp_antiguos temp_root true listado)
           (map (ruta_sub temp_root) (filter isdir_sub listado)).
Proof.
  intros temp_root listado Hne; unfold limpiar_temp_antiguos; cbn [negb].
  pose proof (ordenar_recientes_perm (filter isdir_sub listado)) as Hp.
  pose proof (ordenar_recientes_ordenado (filter isdir_sub listado)) as Hs.
  destruct (ordenar_recientes (filter isdir_sub listado)) as [|q resto].
  - apply Permutation_sym, Permutation_nil in Hp; contradiction.
  - assert (Hq : In q (filter isdir_sub listado))
      by (apply (Permutation_in _ (Permutation_sym Hp)); now left).
    apply filter_In in Hq as [Hq Hd].
    exists q; split; [exact Hq|]; split; [exact Hd|]; split.
    + intros d Hin Hdir.
      assert (Hd' : In d (q :: resto))
        by (apply (Permutation_in _ Hp), filter_In; now split).
      destruct Hd' as [<-|Hd']; [apply Qle_refl|].
      inversion Hs as [|? ? _ Hall]; subst.
      rewrite Forall_forall in Hall; exact (Hall d Hd').
    + change (Permutation (map (ruta_sub temp_root) (q :: resto))
                (map (ruta_sub temp_root) (filter isdir_sub listado))).
      apply Permutation_map, Permutation_sym, Hp.
Qed.

(** X24 on a root with two folders and a file. *)
Lemma limpiar_temp_antiguos_deja_la_mas_reciente_testigo :
  limpiar_temp_antiguos "tmp" true
    [{| nombre_sub := "a"; isdir_sub := true; getmtime := 5 |};
     {| nombre_sub := "b"; isdir_sub := true; getmtime := 7 |};
     {| nombre_sub := "c.txt"; isdir_sub := false; getmtime := 9 |}]
  = ["tmp/a"]
  /\ exists queda,
       isdir_sub queda = true
       /\ Permutation
            (ruta_sub "tmp" queda :: ["tmp/a"]) ["tmp/a"; "tmp/b"].
Proof.
  split; [reflexivity|].
  destruct (limpiar_temp_antiguos_deja_la_mas_reciente "tmp"
              [{| nombre_sub := "a"; isdir_sub := true; getmtime := 5 |};
               {| nombre_sub := "b"; isdir_sub := true; getmtime := 7 |};
               {| nombre_sub := "c.txt"; isdir_sub := false; getmtime := 9 |}])
    as (queda & _ & Hd & _ & Hp); [discriminate|].
  exists queda; split; [exact Hd|exact Hp].
Defined.

End UtilidadesProps.

(** ** The detail of missing values *)

Module DetalleNulos.
Import Texto Carpetas Tendencia Lectura Worker Corridas.

Lemma enumerar_nulos_numera nombre ruta_item cols afectadas :
  forall i,
    map Fila (enumerar_nulos nombre ruta_item cols i afectadas)
    = numeros_desde i (List.length afectadas)
    /\ map Columnas_Afectadas (enumerar_nulos nombre ruta_item cols i afectadas)
       = map (fun fila => unir ", " (columnas_afectadas cols fila)) afectadas.
Proof.
  induction afectadas as [|fila resto IH]; intros i;
    cbn [enumerar_nulos map List.length numeros_desde Fila Columnas_Afectadas];
    [split; reflexivity|].
  destruct (IH (i + 1)%Z) as [-> ->]; split; reflexivity.
Qed.

(** X25.  The detail of a table that was read has one entry for each row
    with a missing or blank cell, in the order of the rows, and the entries
    are numbered 2, 3, 4, ... one after the other: the number of an entry
    counts the rows with missing values before it and is not the position
    of the row in the table, so that rows without missing values do not
    change the detail. *)
Theorem detalle_de_numera_las_filas_afectadas :
  forall (nombre ruta_item : string) (df : DataFrame),
    empty df = false ->
    map Fila (detalle_de nombre ruta_item (Ok df))
    = numeros_desde 2%Z
        (List.length (filter (existsb celda_sin_valor) (filas df)))
    /\ map Columnas_Afectadas (detalle_de nombre ruta_item (Ok df))
       = map (fun fila => unir ", " (columnas_afectadas (columns df) fila))
           (filter (existsb celda_sin_valor) (filas df))
    /\ forall df' : DataFrame,
         empty df' = false ->
         columns df' = columns df ->
         filter (existsb celda_sin_valor) (filas df')
         = filter (existsb celda_sin_valor) (filas df) ->
         detalle_de nombre ruta_item (Ok df')
         = detalle_de nombre ruta_item (Ok df).
Proof.
  intros nombre ruta_item df Hdf; unfold detalle_de; rewrite Hdf.
  destruct (enumerar_nulos_numera nombre ruta_item (columns df)
              (filter (existsb celda_sin_valor) (filas df)) 2%Z) as [H1 H2].
  split; [exact H1|]; split; [exact H2|].
  intros df' Hdf' Hc Hf; now rewrite Hdf', Hc, Hf.
Qed.

(** X25 on a table whose second row has a missing value: its entry has
    the number 2. *)
Lemma detalle_de_numera_las_filas_afectadas_testigo :
  empty {| columns := ["id"; "monto"];
           filas := [[Texto "1"; Texto "20"]; [Texto "2"; Nulo]] |} = false
  /\ map Fila
       (detalle_de "ventas.csv" "012024/ventas.csv"
          (Ok {| columns := ["id"; "monto"];
                 filas := [[Texto "1"; Texto "20"]; [Texto "2"; Nulo]] |}))
     = numeros_desde 2%Z 1.
Proof.
  split; [reflexivity|].
  exact (proj1 (detalle_de_numera_las_filas_afectadas "ventas.csv"
                  "012024/ventas.csv"
                  {| columns := ["id"; "monto"];
                     filas := [[Texto "1"; Texto "20"]; [Texto "2"; Nulo]] |}
                  eq_refl)).
Defined.

End DetalleNulos.
